(** * cnstd/utils/utils.py: a shallow embedding and its properties

    The module is a set of helpers around the file system, the network and
    a few numeric libraries.  Pure Python code (string handling, dict
    building, control flow) is embedded directly; calls into [os],
    [requests], [zipfile], [cv2], [PIL] and [torch] go through interfaces
    whose operations act on an explicit world state. *)

From Stdlib Require Import ZArith List Ascii String Strings.Byte Lia Bool.
From Stdlib Require Import QArith Qabs Lqa Floats.SpecFloat.
From stdpp Require Import base option list gmap strings fin_maps.
From Equations Require Import Equations.
Import ListNotations.

Local Open Scope string_scope.
Local Open Scope list_scope.
Local Open Scope Z_scope.

(** ** Python values shared by several functions *)

(** Python's built-in exceptions that the module raises or lets through.
    Messages are kept where the source builds them from its arguments. *)
Inductive os_error :=
| FileNotFoundError
| FileExistsError
| IsADirectoryError
| NotADirectoryError
| PermissionError
| OtherOSError (errno : Z).

Inductive req_error :=
| ConnectionError
| Timeout
| ChunkedEncodingError
| OtherRequestException.

Inductive exn :=
| OSError (e : os_error)
| RequestException (e : req_error)
| BadZipFile
| RuntimeError (msg : string)
| UserWarning (msg : string)
| NotImplementedError (msg : string)
| ValueError
| UnicodeDecodeError
| OverflowError
| AttributeError
| KeyError (key : string)
| IndexError
| Cv2Error
| OtherException (cls : string).

Inductive res (A : Type) :=
| Ok (a : A)
| Raise (e : exn).
Arguments Ok {A} a.
Arguments Raise {A} e.

(** ** Python string primitives *)

Module Py.

(** [s[0:l]] *)
Definition slice0 (l : nat) (s : string) : string := substring 0 l s.

(** [s.startswith(p)] *)
Fixpoint startswith (p s : string) : bool :=
  match p, s with
  | EmptyString, _ => true
  | String a p', String b s' => Ascii.eqb a b && startswith p' s'
  | String _ _, EmptyString => false
  end.

(** Truth value of an optional string argument: [None] and [''] are
    false. *)
Definition truthy (o : option string) : bool :=
  match o with
  | None => false
  | Some s => negb (String.eqb s "")
  end.

(** [s.split(sep)[-1]] for a one-character separator: the part after the
    last separator, the whole string when there is none. *)
Fixpoint last_field (sep : ascii) (s : string) : string :=
  match s with
  | EmptyString => EmptyString
  | String c r =>
      if Ascii.eqb c sep then last_field sep r
      else if existsb (Ascii.eqb sep) (list_ascii_of_string r)
           then last_field sep r
           else s
  end.

End Py.

(** ** hashlib.sha1

    The digest is FIPS 180-4 SHA-1 on 32-bit words held in [Z]. *)

Module SHA1.

Definition w32 (x : Z) : Z := x mod 2 ^ 32.
Definition add32 (a b : Z) : Z := w32 (a + b).
Definition not32 (a : Z) : Z := Z.lxor a 0xFFFFFFFF.
Definition rotl32 (n x : Z) : Z :=
  Z.lor (w32 (Z.shiftl x n)) (Z.shiftr x (32 - n)).

Definition byteZ (b : byte) : Z := Z.of_N (Byte.to_N b).

Definition byte_of_Z (z : Z) : byte :=
  match Byte.of_N (Z.to_N (z mod 256)) with
  | Some b => b
  | None => Byte.x00
  end.

(** Big-endian encoding of the message length in bits, 8 bytes. *)
Definition be64 (n : Z) : list byte :=
  map (fun i => byte_of_Z (Z.shiftr n (8 * i))) [7; 6; 5; 4; 3; 2; 1; 0].

Definition pad (msg : list byte) : list byte :=
  let len := Z.of_nat (length msg) in
  let k := Z.to_nat ((55 - len) mod 64) in
  msg ++ [Byte.x80] ++ repeat Byte.x00 k ++ be64 (8 * len).

Fixpoint words_of (fuel : nat) (bs : list byte) : list Z :=
  match fuel, bs with
  | S fuel', b0 :: b1 :: b2 :: b3 :: r =>
      (Z.shiftl (byteZ b0) 24 + Z.shiftl (byteZ b1) 16
       + Z.shiftl (byteZ b2) 8 + byteZ b3) :: words_of fuel' r
  | _, _ => []
  end.

(** The message schedule, newest word first. *)
Fixpoint schedule (n : nat) (rev_ws : list Z) : list Z :=
  match n with
  | O => rev_ws
  | S n' =>
      let w := rotl32 1 (Z.lxor (Z.lxor (nth 2 rev_ws 0) (nth 7 rev_ws 0))
                                (Z.lxor (nth 13 rev_ws 0) (nth 15 rev_ws 0))) in
      schedule n' (w :: rev_ws)
  end.

Definition f_round (t : Z) (b c d : Z) : Z :=
  if t <? 20 then Z.lor (Z.land b c) (Z.land (not32 b) d)
  else if t <? 40 then Z.lxor (Z.lxor b c) d
  else if t <? 60 then Z.lor (Z.lor (Z.land b c) (Z.land b d)) (Z.land c d)
  else Z.lxor (Z.lxor b c) d.

Definition k_round (t : Z) : Z :=
  if t <? 20 then 0x5A827999
  else if t <? 40 then 0x6ED9EBA1
  else if t <? 60 then 0x8F1BBCDC
  else 0xCA62C1D6.

Record state := { h0 : Z; h1 : Z; h2 : Z; h3 : Z; h4 : Z }.

Definition init : state :=
  {| h0 := 0x67452301; h1 := 0xEFCDAB89; h2 := 0x98BADCFE;
     h3 := 0x10325476; h4 := 0xC3D2E1F0 |}.

Fixpoint rounds (t : Z) (ws : list Z) (s : state) : state :=
  match ws with
  | [] => s
  | w :: ws' =>
      let tmp := add32 (add32 (add32 (add32 (rotl32 5 (h0 s))
                   (f_round t (h1 s) (h2 s) (h3 s))) (h4 s)) (k_round t)) w in
      rounds (t + 1) ws'
        {| h0 := tmp; h1 := h0 s; h2 := rotl32 30 (h1 s);
           h3 := h2 s; h4 := h3 s |}
  end.

Definition compress (s : state) (block : list byte) : state :=
  let ws := rev (schedule 64 (rev (words_of 16 block))) in
  let r := rounds 0 ws s in
  {| h0 := add32 (h0 s) (h0 r); h1 := add32 (h1 s) (h1 r);
     h2 := add32 (h2 s) (h2 r); h3 := add32 (h3 s) (h3 r);
     h4 := add32 (h4 s) (h4 r) |}.

Fixpoint blocks (fuel : nat) (bs : list byte) (s : state) : state :=
  match fuel, bs with
  | S fuel', _ :: _ => blocks fuel' (skipn 64 bs) (compress s (firstn 64 bs))
  | _, _ => s
  end.

Definition digest (msg : list byte) : state :=
  let p := pad msg in blocks (length p) p init.

Definition hex_digit (z : Z) : ascii :=
  nth (Z.to_nat (z mod 16))
      (list_ascii_of_string "0123456789abcdef") "0"%char.

(** Eight lower-case hexadecimal digits of a 32-bit word. *)
Definition hex32 (w : Z) : string :=
  string_of_list_ascii
    (map (fun i => hex_digit (Z.shiftr w (4 * i))) [7; 6; 5; 4; 3; 2; 1; 0]).

Definition hex (s : state) : string :=
  hex32 (h0 s) +:+ hex32 (h1 s) +:+ hex32 (h2 s) +:+ hex32 (h3 s) +:+ hex32 (h4 s).

(** The [hashlib] object: what has been fed so far.  [update] calls are
    equivalent to one call on the concatenation of their arguments. *)
Record obj := { fed : list byte }.

Definition new : obj := {| fed := [] |}.
Definition update (o : obj) (data : list byte) : obj :=
  {| fed := fed o ++ data |}.
Definition hexdigest (o : obj) : string := hex (digest (fed o)).

End SHA1.

Definition bytes_of_string (s : string) : list byte :=
  map byte_of_ascii (list_ascii_of_string s).

(** ** The environment

    [os], [os.path], [pathlib], [zipfile] and the built-in [open] are an
    interface over a file-system state; [requests] is one over a network
    state.  Queries are functions of the state, actions return the new
    state together with the error they raised, if any. *)

(** What [zipfile.ZipFile(zip)] and [extractall] raise: BadZipFile for a
    file that is no archive or fails its CRC, the OSError of reading the
    archive or writing a member, NotImplementedError for an archive whose
    compression method or zip version the module does not support,
    RuntimeError for an encrypted member, and whatever else a decompressor
    raises on damaged data ([zlib.error], EOFError), by the name of its
    class. *)
Inductive zip_error :=
| ZipBad
| ZipOS (e : os_error)
| ZipNotImplemented (msg : string)
| ZipRuntime (msg : string)
| ZipOther (cls : string).

Definition zip_exn (e : zip_error) : exn :=
  match e with
  | ZipBad => BadZipFile
  | ZipOS e => OSError e
  | ZipNotImplemented msg => NotImplementedError msg
  | ZipRuntime msg => RuntimeError msg
  | ZipOther cls => OtherException cls
  end.

Inductive text_error :=
| TextOS (e : os_error)
| TextDecode.

Class OS := {
  fs : Type;
  (* os.path *)
  expanduser : string -> string;
  abspath : string -> string;
  dirname : string -> string;
  basename : string -> string;
  join : string -> string -> string;
  path_exists : string -> fs -> bool;
  isdir : string -> fs -> bool;
  (* pathlib.Path(p).parent, as a string *)
  path_parent : string -> string;
  (* os.makedirs(name, exist_ok=...), os.remove(path) *)
  makedirs : string -> bool -> fs -> option os_error * fs;
  remove : string -> fs -> option os_error * fs;
  (* open(p, 'rb'): the bytes a reader of the handle gets up to EOF *)
  open_rb : string -> fs -> os_error + list byte;
  (* open(p, encoding='utf-8'): the decoded text, newlines translated *)
  open_text : string -> fs -> text_error + string;
  (* open(p, 'wb'), then f.write(data) on that handle *)
  open_wb : string -> fs -> option os_error * fs;
  write : string -> list byte -> fs -> option os_error * fs;
  (* open(p, 'a'), as logging.FileHandler does *)
  open_a : string -> fs -> option os_error * fs;
  (* zipfile.ZipFile(zip).extractall(dest) *)
  extractall : string -> string -> fs -> option zip_error * fs
}.

(** What [requests.get(url, stream=True)] hands back: the status code, the
    content-length header when present, the chunks [iter_content] yields
    and the error that ends the stream early, if any. *)
Record response := {
  status_code : Z;
  content_length : option string;
  chunks : list (list byte);
  stream_error : option req_error
}.

Class Net := {
  net : Type;
  http_get : string -> net -> (req_error + response) * net
}.

(** logging: handlers and the root logger. *)
Inductive handler_kind :=
| StreamHandler
| FileHandler (filename : string).

Record handler := {
  h_kind : handler_kind;
  h_level : Z;
  h_format : option string
}.

Record logger_state := {
  l_level : Z;
  l_handlers : list handler
}.

Section World.
Context `{OS} `{Net}.

Record world := {
  w_fs : fs;
  w_net : net;
  w_requests : list string;   (* URLs requested so far, oldest first *)
  w_stdout : list string;     (* lines printed so far, oldest first *)
  w_logger : logger_state     (* the module-level root logger *)
}.

Definition set_fs (w : world) (f : fs) : world :=
  {| w_fs := f; w_net := w_net w; w_requests := w_requests w;
     w_stdout := w_stdout w; w_logger := w_logger w |}.

Definition set_logger_state (w : world) (l : logger_state) : world :=
  {| w_fs := w_fs w; w_net := w_net w; w_requests := w_requests w;
     w_stdout := w_stdout w; w_logger := l |}.

(** State and exceptions. *)
Definition M (A : Type) : Type := world -> res A * world.

Definition ret {A} (a : A) : M A := fun w => (Ok a, w).
Definition raise {A} (e : exn) : M A := fun w => (Raise e, w).
Definition bind {A B} (m : M A) (k : A -> M B) : M B :=
  fun w => match m w with
           | (Ok a, w') => k a w'
           | (Raise e, w') => (Raise e, w')
           end.

Definition query {A} (q : fs -> A) : M A := fun w => (Ok (q (w_fs w)), w).

Definition lift {A} (r : res A) : M A := fun w => (r, w).

Definition act (a : fs -> option os_error * fs) : M unit :=
  fun w => match a (w_fs w) with
           | (None, f) => (Ok tt, set_fs w f)
           | (Some e, f) => (Raise (OSError e), set_fs w f)
           end.

Definition print (line : string) : M unit :=
  fun w => (Ok tt,
            {| w_fs := w_fs w; w_net := w_net w; w_requests := w_requests w;
               w_stdout := w_stdout w ++ [line]; w_logger := w_logger w |}).

Definition requests_get (url : string) : M response :=
  fun w => let '(r, n) := http_get url (w_net w) in
           let w' := {| w_fs := w_fs w; w_net := n;
                        w_requests := w_requests w ++ [url];
                        w_stdout := w_stdout w; w_logger := w_logger w |} in
           match r with
           | inr resp => (Ok resp, w')
           | inl e => (Raise (RequestException e), w')
           end.

End World.

Declare Scope py_scope.
Delimit Scope py_scope with py.
Notation "'let*' x ':=' m 'in' k" := (bind m (fun x => k))
  (at level 10, x pattern, m at level 100, k at level 200) : py_scope.
Notation "m ';;' k" := (bind m (fun _ => k))
  (at level 100, k at level 200, right associativity) : py_scope.
Local Open Scope py_scope.

(** ** check_sha1 *)

Definition CHUNK : N := 1048576.

(** [f.read(n)] on a binary handle: at most [n] bytes, fewer only at the
    end of the file.  The handle is the list of bytes not read yet. *)
Fixpoint take_bytes (n : N) (h : list byte) : list byte :=
  match h with
  | [] => []
  | b :: r => if (n =? 0)%N then [] else b :: take_bytes (N.pred n) r
  end.

Fixpoint drop_bytes (n : N) (h : list byte) : list byte :=
  match h with
  | [] => []
  | b :: r => if (n =? 0)%N then h else drop_bytes (N.pred n) r
  end.

Lemma take_drop_bytes n h : take_bytes n h ++ drop_bytes n h = h.
Proof.
  revert n. induction h as [|b r IH]; intros n; simpl; [done|].
  destruct (n =? 0)%N; simpl; [done|]. by rewrite IH.
Qed.

Lemma drop_bytes_length n h : (length (drop_bytes n h) <= length h)%nat.
Proof.
  revert n. induction h as [|b r IH]; intros n; simpl; [lia|].
  destruct (n =? 0)%N; simpl; [lia|]. specialize (IH (N.pred n)). lia.
Qed.

Lemma drop_bytes_shrinks n h d ds :
  take_bytes n h = d :: ds -> (length (drop_bytes n h) < length h)%nat.
Proof.
  destruct h as [|b r]; simpl; [done|].
  destruct (n =? 0)%N; [done|]. intros _.
  pose proof (drop_bytes_length (N.pred n) r). lia.
Qed.

Definition inspect {A} (a : A) : {b : A | a = b} := exist _ a eq_refl.

(** The loop of lines 117-121: read a chunk, stop on the empty one, feed
    the others to the hash object. *)
Equations? read_loop (h : list byte) (sha1 : SHA1.obj) : SHA1.obj
  by wf (length h) lt :=
  read_loop h sha1 with inspect (take_bytes CHUNK h) := {
    | exist _ [] _ => sha1
    | exist _ (d :: ds) E =>
        read_loop (drop_bytes CHUNK h) (SHA1.update sha1 (d :: ds)) }.
Proof. eapply drop_bytes_shrinks; eassumption. Qed.

Section CheckSha1.
Context `{OS} `{Net}.

Definition check_sha1 (filename sha1_hash : string) : M bool :=
  fun w =>
    match open_rb filename (w_fs w) with
    | inl e => (Raise (OSError e), w)
    | inr content =>
        let sha1 := read_loop content SHA1.new in
        let sha1_file := SHA1.hexdigest sha1 in
        let l := Nat.min (String.length sha1_file) (String.length sha1_hash) in
        (Ok (String.eqb (Py.slice0 l (SHA1.hexdigest sha1))
                        (Py.slice0 l sha1_hash)), w)
    end.

End CheckSha1.

(** The hexadecimal SHA-1 digest of a whole byte sequence. *)
Definition sha1_hex (content : list byte) : string :=
  SHA1.hex (SHA1.digest content).


(** ** download *)

Module PyInt.

(** A header value is a [str] of code points below 256 ([http.client]
    decodes headers as ISO-8859-1), one character each.  Among them
    [int] takes as white space the six of ASCII, and U+0085 and U+00A0,
    which it turns into spaces first; the only decimal digits are 0-9. *)
Definition is_space (c : ascii) : bool :=
  existsb (Ascii.eqb c) [" "%char; "009"%char; "010"%char; "011"%char;
                         "012"%char; "013"%char; "133"%char; "160"%char].

Fixpoint lstrip (cs : list ascii) : list ascii :=
  match cs with
  | c :: r => if is_space c then lstrip r else cs
  | [] => []
  end.

Definition strip (cs : list ascii) : list ascii :=
  rev (lstrip (rev (lstrip cs))).

Definition digit (c : ascii) : option Z :=
  let n := Z.of_nat (nat_of_ascii c) in
  if (48 <=? n) && (n <=? 57) then Some (n - 48) else None.

(** Decimal digits, single underscores allowed between two digits. *)
Fixpoint digits (acc : Z) (after_digit : bool) (cs : list ascii) : option Z :=
  match cs with
  | [] => if after_digit then Some acc else None
  | c :: r =>
      if Ascii.eqb c "_"%char
      then (if after_digit then digits acc false r else None)
      else match digit c with
           | Some d => digits (10 * acc + d) true r
           | None => None
           end
  end.

(** [int(s)] on such a text: surrounding white space, an optional sign,
    decimal digits.  [None] stands for ValueError. *)
Definition int (s : string) : option Z :=
  match strip (list_ascii_of_string s) with
  | c :: r =>
      if Ascii.eqb c "-"%char then Z.opp <$> digits 0 false r
      else if Ascii.eqb c "+"%char then digits 0 false r
      else digits 0 false (c :: r)
  | [] => None
  end.

(** [n / 1024.0] first turns [n] into a float, which raises OverflowError
    when [n] rounds beyond the largest double. *)
Definition too_large_for_float (n : Z) : bool :=
  2 ^ 1024 - 2 ^ 970 <=? Z.abs n.

End PyInt.

(** The errors download does not raise itself but lets through: those of
    the file system, of the HTTP client and of the conversion of the
    content-length header. *)
Definition propagated (e : exn) : Prop :=
  match e with
  | OSError _ | RequestException _ | ValueError | OverflowError => True
  | _ => False
  end.

Section Download.
Context `{OS} `{Net}.

(** Lines 147-154: the file name the download goes to. *)
Definition download_dest (url : string) (path : option string) (f : fs)
  : string :=
  match path with
  | None => Py.last_field "/" url
  | Some path =>
      let path := expanduser path in
      if isdir path f then join path (Py.last_field "/" url) else path
  end.

(** Lines 156-160: the condition of the [if], with Python's short-circuit
    evaluation. *)
Definition download_needed (fname : string) (overwrite : bool)
    (sha1_hash : option string) : M bool :=
  if overwrite then ret true
  else
    let* present := query (path_exists fname) in
    if negb present then ret true
    else
      match sha1_hash with
      | Some h =>
          if Py.truthy sha1_hash
          then let* ok := check_sha1 fname h in ret (negb ok)
          else ret false
      | None => ret false
      end.

(** Lines 161-166: create the directory, announce, send the request. *)
Definition download_request (url fname : string) : M response :=
  let dir := dirname (abspath (expanduser fname)) in
  let* present := query (path_exists dir) in
  (if negb present then act (makedirs dir false) else ret tt) ;;
  print ("Downloading " +:+ fname +:+ " from " +:+ url +:+ "...") ;;
  requests_get url.

Definition is_empty (chunk : list byte) : bool :=
  match chunk with
  | [] => true
  | _ => false
  end.

(** The two [for] loops over [r.iter_content]: the first skips empty
    chunks, the second (under the progress bar) writes every chunk. *)
Fixpoint write_chunks (fname : string) (skip_empty : bool)
    (cs : list (list byte)) : M unit :=
  match cs with
  | [] => ret tt
  | chunk :: r =>
      (if skip_empty && is_empty chunk then ret tt
       else act (write fname chunk)) ;;
      write_chunks fname skip_empty r
  end.

Definition end_of_stream (r : response) : M unit :=
  match stream_error r with
  | Some e => raise (RequestException e)
  | None => ret tt
  end.

(** Lines 169-184: the [with open(fname, 'wb')] block.  The total handed
    to the progress bar is only displayed; its computation can raise. *)
Definition download_save (fname : string) (r : response) : M unit :=
  let total_length := content_length r in
  act (open_wb fname) ;;
  match total_length with
  | None => write_chunks fname true (chunks r) ;; end_of_stream r
  | Some s =>
      match PyInt.int s with
      | None => raise ValueError
      | Some n =>
          if PyInt.too_large_for_float n then raise OverflowError
          else write_chunks fname false (chunks r) ;; end_of_stream r
      end
  end.

Definition mismatch_message (fname : string) : string :=
  "File " +:+ fname +:+ " is downloaded but the content hash does not match. "
  +:+ "The repo may be outdated or download may be incomplete. "
  +:+ "If the " +:+ String "034" "repo_url" +:+ String "034" " is overridden, consider switching to "
  +:+ "the default repo.".

(** Lines 186-192. *)
Definition download_verify (fname : string) (sha1_hash : option string)
  : M unit :=
  match sha1_hash with
  | Some h =>
      if Py.truthy sha1_hash
      then let* ok := check_sha1 fname h in
           if negb ok then raise (UserWarning (mismatch_message fname))
           else ret tt
      else ret tt
  | None => ret tt
  end.

(** Lines 161-192: the body of the [if]. *)
Definition download_fetch (url fname : string) (sha1_hash : option string)
  : M unit :=
  let* r := download_request url fname in
  if negb (status_code r =? 200)
  then raise (RuntimeError ("Failed downloading url " +:+ url))
  else download_save fname r ;; download_verify fname sha1_hash.

Definition download (url : string) (path : option string) (overwrite : bool)
    (sha1_hash : option string) : M string :=
  let* fname := query (download_dest url path) in
  let* needed := download_needed fname overwrite sha1_hash in
  (if needed then download_fetch url fname sha1_hash else ret tt) ;;
  ret fname.

(** The three ways the condition of lines 156-160 holds. *)
Definition fetch_decided (fname : string) (overwrite : bool)
    (sha1_hash : option string) (w : world) : Prop :=
  overwrite = true
  \/ path_exists fname (w_fs w) = false
  \/ exists h, sha1_hash = Some h /\ Py.truthy sha1_hash = true
               /\ fst (check_sha1 fname h w) = Ok false.

(** The ways it fails with [overwrite=False]: the file is kept. *)
Definition cache_hit (fname : string) (sha1_hash : option string) (w : world)
  : Prop :=
  path_exists fname (w_fs w) = true
  /\ (Py.truthy sha1_hash = false
      \/ exists h, sha1_hash = Some h /\ fst (check_sha1 fname h w) = Ok true).

(** ** get_model_file *)

(** [AVAILABLE_MODELS] comes from [cnstd/consts.py]: a dict from model
    names to tuples whose second component is the URL of the archive. *)
Variable AVAILABLE_MODELS : gmap string (string * string).

Definition extract_zip (zip_file_path par_dir : string) : M unit :=
  fun w => match extractall zip_file_path par_dir (w_fs w) with
           | (None, f) => (Ok tt, set_fs w f)
           | (Some e, f) => (Raise (zip_exn e), set_fs w f)
           end.

Definition get_model_file (model_dir : string) : M string :=
  let model_dir := expanduser model_dir in
  let par_dir := dirname model_dir in
  act (makedirs par_dir true) ;;
  let zip_file_path := model_dir +:+ ".zip" in
  let* present := query (path_exists zip_file_path) in
  (if negb present then
     let model_name := basename model_dir in
     match AVAILABLE_MODELS !! model_name with
     | None =>
         raise (NotImplementedError
                  (model_name +:+ " is not an available downloaded model"))
     | Some (_, url) =>
         download url (Some zip_file_path) true None ;; ret tt
     end
   else ret tt) ;;
  extract_zip zip_file_path par_dir ;;
  act (remove zip_file_path) ;;
  ret model_dir.

(** Lines 224-228 from a world in which the archive is in place. *)
Definition unpack (model_dir : string) (w2 : world) : res string * world :=
  match extractall (expanduser model_dir +:+ ".zip")
          (dirname (expanduser model_dir)) (w_fs w2) with
  | (Some e, f3) => (Raise (zip_exn e), set_fs w2 f3)
  | (None, f3) =>
      match remove (expanduser model_dir +:+ ".zip") f3 with
      | (Some e, f4) => (Raise (OSError e), set_fs w2 f4)
      | (None, f4) => (Ok (expanduser model_dir), set_fs w2 f4)
      end
  end.

(** The world once the archive is where get_model_file expects it: the
    directory has been made, and the archive was either there or has been
    downloaded from the URL registered for the model. *)
Definition archive_in_place (model_dir : string) (w w2 : world) : Prop :=
  exists f1,
    makedirs (dirname (expanduser model_dir)) true (w_fs w) = (None, f1)
    /\ ((path_exists (expanduser model_dir +:+ ".zip") f1 = true
         /\ w2 = set_fs w f1)
        \/ (path_exists (expanduser model_dir +:+ ".zip") f1 = false
            /\ exists v url dest,
                 AVAILABLE_MODELS !! basename (expanduser model_dir)
                 = Some (v, url)
                 /\ download url (Some (expanduser model_dir +:+ ".zip"))
                      true None (set_fs w f1) = (Ok dest, w2))).

End Download.

(** ** read_charset *)

Definition newline : ascii := "010"%char.

(** Iterating over a text file: the lines in order, each with the newline
    that ends it; a last line without newline is yielded as it is. *)
Fixpoint lines_from (cur : string) (s : string) : list string :=
  match s with
  | EmptyString => if String.eqb cur "" then [] else [cur]
  | String c r =>
      if Ascii.eqb c newline
      then (cur +:+ String newline "") :: lines_from "" r
      else lines_from (cur +:+ String c "") r
  end.

Definition file_lines (text : string) : list string := lines_from "" text.

Fixpoint drop_newlines (cs : list ascii) : list ascii :=
  match cs with
  | c :: r => if Ascii.eqb c newline then drop_newlines r else cs
  | [] => []
  end.

(** [line.rstrip('\n')] *)
Definition rstrip_newline (line : string) : string :=
  string_of_list_ascii (rev (drop_newlines (rev (list_ascii_of_string line)))).

(** [{_char: idx for idx, _char in enumerate(alphabet)}], counting from
    [idx]: a later occurrence of a key replaces the value. *)
Fixpoint inv_dict_from (idx : nat) (alphabet : list string)
    (d : gmap string nat) : gmap string nat :=
  match alphabet with
  | [] => d
  | c :: r => inv_dict_from (S idx) r (<[c := idx]> d)
  end.

Definition inv_dict (alphabet : list string) : gmap string nat :=
  inv_dict_from 0 alphabet ∅.

(** Two different positions of the list hold the same line. *)
Definition repeated_line (alphabet : list string) : Prop :=
  exists (i j : nat) (c : string),
    i <> j /\ alphabet !! i = Some c /\ alphabet !! j = Some c.

Section ReadCharset.
Context `{OS} `{Net}.

Definition read_charset (charset_fp : string)
  : M (list string * gmap string nat) :=
  fun w =>
    match open_text charset_fp (w_fs w) with
    | inl (TextOS e) => (Raise (OSError e), w)
    | inl TextDecode => (Raise UnicodeDecodeError, w)
    | inr text =>
        let alphabet := map rstrip_newline (file_lines text) in
        let inv_alph_dict := inv_dict alphabet in
        if negb (Nat.eqb (length alphabet) (size inv_alph_dict))
        then (Raise ValueError, w)
        else (Ok (alphabet, inv_alph_dict), w)
    end.

End ReadCharset.

(** ** normalize_img_array and restore_img

    NumPy's float32 and float64 are IEEE 754 binary32 and binary64; their
    arithmetic is the one of [SpecFloat], rounding to nearest, ties to
    even. *)

Module IEEE.

Definition prec32 : Z := 24.
Definition emax32 : Z := 128.
Definition prec64 : Z := 53.
Definition emax64 : Z := 1024.

(** Round a value to a format (a conversion between the two formats, or
    from an integer). *)
Definition round_to (prec emax : Z) (x : spec_float) : spec_float :=
  match x with
  | S754_finite s m e => binary_normalize prec emax (cond_Zopp s (Zpos m)) e s
  | _ => x
  end.

Definition f32_of_Z (z : Z) : spec_float := binary_normalize prec32 emax32 z 0 false.
Definition f64_of_Z (z : Z) : spec_float := binary_normalize prec64 emax64 z 0 false.
Definition f32_of_f64 : spec_float -> spec_float := round_to prec32 emax32.
Definition f64_of_f32 : spec_float -> spec_float := round_to prec64 emax64.

Definition sub64 := SFsub prec64 emax64.
Definition add64 := SFadd prec64 emax64.
Definition mul32 := SFmul prec32 emax32.
Definition div32 := SFdiv prec32 emax32.
Definition div64 := SFdiv prec64 emax64.

(** The double nearest to the decimal [num / 10^digits]: what Python reads
    a decimal literal as. *)
Definition decimal64 (num : Z) (digits : Z) : spec_float :=
  div64 (f64_of_Z num) (f64_of_Z (10 ^ digits)).

(** [x.clip(lo, hi)] on a float64 entry. *)
Definition clip64 (lo hi x : spec_float) : spec_float :=
  if SFltb x lo then lo else if SFltb hi x then hi else x.

(** The C conversion of a double to an integer drops the fraction. *)
Definition trunc (x : spec_float) : Z :=
  match x with
  | S754_finite s m e =>
      cond_Zopp s (if 0 <=? e then Zpos m * 2 ^ e
                   else Zpos m / 2 ^ (- e))
  | _ => 0
  end.

(** [astype(np.uint8)] of a double that [clip] has brought into range. *)
Definition uint8_of_f64 (x : spec_float) : Z := trunc x mod 256.

(** The rational number a finite float stands for. *)
Definition to_Q (x : spec_float) : Q :=
  match x with
  | S754_finite s m e =>
      if 0 <=? e then inject_Z (cond_Zopp s (Zpos m) * 2 ^ e)
      else Qmake (cond_Zopp s (Zpos m)) (Z.to_pos (2 ^ (- e)))
  | _ => 0%Q
  end.


End IEEE.

(** An array of shape [H, W, C] is the list of its rows, a row the list of
    its pixels, a pixel the list of its channel values. *)
Abbreviation ndarray A := (list (list (list A))).

Definition map_entries {A B} (f : A -> B) (img : ndarray A) : ndarray B :=
  map (map (map f)) img.

Fixpoint traverse {A B} (f : A -> res B) (l : list A) : res (list B) :=
  match l with
  | [] => Ok []
  | x :: r =>
      match f x with
      | Raise e => Raise e
      | Ok y =>
          match traverse f r with
          | Raise e => Raise e
          | Ok ys => Ok (y :: ys)
          end
      end
  end.

Definition RGB_MEAN : list spec_float :=
  [ IEEE.decimal64 12267891434 8;
    IEEE.decimal64 11666876762 8;
    IEEE.decimal64 10400698793 8 ].

(** Broadcasting an array of shape (3,) along the last axis: every pixel
    needs three channels, anything else is the ValueError of mismatched
    shapes. *)
Definition with_mean {A B} (f : A -> spec_float -> B) (pixel : list A)
  : res (list B) :=
  match pixel, RGB_MEAN with
  | [r; g; b], [mr; mg; mb] => Ok [f r mr; f g mg; f b mb]
  | _, _ => Raise ValueError
  end.

Definition broadcast_mean {A B} (f : A -> spec_float -> B) (img : ndarray A)
  : res (ndarray B) :=
  traverse (traverse (with_mean f)) img.

(** [img -= RGB_MEAN] on a float32 array: the difference is taken in
    float64 and stored back as float32. *)
Definition isub_mean (x mean : spec_float) : spec_float :=
  IEEE.f32_of_f64 (IEEE.sub64 (IEEE.f64_of_f32 x) mean).

(** [normalize_img_array(img)] with the default [dtype='float32'], on an
    array of integers. *)
Definition normalize_img_array (img : ndarray Z) : res (ndarray spec_float) :=
  let img := map_entries IEEE.f32_of_Z img in
  match broadcast_mean isub_mean img with
  | Raise e => Raise e
  | Ok img => Ok (map_entries (fun x => IEEE.div32 x (IEEE.f32_of_Z 255)) img)
  end.

(** [restore_img(img)] on a float32 array: the product stays float32, the
    sum with [RGB_MEAN] is float64. *)
Definition restore_img (img : ndarray spec_float) : res (ndarray Z) :=
  let img := map_entries (fun x => IEEE.mul32 x (IEEE.f32_of_Z 255)) img in
  match broadcast_mean (fun x mean => IEEE.add64 (IEEE.f64_of_f32 x) mean) img with
  | Raise e => Raise e
  | Ok img =>
      Ok (map_entries
            (fun x => IEEE.uint8_of_f64
                        (IEEE.clip64 (IEEE.f64_of_Z 0) (IEEE.f64_of_Z 255) x))
            img)
  end.

(** The two functions in sequence, as [imsave] after a normalisation. *)
Definition restore_normalized (img : ndarray Z) : res (ndarray Z) :=
  match normalize_img_array img with
  | Raise e => Raise e
  | Ok n => restore_img n
  end.

(** One entry of [normalize_img_array]: channel [c] of a pixel holding the
    integer [x]. *)
Definition normalize_entry (c : nat) (x : Z) : spec_float :=
  IEEE.div32 (isub_mean (IEEE.f32_of_Z x) (nth c RGB_MEAN S754_nan))
             (IEEE.f32_of_Z 255).

(** One entry of [restore_img]. *)
Definition restore_entry (c : nat) (y : spec_float) : Z :=
  IEEE.uint8_of_f64
    (IEEE.clip64 (IEEE.f64_of_Z 0) (IEEE.f64_of_Z 255)
       (IEEE.add64 (IEEE.f64_of_f32 (IEEE.mul32 y (IEEE.f32_of_Z 255)))
                   (nth c RGB_MEAN S754_nan))).



(** [a[i][j][c]] *)
Definition entry {A} (a : ndarray A) (i j c : nat) : option A :=
  match a !! i with
  | Some row => match row !! j with
                | Some pixel => pixel !! c
                | None => None
                end
  | None => None
  end.

(** An RGB image of 8-bit values: three channels per pixel, each an
    integer from 0 to 255. *)
Definition rgb_uint8 (img : ndarray Z) : Prop :=
  Forall (Forall (fun pixel => length pixel = 3%nat
                               /\ Forall (fun x => 0 <= x <= 255) pixel)) img.

Definition normalize_pixel (pixel : list Z) : list spec_float :=
  imap normalize_entry pixel.

Definition restore_pixel (pixel : list spec_float) : list Z :=
  imap restore_entry pixel.



Definition uint8_values : list Z := map Z.of_nat (seq 0 256).

(** The entries the round trip changes, per channel. *)
Definition lost (c : nat) : list Z :=
  filter (fun x => restore_entry c (normalize_entry c x) ≠ x) uint8_values.


(** ** imread *)

(** What a Python variable of [imread] can hold. *)
Inductive array :=
| U8 (a : ndarray Z)
| F32 (a : ndarray spec_float).

Inductive pyval :=
| PyNone
| PyArray (a : array).

(** [v.astype('float32')]: an attribute of [None] does not exist. *)
Definition astype_float32 (v : pyval) : res pyval :=
  match v with
  | PyNone => Raise AttributeError
  | PyArray (U8 a) => Ok (PyArray (F32 (map_entries IEEE.f32_of_Z a)))
  | PyArray (F32 a) => Ok (PyArray (F32 a))
  end.

Definition swap_channels {A} (pixel : list A) : res (list A) :=
  match pixel with
  | [b; g; r] => Ok [r; g; b]
  | _ => Raise Cv2Error
  end.

(** [cv2.cvtColor(im, cv2.COLOR_BGR2RGB)] *)
Definition cvtColor_BGR2RGB (im : array) : res array :=
  match im with
  | U8 a => match traverse (traverse swap_channels) a with
            | Ok a' => Ok (U8 a')
            | Raise e => Raise e
            end
  | F32 a => match traverse (traverse swap_channels) a with
             | Ok a' => Ok (F32 a')
             | Raise e => Raise e
             end
  end.

Definition channel {A} (c : nat) (a : ndarray A) : res (list (list A)) :=
  traverse (traverse (fun pixel : list A =>
                        match pixel !! c with
                        | Some x => Ok x
                        | None => Raise ValueError
                        end)) a.

(** [im.transpose((2, 0, 1))] of a three-channel array. *)
Definition transpose_201 (im : array) : res array :=
  match im with
  | U8 a => match traverse (fun c => channel c a) [0; 1; 2]%nat with
            | Ok a' => Ok (U8 a')
            | Raise e => Raise e
            end
  | F32 a => match traverse (fun c => channel c a) [0; 1; 2]%nat with
             | Ok a' => Ok (F32 a')
             | Raise e => Raise e
             end
  end.

Section Imread.
Context `{OS} `{Net}.

(** The decoders: [cv2.imread(fp, cv2.IMREAD_COLOR)] gives [None] for a
    file it cannot read; [np.asarray(Image.open(fp).convert('RGB'))]. *)
Variable cv2_imread : string -> fs -> option (ndarray Z).
Variable pil_open_rgb : string -> fs -> res (ndarray Z).

(** Line 285. *)
Definition imread_load (img_fp : string) : M pyval :=
  let* raw := query (cv2_imread img_fp) in
  lift (astype_float32 (match raw with
                        | None => PyNone
                        | Some a => PyArray (U8 a)
                        end)).

(** Lines 286-289. *)
Definition imread_convert (img_fp : string) (im : pyval) : M array :=
  match im with
  | PyNone =>
      let* a := query (pil_open_rgb img_fp) in
      match a with
      | Ok a => ret (U8 a)
      | Raise e => raise e
      end
  | PyArray a => lift (cvtColor_BGR2RGB a)
  end.

Definition imread (img_fp : string) : M array :=
  let* im := imread_load img_fp in
  let* im := imread_convert img_fp im in
  lift (transpose_201 im).

End Imread.

(** ** load_model_params *)

(** [k.split('.', maxsplit=1)] *)
Fixpoint split_dot_once (k : string) : list string :=
  match k with
  | EmptyString => [EmptyString]
  | String c r =>
      if Ascii.eqb c "."%char then [EmptyString; r]
      else match split_dot_once r with
           | x :: xs => String c x :: xs
           | [] => [String c EmptyString]
           end
  end.

(** [k.split('.', maxsplit=1)[1]] *)
Definition after_first_dot (k : string) : res string :=
  match split_dot_once k !! 1%nat with
  | Some s => Ok s
  | None => Raise IndexError
  end.

(** Every key of the state dict starts with ['model.']. *)
Definition all_model_keys {tensor : Type} (state_dict : gmap string tensor)
  : Prop :=
  forall k, is_Some (state_dict !! k) -> Py.startswith "model." k = true.

Section LoadModelParams.
Context `{OS}.

(** Tensors and modules belong to [torch]; a module is an object on the
    heap, addressed by its identity. *)
Variable tensor : Type.
Variable module : Type.

Definition heap : Type := nat -> module.

(** [torch.load(param_fp, map_location=device)]: the checkpoint, a dict
    whose entries of interest are dicts of tensors. *)
Variable torch_load : string -> string -> fs -> res (gmap string (gmap string tensor)).

(** [model.load_state_dict(state_dict)] updates the module in place and
    raises RuntimeError on keys it cannot match. *)
Variable load_state_dict : module -> gmap string tensor -> option string * module.

(** Lines 316-318: the loop over [checkpoint['state_dict'].items()]. *)
Fixpoint strip_first_field (items : list (string * tensor))
    (state_dict : gmap string tensor) : res (gmap string tensor) :=
  match items with
  | [] => Ok state_dict
  | (k, v) :: r =>
      match after_first_dot k with
      | Ok k' => strip_first_field r (<[k' := v]> state_dict)
      | Raise e => Raise e
      end
  end.

(** Lines 313-318: the dict handed to [load_state_dict]. *)
Definition converted_state_dict (checkpoint : gmap string (gmap string tensor))
  : res (gmap string tensor) :=
  match checkpoint !! "state_dict" with
  | None => Raise (KeyError "state_dict")
  | Some state_dict =>
      if forallb (fun param_name => Py.startswith "model." param_name)
                 (map fst (map_to_list state_dict))
      then strip_first_field (map_to_list state_dict) ∅
      else Ok state_dict
  end.

Definition load_model_params (model : nat) (param_fp device : string) (f : fs)
  : heap -> res nat * heap :=
  fun h =>
    match torch_load param_fp device f with
    | Raise e => (Raise e, h)
    | Ok checkpoint =>
        match converted_state_dict checkpoint with
        | Raise e => (Raise e, h)
        | Ok state_dict =>
            match load_state_dict (h model) state_dict with
            | (Some msg, m') =>
                (Raise (RuntimeError msg),
                 fun i => if Nat.eqb i model then m' else h i)
            | (None, m') =>
                (Ok model, fun i => if Nat.eqb i model then m' else h i)
            end
        end
    end.

End LoadModelParams.

(** ** set_logger *)

Definition NOTSET : Z := 0.
Definition INFO : Z := 20.

(** The module-level format string. *)
Definition fmt : string :=
  "[%(levelname)s %(asctime)s %(funcName)s:%(lineno)d] %(message)s ".

(** The [log_file] argument: [None], a [str] or a [pathlib.Path], the
    latter by its string form. *)
Inductive log_file_arg :=
| LogNone
| LogStr (s : string)
| LogPath (p : string).

(** [log_file and log_file != ''] *)
Definition log_file_given (log_file : log_file_arg) : bool :=
  match log_file with
  | LogNone => false
  | LogStr s => negb (String.eqb s "")
  | LogPath _ => true
  end.

Definition log_file_name (log_file : log_file_arg) : string :=
  match log_file with
  | LogNone => ""
  | LogStr s => s
  | LogPath p => p
  end.

Definition console_handler : handler :=
  {| h_kind := StreamHandler; h_level := NOTSET; h_format := Some fmt |}.

Section SetLogger.
Context `{OS} `{Net}.

(** The handler lines 57-59 build. *)
Definition file_handler (log_file : log_file_arg) (log_file_level : Z)
  : handler :=
  {| h_kind := FileHandler (abspath (log_file_name log_file));
     h_level := log_file_level;
     h_format := Some fmt |}.

Definition get_logger : M logger_state := fun w => (Ok (w_logger w), w).
Definition put_logger (l : logger_state) : M unit :=
  fun w => (Ok tt, set_logger_state w l).

(** [logger.addHandler(h)]: appended unless already there; a handler just
    created is a new object. *)
Definition add_handler (h : handler) : M unit :=
  let* l := get_logger in
  put_logger {| l_level := l_level l; l_handlers := l_handlers l ++ [h] |}.

Definition set_logger (log_file : log_file_arg) (log_level log_file_level : Z)
  : M logger_state :=
  let* l := get_logger in
  put_logger {| l_level := log_level; l_handlers := l_handlers l |} ;;
  let* l := get_logger in
  put_logger {| l_level := l_level l; l_handlers := [console_handler] |} ;;
  (if log_file_given log_file then
     let name := log_file_name log_file in
     let* present := query (path_exists (path_parent name)) in
     (if negb present then act (makedirs (path_parent name) false)
      else ret tt) ;;
     act (open_a name) ;;
     add_handler (file_handler log_file log_file_level)
   else ret tt) ;;
  get_logger.

(** The logger once lines 48-51 have run. *)
Definition console_only (log_level : Z) : logger_state :=
  {| l_level := log_level; l_handlers := [console_handler] |}.

Definition console_and_file (log_file : log_file_arg)
    (log_level log_file_level : Z) : logger_state :=
  {| l_level := log_level;
     l_handlers := [console_handler; file_handler log_file log_file_level] |}.

(** Lines 53-54 and 57 on the file system. *)
Definition open_log_file (log_file : log_file_arg) (f : fs)
  : option os_error * fs :=
  let name := log_file_name log_file in
  match (if path_exists (path_parent name) f then (None, f)
         else makedirs (path_parent name) false f) with
  | (Some e, f1) => (Some e, f1)
  | (None, f1) => open_a name f1
  end.

End SetLogger.

(** ** Laws of a file system

    What reading back a file that this process has just written gives,
    when nothing else writes to it in between. *)

Class OSLaws `{OS} : Prop := {
  (* open(p, 'wb') leaves an empty file *)
  open_wb_empty : forall p f f',
    open_wb p f = (None, f') -> open_rb p f' = inr [];
  (* f.write(data) puts the data after what the file holds *)
  write_appends : forall p data f f' content,
    open_rb p f = inr content ->
    write p data f = (None, f') ->
    open_rb p f' = inr (content ++ data);
  (* open(p, 'a') keeps what the file holds and creates it empty *)
  open_a_keeps : forall p f f',
    open_a p f = (None, f') ->
    open_rb p f' = inr (match open_rb p f with
                        | inr content => content
                        | inl _ => []
                        end)
}.

(** ** imsave *)

(** [x.clip(0, 255)] on a float32 entry. *)
Definition clip32 (x : spec_float) : spec_float :=
  if SFltb x (IEEE.f32_of_Z 0) then IEEE.f32_of_Z 0
  else if SFltb (IEEE.f32_of_Z 255) x then IEEE.f32_of_Z 255
  else x.

(** Every pixel has three channels: the array has shape H x W x 3. *)
Definition has_three_channels (image : array) : bool :=
  match image with
  | U8 a => forallb (forallb (fun px => Nat.eqb (length px) 3)) a
  | F32 a => forallb (forallb (fun px => Nat.eqb (length px) 3)) a
  end.

(** [restore_img] on either dtype.  On a uint8 array the product with the
    Python integer 255 stays uint8 and wraps around; the sum with
    [RGB_MEAN] is float64 on both. *)
Definition restore_img_array (image : array) : res (ndarray Z) :=
  match image with
  | F32 a => restore_img a
  | U8 a =>
      match broadcast_mean
              (fun x mean => IEEE.add64 (IEEE.f64_of_Z ((x * 255) mod 256)) mean)
              a with
      | Raise e => Raise e
      | Ok img =>
          Ok (map_entries
                (fun x => IEEE.uint8_of_f64
                            (IEEE.clip64 (IEEE.f64_of_Z 0) (IEEE.f64_of_Z 255) x))
                img)
      end
  end.

(** Lines 304-305: an array that is not uint8 is clipped and cast. *)
Definition to_uint8 (image : array) : ndarray Z :=
  match image with
  | U8 a => a
  | F32 a => map_entries (fun x => IEEE.trunc (clip32 x) mod 256) a
  end.

(** [cv2.cvtColor(image, cv2.COLOR_RGB2BGR)] on three channels: the same
    exchange of the first and third channel as [COLOR_BGR2RGB]. *)
Definition cvtColor_RGB2BGR (image : ndarray Z) : res (ndarray Z) :=
  traverse (traverse swap_channels) image.

Section Imsave.
Context `{OS} `{Net}.

(** The encoder: [cv2.imwrite(fp, image)] writes the file and returns
    whether it could, or raises. *)
Variable cv2_imwrite : string -> ndarray Z -> fs -> res bool * fs.

Definition imwrite (fp : string) (image : ndarray Z) : M bool :=
  fun w => let '(r, f) := cv2_imwrite fp image (w_fs w) in (r, set_fs w f).

Definition imsave_rgb (image : array) (fp : string) (normalized : bool)
  : M unit :=
  let* image :=
    (if normalized then
       let* restored := lift (restore_img_array image) in ret (U8 restored)
     else ret image) in
  let image := to_uint8 image in
  let* image := lift (cvtColor_RGB2BGR image) in
  let* _ := imwrite fp image in
  ret tt.

(** [imsave(image, fp, normalized)] on an array of shape H x W x 3, the
    shape its docstring asks for.  Arrays of another shape (one channel,
    which NumPy broadcasts against RGB_MEAN, or four, which OpenCV
    converts too) are not described: [None]. *)
Definition imsave (image : array) (fp : string) (normalized : bool)
  : option (M unit) :=
  if has_three_channels image then Some (imsave_rgb image fp normalized)
  else None.

End Imsave.

(** ** model_fn_prefix *)

Module PyFormat.

Definition digit_char (d : Z) : ascii := ascii_of_nat (48 + Z.to_nat d).

(** The decimal digits of a natural number, most significant first. *)
Fixpoint decimal_fuel (fuel : nat) (n : Z) : list ascii :=
  match fuel with
  | O => []
  | S fuel' =>
      if n <? 10 then [digit_char n]
      else decimal_fuel fuel' (n / 10) ++ [digit_char (n mod 10)]
  end.

Definition decimal (n : Z) : list ascii :=
  decimal_fuel (S (Z.to_nat (Z.log2 n))) n.

Definition zero : ascii := "0"%char.

(** ['%04d' % n]: at least four characters, the sign among them, zeros
    between the sign and the digits. *)
Definition d04 (n : Z) : string :=
  let ds := decimal (Z.abs n) in
  if n <? 0
  then String "-" (string_of_list_ascii (repeat zero (3 - length ds) ++ ds))
  else string_of_list_ascii (repeat zero (4 - length ds) ++ ds).

End PyFormat.

Section ModelFnPrefix.

(** [MODEL_VERSION] of [cnstd.consts]. *)
Variable MODEL_VERSION : string.

Definition model_fn_prefix (backbone : string) (epoch : Z) : string :=
  "cnstd-v" +:+ MODEL_VERSION +:+ "-" +:+ backbone +:+ "-"
  +:+ PyFormat.d04 epoch +:+ ".params".

End ModelFnPrefix.

(** ** data_dir_default and data_dir *)

(** [os.path.join(None, 'cnstd')] *)
Inductive type_error := TypeError.

Section DataDir.
Context `{OS}.

(** [platform.system()], [os.environ], and [os.path.join] as it is on
    Windows, where [os.path] is [ntpath]. *)
Variable system : string.
Variable environ : gmap string string.
Variable nt_join : string -> string -> string.

Definition data_dir_default : type_error + string :=
  if String.eqb system "Windows" then
    match environ !! "APPDATA" with
    | None => inl TypeError
    | Some appdata => inr (nt_join appdata "cnstd")
    end
  else inr (join (expanduser "~") ".cnstd").

(** The default is an argument of [os.getenv]: it is computed before the
    variable is looked up. *)
Definition data_dir : type_error + string :=
  match data_dir_default with
  | inl e => inl e
  | inr default =>
      inr (match environ !! "CNOCR_HOME" with
           | Some home => home
           | None => default
           end)
  end.

End DataDir.
(** ** A POSIX instance of the environment

    A tree of directories and regular files addressed by normalised
    absolute paths, with [posixpath]'s string functions.  Symbolic links,
    permissions and devices are not represented. *)

Module Posix.

Definition slash : ascii := "/"%char.

(** [s.split('/')] *)
Fixpoint split_slash (s : string) : list string :=
  match s with
  | EmptyString => [EmptyString]
  | String c r =>
      if Ascii.eqb c slash then EmptyString :: split_slash r
      else match split_slash r with
           | [] => [String c EmptyString]
           | x :: xs => String c x :: xs
           end
  end.

(** ['/'.join(l)] *)
Fixpoint join_slash (l : list string) : string :=
  match l with
  | [] => ""
  | [x] => x
  | x :: r => x +:+ "/" +:+ join_slash r
  end.

Definition ends_with_slash (s : string) : bool :=
  match rev (list_ascii_of_string s) with
  | c :: _ => Ascii.eqb c slash
  | [] => false
  end.

Fixpoint drop_slashes (cs : list ascii) : list ascii :=
  match cs with
  | c :: r => if Ascii.eqb c slash then drop_slashes r else cs
  | [] => []
  end.

(** [s.rstrip('/')] *)
Definition rstrip_slash (s : string) : string :=
  string_of_list_ascii (rev (drop_slashes (rev (list_ascii_of_string s)))).

Definition all_slashes (s : string) : bool :=
  forallb (fun c => Ascii.eqb c slash) (list_ascii_of_string s).

(** [posixpath.split]: the head up to the last slash, without trailing
    slashes unless it is the root, and the tail after it. *)
Definition split (p : string) : string * string :=
  let tail := Py.last_field slash p in
  let head := substring 0 (String.length p - String.length tail) p in
  (if all_slashes head then head else rstrip_slash head, tail).

Definition posix_dirname (p : string) : string := fst (split p).
Definition posix_basename (p : string) : string := snd (split p).

Definition posix_join (a b : string) : string :=
  if String.prefix "/" b then b
  else if String.eqb a "" || ends_with_slash a then a +:+ b
  else a +:+ "/" +:+ b.

(** The loop of [posixpath.normpath] over the path's components. *)
Fixpoint norm_comps (rooted : bool) (acc : list string) (comps : list string)
  : list string :=
  match comps with
  | [] => acc
  | c :: r =>
      if String.eqb c "" || String.eqb c "." then norm_comps rooted acc r
      else if negb (String.eqb c "..") then norm_comps rooted (acc ++ [c]) r
      else match rev acc with
           | [] => if rooted then norm_comps rooted acc r
                   else norm_comps rooted (acc ++ [c]) r
           | l :: _ =>
               if String.eqb l ".." then norm_comps rooted (acc ++ [c]) r
               else norm_comps rooted (removelast acc) r
           end
  end.

Definition normpath (p : string) : string :=
  if String.eqb p "" then "."
  else
    let rooted := String.prefix "/" p in
    let lead := if rooted
                then (if String.prefix "//" p && negb (String.prefix "///" p)
                      then "//" else "/")
                else "" in
    let r := lead +:+ join_slash (norm_comps rooted [] (split_slash p)) in
    if String.eqb r "" then "." else r.

Record env := {
  cwd : string;                            (* os.getcwd(), absolute *)
  env_home : option string;                (* os.environ.get('HOME') *)
  pw_self : option string;                 (* pwd.getpwuid(os.getuid()).pw_dir *)
  pw_name : string -> option string;       (* pwd.getpwnam(name).pw_dir *)
  unzip : list byte -> zip_error + list (string * list byte)
                        (* the members of an archive, or zipfile's refusal *)
}.

Definition posix_abspath (e : env) (p : string) : string :=
  normpath (if String.prefix "/" p then p else posix_join (cwd e) p).

Definition posix_expanduser (e : env) (path : string) : string :=
  if negb (String.prefix "~" path) then path
  else
    let name_rest := substring 1 (String.length path - 1) path in
    let i := match index 0 "/" name_rest with
             | Some k => S k
             | None => String.length path
             end in
    let userhome :=
      if Nat.eqb i 1
      then match env_home e with
           | Some h => Some h
           | None => pw_self e
           end
      else pw_name e (substring 1 (i - 1) path) in
    match userhome with
    | None => path
    | Some h =>
        let r := rstrip_slash h +:+ substring i (String.length path - i) path in
        if String.eqb r "" then "/" else r
    end.

(** [str(pathlib.PurePosixPath(p).parent)] *)
Definition posix_parent (p : string) : string :=
  let parts := filter (fun c => negb (String.eqb c "" || String.eqb c "."))
                      (split_slash p) in
  let anchor := if String.prefix "/" p
                then (if String.prefix "//" p && negb (String.prefix "///" p)
                      then "//" else "/")
                else "" in
  let r := anchor +:+ join_slash (removelast parts) in
  if String.eqb r "" then "." else r.

Inductive node :=
| File (content : list byte)
| Dir.

(** The tree: the nodes in order of creation, each under the components
    of its absolute path. *)
Definition tree := list (list string * node).

Fixpoint lookup_node (k : list string) (t : tree) : option node :=
  match t with
  | [] => None
  | (k', n) :: r => if decide (k' = k) then Some n else lookup_node k r
  end.

Fixpoint insert_node (k : list string) (n : node) (t : tree) : tree :=
  match t with
  | [] => [(k, n)]
  | (k', n') :: r =>
      if decide (k' = k) then (k, n) :: r else (k', n') :: insert_node k n r
  end.

Fixpoint delete_node (k : list string) (t : tree) : tree :=
  match t with
  | [] => []
  | (k', n') :: r =>
      if decide (k' = k) then r else (k', n') :: delete_node k r
  end.

(** The key of a path: the components of its absolute normal form.  The
    empty path names nothing. *)
Definition key (e : env) (p : string) : option (list string) :=
  if String.eqb p "" then None
  else Some (norm_comps true []
               (split_slash (if String.prefix "/" p then p
                             else posix_join (cwd e) p))).

(** Walk down from the directory [pre]. *)
Fixpoint stat_from (t : tree) (pre rest : list string) : os_error + node :=
  match rest with
  | [] => inr Dir
  | c :: rest' =>
      match lookup_node (pre ++ [c]) t with
      | None => inl FileNotFoundError
      | Some (File b) =>
          match rest' with
          | [] => inr (File b)
          | _ => inl NotADirectoryError
          end
      | Some Dir => stat_from t (pre ++ [c]) rest'
      end
  end.

Definition stat (e : env) (p : string) (t : tree) : os_error + node :=
  match key e p with
  | None => inl FileNotFoundError
  | Some k =>
      match stat_from t [] k with
      | inr (File b) =>
          if ends_with_slash p then inl NotADirectoryError else inr (File b)
      | r => r
      end
  end.

Definition posix_exists (e : env) (p : string) (t : tree) : bool :=
  match stat e p t with inr _ => true | inl _ => false end.

Definition posix_isdir (e : env) (p : string) (t : tree) : bool :=
  match stat e p t with inr Dir => true | _ => false end.

Fixpoint makedirs_from (t : tree) (pre rest : list string) (exist_ok : bool)
  : option os_error * tree :=
  match rest with
  | [] => (if exist_ok then None else Some FileExistsError, t)
  | c :: rest' =>
      let k := pre ++ [c] in
      match lookup_node k t, rest' with
      | Some Dir, [] => (if exist_ok then None else Some FileExistsError, t)
      | Some Dir, _ => makedirs_from t k rest' exist_ok
      | Some (File _), [] => (Some FileExistsError, t)
      | Some (File _), _ => (Some NotADirectoryError, t)
      | None, [] => (None, insert_node k Dir t)
      | None, _ => makedirs_from (insert_node k Dir t) k rest' exist_ok
      end
  end.

Definition posix_makedirs (e : env) (name : string) (exist_ok : bool) (t : tree)
  : option os_error * tree :=
  match key e name with
  | None => (Some FileNotFoundError, t)
  | Some k => makedirs_from t [] k exist_ok
  end.

Definition posix_remove (e : env) (p : string) (t : tree)
  : option os_error * tree :=
  match key e p, stat e p t with
  | Some k, inr (File _) => (None, delete_node k t)
  | _, inr Dir => (Some IsADirectoryError, t)
  | _, inl err => (Some err, t)
  | None, _ => (Some FileNotFoundError, t)
  end.

Definition posix_open_rb (e : env) (p : string) (t : tree)
  : os_error + list byte :=
  match stat e p t with
  | inr (File b) => inr b
  | inr Dir => inl IsADirectoryError
  | inl err => inl err
  end.

(** Create or replace the regular file at [p] with [content]; the parent
    must be an existing directory. *)
Definition put (e : env) (p : string) (content : option (list byte))
    (upd : list byte -> list byte) (t : tree) : option os_error * tree :=
  match key e p with
  | None => (Some FileNotFoundError, t)
  | Some k =>
      match stat_from t [] k with
      | inr Dir => (Some IsADirectoryError, t)
      | inr (File b) =>
          if ends_with_slash p then (Some NotADirectoryError, t)
          else (None, insert_node k (File (upd b)) t)
      | inl FileNotFoundError =>
          match stat_from t [] (removelast k), content with
          | inr Dir, Some c =>
              if ends_with_slash p then (Some IsADirectoryError, t)
              else (None, insert_node k (File c) t)
          | inr Dir, None => (Some FileNotFoundError, t)
          | inr (File _), _ => (Some NotADirectoryError, t)
          | inl err, _ => (Some err, t)
          end
      | inl err => (Some err, t)
      end
  end.

Definition posix_open_wb (e : env) (p : string) :=
  put e p (Some []) (fun _ => []).
Definition posix_write (e : env) (p : string) (data : list byte) :=
  put e p None (fun b => b ++ data).
Definition posix_open_a (e : env) (p : string) :=
  put e p (Some []) (fun b => b).

(** UTF-8 well-formedness (RFC 3629), on byte values. *)
Definition cont (b : Z) : bool := (0x80 <=? b) && (b <=? 0xBF).

Fixpoint utf8_ok (fuel : nat) (bs : list Z) : bool :=
  match fuel with
  | O => match bs with [] => true | _ => false end
  | S fuel' =>
      match bs with
      | [] => true
      | b0 :: r =>
          if b0 <? 0x80 then utf8_ok fuel' r
          else if (0xC2 <=? b0) && (b0 <=? 0xDF) then
            match r with
            | b1 :: r' => cont b1 && utf8_ok fuel' r'
            | _ => false
            end
          else if (0xE0 <=? b0) && (b0 <=? 0xEF) then
            match r with
            | b1 :: b2 :: r' =>
                cont b1 && cont b2
                && (if b0 =? 0xE0 then 0xA0 <=? b1 else true)
                && (if b0 =? 0xED then b1 <=? 0x9F else true)
                && utf8_ok fuel' r'
            | _ => false
            end
          else if (0xF0 <=? b0) && (b0 <=? 0xF4) then
            match r with
            | b1 :: b2 :: b3 :: r' =>
                cont b1 && cont b2 && cont b3
                && (if b0 =? 0xF0 then 0x90 <=? b1 else true)
                && (if b0 =? 0xF4 then b1 <=? 0x8F else true)
                && utf8_ok fuel' r'
            | _ => false
            end
          else false
      end
  end.

(** Universal newlines: CR LF and a lone CR both read as LF. *)
Fixpoint translate_newlines (cs : list ascii) : list ascii :=
  match cs with
  | [] => []
  | c :: r =>
      if Ascii.eqb c "013"%char then
        match r with
        | c' :: r' =>
            if Ascii.eqb c' "010"%char then "010"%char :: translate_newlines r'
            else "010"%char :: translate_newlines r
        | [] => ["010"%char]
        end
      else c :: translate_newlines r
  end.

(** A Python [str] is represented by its UTF-8 encoding. *)
Definition posix_open_text (e : env) (p : string) (t : tree)
  : text_error + string :=
  match posix_open_rb e p t with
  | inl err => inl (TextOS err)
  | inr bs =>
      if utf8_ok (length bs) (map SHA1.byteZ bs)
      then inr (string_of_list_ascii
                  (translate_newlines (map ascii_of_byte bs)))
      else inl TextDecode
  end.

(** Write the members of the archive below [dest], creating the
    directories of each member first. *)
Fixpoint extract_members (e : env) (dest : string)
    (ms : list (string * list byte)) (t : tree) : option zip_error * tree :=
  match ms with
  | [] => (None, t)
  | (name, data) :: r =>
      let target := posix_join dest name in
      match posix_makedirs e (posix_dirname target) true t with
      | (Some err, t') => (Some (ZipOS err), t')
      | (None, t') =>
          match put e target (Some data) (fun _ => data) t' with
          | (Some err, t'') => (Some (ZipOS err), t'')
          | (None, t'') => extract_members e dest r t''
          end
      end
  end.

Definition posix_extractall (e : env) (zip dest : string) (t : tree)
  : option zip_error * tree :=
  match posix_open_rb e zip t with
  | inl err => (Some (ZipOS err), t)
  | inr bs =>
      match unzip e bs with
      | inl refusal => (Some refusal, t)
      | inr ms => extract_members e dest ms t
      end
  end.

Definition os (e : env) : OS := {|
  fs := tree;
  expanduser := posix_expanduser e;
  abspath := posix_abspath e;
  dirname := posix_dirname;
  basename := posix_basename;
  join := posix_join;
  path_exists := posix_exists e;
  isdir := posix_isdir e;
  path_parent := posix_parent;
  makedirs := posix_makedirs e;
  remove := posix_remove e;
  open_rb := posix_open_rb e;
  open_text := posix_open_text e;
  open_wb := posix_open_wb e;
  write := posix_write e;
  open_a := posix_open_a e;
  extractall := posix_extractall e
|}.

(** A static web: what each URL answers; unknown hosts refuse the
    connection. *)
Definition web (pages : gmap string response) : Net := {|
  net := unit;
  http_get := fun url n =>
    (match pages !! url with
     | Some r => inr r
     | None => inl ConnectionError
     end, n)
|}.

End Posix.

(** ** A concrete world for examples *)

Module Demo.

(** The 22-byte archive with no members; archives with members are not
    decoded by this stand-in for [zipfile]. *)
Definition empty_zip : list byte :=
  bytes_of_string "PK" ++ [Byte.x05; Byte.x06] ++ repeat Byte.x00 18.

Definition env : Posix.env := {|
  Posix.cwd := "/work";
  Posix.env_home := Some "/home/u";
  Posix.pw_self := Some "/home/u";
  Posix.pw_name := fun _ => None;
  Posix.unzip := fun bs =>
    if decide (map Byte.to_N bs = map Byte.to_N empty_zip) then inr []
    else inl ZipBad
|}.

Definition os : OS := Posix.os env.

Definition tree0 : Posix.tree :=
    [ (["work"], Posix.Dir);
      (["home"], Posix.Dir);
      (["home"; "u"], Posix.Dir);
      (["data"], Posix.Dir);
      (["data"; "abc.bin"], Posix.File (bytes_of_string "abc"));
      (["data"; "charset.txt"],
         Posix.File (bytes_of_string ("a" +:+ String "010" ("b" +:+ String "010" "c"))));
      (["data"; "twice.txt"],
         Posix.File (bytes_of_string ("a" +:+ String "010" ("b" +:+ String "010" "a"))));
      (["data"; "models"], Posix.Dir);
      (["data"; "models"; "db.zip"], Posix.File empty_zip);
      (["home"; "u"; "db.zip"], Posix.File empty_zip) ].

Definition page (status : Z) (len : option string) (body : list (list byte))
  : response :=
  {| status_code := status; content_length := len; chunks := body;
     stream_error := None |}.

Definition pages : gmap string response :=
  list_to_map
    [ ("http://host/abc.bin", page 200 (Some "3") [bytes_of_string "abc"]);
      ("http://host/db.zip", page 200 None [empty_zip]);
      ("http://host/gone.zip", page 404 None []);
      ("http://host/", page 200 None [bytes_of_string "index"]) ].

Definition web : Net := Posix.web pages.

(** A registry in the shape of [AVAILABLE_MODELS]. *)
Definition models : gmap string (string * string) :=
  {[ "db" := ("1.0.0", "http://host/db.zip") ]}.

Definition w0 : @world os web :=
  {| w_fs := tree0 : @fs os; w_net := tt : @net web; w_requests := [];
     w_stdout := [];
     w_logger := {| l_level := 30; l_handlers := [] |} |}.

(** A checkpoint as [torch.load] returns it, with integers for tensors. *)
Definition state_dict : gmap string Z :=
  {[ "model.a.w" := 1; "model.b" := 2 ]}.

Definition checkpoint : gmap string (gmap string Z) :=
  {[ "state_dict" := state_dict ]}.

End Demo.

(** ** A second web for examples: a page with a broken content-length *)

Module Scenario.

Definition pages : gmap string response :=
  list_to_map
    [ ("http://host/abc.bin",
       Demo.page 200 (Some "3") [bytes_of_string "ab"; []; bytes_of_string "c"]);
      ("http://host/nolen.bin",
       Demo.page 200 None [bytes_of_string "ab"; []; bytes_of_string "c"]);
      ("http://host/bad.bin",
       Demo.page 200 (Some "3 bytes") [bytes_of_string "abc"]);
      ("http://host/gone.zip", Demo.page 404 None []) ].

Definition web : Net := Posix.web pages.

Definition w0 : @world Demo.os web :=
  {| w_fs := Demo.tree0 : @fs Demo.os; w_net := tt : @net web;
     w_requests := []; w_stdout := [];
     w_logger := {| l_level := 30; l_handlers := [] |} |}.

(** The charset file of [Demo.tree0] once more, with a final newline. *)
Definition tree1 : Posix.tree :=
  (["data"; "charset_nl.txt"],
     Posix.File (bytes_of_string
       ("a" +:+ String "010" ("b" +:+ String "010" ("c" +:+ String "010" "")))))
  :: Demo.tree0.

Definition w1 : @world Demo.os Demo.web :=
  {| w_fs := tree1 : @fs Demo.os; w_net := tt : @net Demo.web;
     w_requests := []; w_stdout := [];
     w_logger := {| l_level := 30; l_handlers := [] |} |}.

(** A zipfile built without the compression method of the archives at
    hand: it refuses them all. *)
Definition strict_env : Posix.env := {|
  Posix.cwd := "/work";
  Posix.env_home := Some "/home/u";
  Posix.pw_self := Some "/home/u";
  Posix.pw_name := fun _ => None;
  Posix.unzip := fun _ =>
    inl (ZipNotImplemented "That compression method is not supported")
|}.

Definition strict_os : OS := Posix.os strict_env.

Definition w2 : @world strict_os Demo.web :=
  {| w_fs := Demo.tree0 : @fs strict_os; w_net := tt : @net Demo.web;
     w_requests := []; w_stdout := [];
     w_logger := {| l_level := 30; l_handlers := [] |} |}.

End Scenario.
(** ** SHA-1 test vectors *)

Example sha1_abc :
  SHA1.hexdigest (SHA1.update SHA1.new (bytes_of_string "abc"))
  = "a9993e364706816aba3e25717850c26c9cd0d89d".
Proof. vm_compute. reflexivity. Qed.

Example sha1_empty :
  SHA1.hexdigest SHA1.new = "da39a3ee5e6b4b0d3255bfef95601890afd80709".
Proof. vm_compute. reflexivity. Qed.

Example sha1_two_blocks :
  SHA1.hexdigest (SHA1.update SHA1.new (bytes_of_string
    "abcdbcdecdefdefgefghfghighijhijkijkljklmklmnlmnomnopnopq"))
  = "84983e441c3bd26ebaae4aa1f95129e5e54670f1".
Proof. vm_compute. reflexivity. Qed.
(** ** Properties of check_sha1 *)

Lemma hex32_length w : String.length (SHA1.hex32 w) = 8%nat.
Proof. reflexivity. Qed.

Lemma string_app_length (a b : string) :
  String.length (a +:+ b) = (String.length a + String.length b)%nat.
Proof. induction a as [|c a IH]; simpl; [done|]. by rewrite IH. Qed.

Lemma sha1_hex_length content : String.length (sha1_hex content) = 40%nat.
Proof.
  unfold sha1_hex, SHA1.hex.
  rewrite !string_app_length, !hex32_length. reflexivity.
Qed.

Lemma read_loop_feeds_bounded (n : nat) :
  forall h o, (length h < n)%nat -> SHA1.fed (read_loop h o) = SHA1.fed o ++ h.
Proof.
  induction n as [|n IH]; intros h o Hn; [lia|].
  rewrite read_loop_equation_1. unfold read_loop_unfold_clause_1.
  set (i := inspect (take_bytes CHUNK h)). destruct i as [[|d ds] E]; simpl.
  - destruct h as [|b r]; [by rewrite app_nil_r|]. discriminate E.
  - pose proof (drop_bytes_shrinks _ _ _ _ E) as Hlt.
    rewrite IH by lia. simpl.
    rewrite <- E, <- app_assoc. by rewrite take_drop_bytes.
Qed.

Lemma read_loop_feeds h o : SHA1.fed (read_loop h o) = SHA1.fed o ++ h.
Proof. apply (read_loop_feeds_bounded (S (length h))). lia. Qed.

Lemma read_loop_whole content :
  SHA1.hexdigest (read_loop content SHA1.new) = sha1_hex content.
Proof.
  unfold SHA1.hexdigest, sha1_hex. rewrite read_loop_feeds. reflexivity.
Qed.

Lemma slice0_all s : Py.slice0 (String.length s) s = s.
Proof.
  unfold Py.slice0. induction s as [|c s IH]; simpl; [done|]. by rewrite IH.
Qed.

Lemma prefix_shorter p s :
  String.prefix p s = true -> (String.length p <= String.length s)%nat.
Proof.
  revert s. induction p as [|c p IH]; intros s.
  - simpl. lia.
  - destruct s as [|c' s]; simpl; [discriminate|].
    destruct (ascii_dec c c'); [|discriminate].
    intros Hp. apply IH in Hp. lia.
Qed.

Lemma prefix_slice p s :
  String.prefix p s = true <-> Py.slice0 (String.length p) s = p.
Proof. unfold Py.slice0. apply prefix_correct. Qed.

(** Comparing two strings on the length of the shorter one is asking
    whether one of them starts the other. *)
Lemma slice_min_eqb a b :
  String.eqb (Py.slice0 (Nat.min (String.length a) (String.length b)) a)
             (Py.slice0 (Nat.min (String.length a) (String.length b)) b) = true
  <-> String.prefix b a = true \/ String.prefix a b = true.
Proof.
  rewrite String.eqb_eq.
  destruct (Nat.le_ge_cases (String.length a) (String.length b)) as [L|L].
  - rewrite Nat.min_l by done. rewrite slice0_all. split.
    + intros E. right. apply prefix_slice. done.
    + intros [P|P].
      * pose proof (prefix_shorter _ _ P) as L'.
        assert (String.length b = String.length a) as El by lia.
        apply prefix_slice in P. rewrite El, slice0_all in P.
        subst. by rewrite slice0_all.
      * apply prefix_slice in P. done.
  - rewrite Nat.min_r by done. rewrite slice0_all. split.
    + intros E. left. apply prefix_slice. done.
    + intros [P|P].
      * apply prefix_slice in P. done.
      * pose proof (prefix_shorter _ _ P) as L'.
        assert (String.length a = String.length b) as El by lia.
        apply prefix_slice in P. rewrite El, slice0_all in P.
        subst. by rewrite slice0_all.
Qed.

Lemma prefix_same_length a b :
  String.length a = String.length b ->
  (String.prefix b a = true \/ String.prefix a b = true) <-> a = b.
Proof.
  intros El. split.
  - intros [P|P]; apply prefix_slice in P.
    + rewrite <- El, slice0_all in P. done.
    + rewrite El, slice0_all in P. done.
  - intros ->. left. apply prefix_slice, slice0_all.
Qed.

Section CheckSha1Facts.
Context `{OS} `{Net}.

(** C1, as the code has it: on a readable file check_sha1 returns, leaves
    the world as it was, and answers True exactly when the expected hash
    and the hexadecimal SHA-1 digest of the whole content agree on the
    length of the shorter of the two, that is when one starts the other;
    for an expected hash of 40 characters that is equality. *)
Theorem check_sha1_prefix (w : world) (filename sha1_hash : string)
    (content : list byte) :
  open_rb filename (w_fs w) = inr content ->
  exists b : bool,
    check_sha1 filename sha1_hash w = (Ok b, w)
    /\ (b = true <->
        String.prefix sha1_hash (sha1_hex content) = true
        \/ String.prefix (sha1_hex content) sha1_hash = true)
    /\ (String.length sha1_hash = 40%nat ->
        (b = true <-> sha1_hex content = sha1_hash)).
Proof.
  intros Hopen. unfold check_sha1. rewrite Hopen.
  eexists. split; [reflexivity|].
  rewrite read_loop_whole. split.
  - apply slice_min_eqb.
  - intros L. rewrite slice_min_eqb. apply prefix_same_length.
    by rewrite sha1_hex_length.
Qed.

(** An unreadable file makes check_sha1 raise the error of [open]. *)
Lemma check_sha1_unreadable (w : world) filename sha1_hash e :
  open_rb filename (w_fs w) = inl e ->
  check_sha1 filename sha1_hash w = (Raise (OSError e), w).
Proof. intros Hopen. unfold check_sha1. by rewrite Hopen. Qed.

End CheckSha1Facts.
(** C1 at a concrete input: the file holds "abc" and the expected hash is
    its full digest. *)
Lemma check_sha1_prefix_witness :
  exists b : bool,
    @check_sha1 Demo.os Demo.web "/data/abc.bin"
      "a9993e364706816aba3e25717850c26c9cd0d89d" Demo.w0 = (Ok b, Demo.w0)
    /\ (b = true <->
        String.prefix "a9993e364706816aba3e25717850c26c9cd0d89d"
          (sha1_hex (bytes_of_string "abc")) = true
        \/ String.prefix (sha1_hex (bytes_of_string "abc"))
             "a9993e364706816aba3e25717850c26c9cd0d89d" = true)
    /\ (String.length "a9993e364706816aba3e25717850c26c9cd0d89d" = 40%nat ->
        (b = true <-> sha1_hex (bytes_of_string "abc")
                      = "a9993e364706816aba3e25717850c26c9cd0d89d")).
Proof.
  apply (@check_sha1_prefix Demo.os Demo.web Demo.w0 "/data/abc.bin"
           "a9993e364706816aba3e25717850c26c9cd0d89d" (bytes_of_string "abc")).
  vm_compute. reflexivity.
Defined.

(** C1 fails as stated: a six-character expected hash that starts the
    digest is accepted although it is not the digest. *)
Lemma check_sha1_accepts_truncated_hash :
  @open_rb Demo.os "/data/abc.bin" (w_fs Demo.w0)
    = inr (bytes_of_string "abc")
  /\ fst (@check_sha1 Demo.os Demo.web "/data/abc.bin" "a9993e" Demo.w0)
     = Ok true
  /\ fst (@check_sha1 Demo.os Demo.web "/data/abc.bin" "" Demo.w0)
     = Ok true
  /\ sha1_hex (bytes_of_string "abc")
     = "a9993e364706816aba3e25717850c26c9cd0d89d"
  /\ sha1_hex (bytes_of_string "abc") <> "a9993e".
Proof.
  repeat split; try (vm_compute; reflexivity).
  vm_compute. discriminate.
Qed.


(** ** Properties of download *)

Section DownloadFacts.
Context `{OS} `{Net}.

Lemma bind_unfold {A B} (m : M A) (k : A -> M B) (w : world) :
  bind m k w = match m w with
               | (Ok a, w') => k a w'
               | (Raise e, w') => (Raise e, w')
               end.
Proof. reflexivity. Qed.

Lemma act_raises (a : fs -> option os_error * fs) w e w' :
  act a w = (Raise e, w') -> propagated e.
Proof.
  unfold act. destruct (a (w_fs w)) as [[err|] f]; intros E; inversion E.
  exact I.
Qed.

Lemma check_sha1_frame filename sha1_hash (w : world) :
  snd (check_sha1 filename sha1_hash w) = w.
Proof. unfold check_sha1. by destruct (open_rb filename (w_fs w)). Qed.

Lemma check_sha1_raises filename sha1_hash (w : world) e :
  fst (check_sha1 filename sha1_hash w) = Raise e -> propagated e.
Proof.
  unfold check_sha1. destruct (open_rb filename (w_fs w)); simpl; intros E;
    inversion E. exact I.
Qed.

Lemma check_sha1_pair filename sha1_hash (w : world) :
  check_sha1 filename sha1_hash w = (fst (check_sha1 filename sha1_hash w), w).
Proof.
  rewrite <- (check_sha1_frame filename sha1_hash w) at 3.
  by destruct (check_sha1 filename sha1_hash w).
Qed.

Lemma download_needed_fetch fname overwrite sha1_hash w :
  fetch_decided fname overwrite sha1_hash w ->
  download_needed fname overwrite sha1_hash w = (Ok true, w).
Proof.
  unfold download_needed. intros [-> | [Hex | (h & -> & Ht & Hc)]]; [done| |].
  - destruct overwrite; [done|]. rewrite bind_unfold. unfold query.
    cbv beta iota. by rewrite Hex.
  - destruct overwrite; [done|]. rewrite bind_unfold. unfold query.
    cbv beta iota. destruct (path_exists fname (w_fs w)); [|done].
    cbv beta iota delta [negb]. rewrite Ht.
    rewrite bind_unfold, check_sha1_pair, Hc. reflexivity.
Qed.

Lemma download_needed_keep fname sha1_hash w :
  cache_hit fname sha1_hash w ->
  download_needed fname false sha1_hash w = (Ok false, w).
Proof.
  intros [Hex Hs]. unfold download_needed. rewrite bind_unfold.
  unfold query. cbv beta iota. rewrite Hex. cbv beta iota delta [negb].
  destruct Hs as [Ht | (h & -> & Hc)].
  - destruct sha1_hash; [|done]. by rewrite Ht.
  - destruct (Py.truthy (Some h)); [|done].
    rewrite bind_unfold, check_sha1_pair, Hc. reflexivity.
Qed.

(** C2: with [overwrite=False], a destination that exists and either no
    expected hash or one that check_sha1 accepts, download returns the
    destination path and leaves the whole world as it was: no request is
    sent, nothing is printed, no file is touched. *)
Theorem download_cached (w : world) (url : string) (path : option string)
    (sha1_hash : option string) :
  cache_hit (download_dest url path (w_fs w)) sha1_hash w ->
  download url path false sha1_hash w
  = (Ok (download_dest url path (w_fs w)), w).
Proof.
  intros Hhit. unfold download. rewrite bind_unfold. unfold query at 1.
  rewrite bind_unfold, (download_needed_keep _ _ _ Hhit).
  reflexivity.
Qed.

(** Where each stage of the fetch can fail. *)
Lemma download_request_raises url fname w e w' :
  download_request url fname w = (Raise e, w') -> propagated e.
Proof.
  unfold download_request. rewrite bind_unfold. unfold query at 1.
  rewrite bind_unfold.
  destruct (negb _).
  - destruct (act _ w) as [[[]|e1] w1] eqn:Ea.
    + rewrite bind_unfold. unfold print. unfold requests_get.
      destruct (http_get url _) as [[err|r] n]; intros E; inversion E.
      exact I.
    + intros E; inversion E; subst. eapply act_raises; eassumption.
  - unfold ret. rewrite bind_unfold. unfold print. unfold requests_get.
    destruct (http_get url _) as [[err|r] n]; intros E; inversion E.
    exact I.
Qed.

Lemma write_chunks_raises fname skip cs w e w' :
  write_chunks fname skip cs w = (Raise e, w') -> propagated e.
Proof.
  revert w. induction cs as [|c r IH]; intros w; simpl; [done|].
  rewrite bind_unfold.
  destruct (skip && is_empty c).
  - unfold ret. apply IH.
  - destruct (act _ w) as [[[]|e1] w1] eqn:Ea.
    + apply IH.
    + intros E; inversion E; subst. eapply act_raises; eassumption.
Qed.

Lemma stream_raises fname skip (r : response) w e w' :
  (write_chunks fname skip (chunks r) ;; end_of_stream r) w = (Raise e, w') ->
  propagated e.
Proof.
  rewrite bind_unfold.
  destruct (write_chunks _ _ _ w) as [[[]|e1] w1] eqn:Ew.
  - unfold end_of_stream. destruct (stream_error r); intros E; inversion E.
    exact I.
  - intros E; inversion E; subst. eapply write_chunks_raises; eassumption.
Qed.

Lemma download_save_raises fname r w e w' :
  download_save fname r w = (Raise e, w') -> propagated e.
Proof.
  unfold download_save. rewrite bind_unfold.
  destruct (act _ w) as [[[]|e1] w1] eqn:Ea.
  - destruct (content_length r) as [s|].
    + destruct (PyInt.int s) as [n|]; [|intros E; inversion E; exact I].
      destruct (PyInt.too_large_for_float n);
        [intros E; inversion E; exact I|].
      apply stream_raises.
    + apply stream_raises.
  - intros E; inversion E; subst. eapply act_raises; eassumption.
Qed.

(** What the hash check after the download does. *)
Lemma download_verify_cases fname sha1_hash (w : world) :
  (Py.truthy sha1_hash = false /\ download_verify fname sha1_hash w = (Ok tt, w))
  \/ exists h, sha1_hash = Some h /\ Py.truthy sha1_hash = true
     /\ match fst (check_sha1 fname h w) with
        | Ok true => download_verify fname sha1_hash w = (Ok tt, w)
        | Ok false =>
            download_verify fname sha1_hash w
            = (Raise (UserWarning (mismatch_message fname)), w)
        | Raise e => download_verify fname sha1_hash w = (Raise e, w)
                     /\ propagated e
        end.
Proof.
  unfold download_verify. destruct sha1_hash as [h|]; [|by left].
  destruct (Py.truthy (Some h)) eqn:Ht; [|by left].
  right. exists h. split; [done|]. split; [done|].
  rewrite bind_unfold, check_sha1_pair.
  destruct (fst (check_sha1 fname h w)) as [[|]|e] eqn:Hc; simpl; try done.
  split; [done|]. eapply check_sha1_raises; eassumption.
Qed.

(** Once the fetch is decided, download is its four stages in sequence. *)
Lemma download_fetch_unfold (w : world) url path overwrite sha1_hash :
  fetch_decided (download_dest url path (w_fs w)) overwrite sha1_hash w ->
  download url path overwrite sha1_hash w
  = match download_request url (download_dest url path (w_fs w)) w with
    | (Raise e, w1) => (Raise e, w1)
    | (Ok r, w1) =>
        if negb (status_code r =? 200)
        then (Raise (RuntimeError ("Failed downloading url " +:+ url)), w1)
        else
          match download_save (download_dest url path (w_fs w)) r w1 with
          | (Raise e, w2) => (Raise e, w2)
          | (Ok _, w2) =>
              match download_verify (download_dest url path (w_fs w))
                      sha1_hash w2 with
              | (Raise e, w3) => (Raise e, w3)
              | (Ok _, w3) => (Ok (download_dest url path (w_fs w)), w3)
              end
          end
    end.
Proof.
  intros Hd. unfold download. rewrite bind_unfold. unfold query at 1.
  rewrite bind_unfold, (download_needed_fetch _ _ _ _ Hd).
  rewrite bind_unfold. unfold download_fetch. rewrite bind_unfold.
  destruct (download_request _ _ w) as [[r|e] w1]; [|done].
  destruct (negb (status_code r =? 200)); [done|].
  rewrite bind_unfold.
  destruct (download_save _ r w1) as [[[]|e] w2]; [|done].
  by destruct (download_verify _ sha1_hash w2) as [[[]|e] w3].
Qed.

(** The exceptions a fetch can end in. *)
Lemma download_fetch_raises (w : world) url path overwrite sha1_hash e :
  fetch_decided (download_dest url path (w_fs w)) overwrite sha1_hash w ->
  fst (download url path overwrite sha1_hash w) = Raise e ->
  (exists msg, e = RuntimeError msg) \/ (exists msg, e = UserWarning msg)
  \/ propagated e.
Proof.
  intros Hd. rewrite (download_fetch_unfold _ _ _ _ _ Hd).
  set (fname := download_dest url path (w_fs w)).
  destruct (download_request url fname w) as [[r|e0] w1] eqn:Er.
  2:{ simpl. intros E. inversion E; subst. right; right.
      eapply download_request_raises; eassumption. }
  destruct (negb (status_code r =? 200)).
  { simpl. intros E. inversion E. left. eexists. reflexivity. }
  destruct (download_save fname r w1) as [[[]|e0] w2] eqn:Ew.
  2:{ simpl. intros E. inversion E; subst. right; right.
      eapply download_save_raises; eassumption. }
  destruct (download_verify_cases fname sha1_hash w2)
    as [[Ht Ev] | (h & -> & Ht & Ev)].
  { rewrite Ev. simpl. discriminate. }
  destruct (fst (check_sha1 fname h w2)) as [[|]|e0].
  - rewrite Ev. simpl. discriminate.
  - rewrite Ev. simpl. intros E. inversion E. right; left. eexists.
    reflexivity.
  - destruct Ev as [Ev Hp]. rewrite Ev. simpl. intros E. inversion E; subst.
    right; right. exact Hp.
Qed.

(** C3, as the code has it: when download decides to fetch, RuntimeError
    is raised exactly when the request is answered with a status other than
    200, UserWarning exactly when the answer is 200, the body is saved, an
    expected hash is given and check_sha1 rejects the fresh file, and the
    destination path is returned exactly when the answer is 200, the body
    is saved and the hash, if any, is accepted.  Every other outcome is an
    error of the file system, of the HTTP client or of the conversion of
    the content-length header, let through unchanged. *)
Theorem download_fetch_outcome (w : world) (url : string)
    (path : option string) (overwrite : bool) (sha1_hash : option string) :
  fetch_decided (download_dest url path (w_fs w)) overwrite sha1_hash w ->
  ((exists msg, fst (download url path overwrite sha1_hash w)
                = Raise (RuntimeError msg))
   <-> exists r w1,
         download_request url (download_dest url path (w_fs w)) w = (Ok r, w1)
         /\ status_code r <> 200)
  /\ ((exists msg, fst (download url path overwrite sha1_hash w)
                   = Raise (UserWarning msg))
      <-> exists r w1 w2 h,
            download_request url (download_dest url path (w_fs w)) w = (Ok r, w1)
            /\ status_code r = 200
            /\ download_save (download_dest url path (w_fs w)) r w1 = (Ok tt, w2)
            /\ sha1_hash = Some h /\ Py.truthy sha1_hash = true
            /\ fst (check_sha1 (download_dest url path (w_fs w)) h w2) = Ok false)
  /\ ((exists v, fst (download url path overwrite sha1_hash w) = Ok v)
      <-> exists r w1 w2,
            download_request url (download_dest url path (w_fs w)) w = (Ok r, w1)
            /\ status_code r = 200
            /\ download_save (download_dest url path (w_fs w)) r w1 = (Ok tt, w2)
            /\ (Py.truthy sha1_hash = false
                \/ exists h, sha1_hash = Some h
                   /\ fst (check_sha1 (download_dest url path (w_fs w)) h w2)
                      = Ok true))
  /\ (forall v, fst (download url path overwrite sha1_hash w) = Ok v ->
      v = download_dest url path (w_fs w))
  /\ (forall e, fst (download url path overwrite sha1_hash w) = Raise e ->
      (exists msg, e = RuntimeError msg) \/ (exists msg, e = UserWarning msg)
      \/ propagated e).
Proof.
  intros Hd. rewrite (download_fetch_unfold _ _ _ _ _ Hd).
  set (fname := download_dest url path (w_fs w)).
  destruct (download_request url fname w) as [[r|e] w1] eqn:Er.
  2:{ (* the directory or the request failed *)
    pose proof (download_request_raises _ _ _ _ _ Er) as Hp. simpl.
    repeat split.
    - intros [msg E]. inversion E; subst. destruct Hp.
    - intros (r & w' & E & _). discriminate E.
    - intros [msg E]. inversion E; subst. destruct Hp.
    - intros (r & w' & w2 & h & E & _). discriminate E.
    - intros [v E]. discriminate E.
    - intros (r & w' & w2 & E & _). discriminate E.
    - intros v E. discriminate E.
    - intros e' E. inversion E; subst. right; right; exact Hp. }
  destruct (status_code r =? 200) eqn:Es; simpl.
  2:{ (* answered, but not with 200 *)
    apply Z.eqb_neq in Es. repeat split.
    - intros _. exists r, w1. done.
    - intros _. eexists. reflexivity.
    - intros [msg E]. discriminate E.
    - intros (r' & w' & w2 & h & E & Hs & _). inversion E; subst. done.
    - intros [v E]. discriminate E.
    - intros (r' & w' & w2 & E & Hs & _). inversion E; subst. done.
    - intros v E. discriminate E.
    - intros e' E. inversion E; subst. left. eexists. reflexivity. }
  apply Z.eqb_eq in Es.
  destruct (download_save fname r w1) as [[[]|e] w2] eqn:Ew.
  2:{ (* saving the body failed *)
    pose proof (download_save_raises _ _ _ _ _ Ew) as Hp. simpl.
    repeat split.
    - intros [msg E]. inversion E; subst. destruct Hp.
    - intros (r' & w' & E & Hs). inversion E; subst. done.
    - intros [msg E]. inversion E; subst. destruct Hp.
    - intros (r' & w' & w2' & h & E & _ & E2 & _). inversion E; subst.
      rewrite Ew in E2. discriminate E2.
    - intros [v E]. discriminate E.
    - intros (r' & w' & w2' & E & _ & E2 & _). inversion E; subst.
      rewrite Ew in E2. discriminate E2.
    - intros v E. discriminate E.
    - intros e' E. inversion E; subst. right; right; exact Hp. }
  destruct (download_verify_cases fname sha1_hash w2)
    as [[Ht Ev] | (h & -> & Ht & Ev)].
  { (* no expected hash *)
    rewrite Ev. simpl. repeat split.
    - intros [msg E]. discriminate E.
    - intros (r' & w' & E & Hs). inversion E; subst. done.
    - intros [msg E]. discriminate E.
    - intros (r' & w' & w2' & h & _ & _ & _ & _ & Ht' & _). congruence.
    - intros _. exists r, w1, w2. repeat split; try done. by left.
    - intros _. eexists. reflexivity.
    - intros v E. by inversion E.
    - intros e' E. discriminate E. }
  destruct (fst (check_sha1 fname h w2)) as [[|]|e] eqn:Hc.
  - (* the fresh file is accepted *)
    rewrite Ev. simpl. repeat split.
    + intros [msg E]. discriminate E.
    + intros (r' & w' & E & Hs). inversion E; subst. done.
    + intros [msg E]. discriminate E.
    + intros (r' & w' & w2' & h' & E & _ & E2 & Eh & _ & Hc').
      inversion E; subst. rewrite Ew in E2. inversion E2; subst.
      inversion Eh; subst. congruence.
    + intros _. exists r, w1, w2. repeat split; try done. right. by exists h.
    + intros _. eexists. reflexivity.
    + intros v E. by inversion E.
    + intros e' E. discriminate E.
  - (* the fresh file is rejected *)
    rewrite Ev. simpl. repeat split.
    + intros [msg E]. discriminate E.
    + intros (r' & w' & E & Hs). inversion E; subst. done.
    + intros _. exists r, w1, w2, h. done.
    + intros _. eexists. reflexivity.
    + intros [v E]. discriminate E.
    + intros (r' & w' & w2' & E & _ & E2 & [Ht' | (h' & Eh & Hc')]).
      * simpl in Ht, Ht'. congruence.
      * inversion E; subst. rewrite Ew in E2. inversion E2; subst.
        inversion Eh; subst. congruence.
    + intros v E. discriminate E.
    + intros e' E. inversion E; subst. right; left. eexists. reflexivity.
  - (* the fresh file cannot be read back *)
    destruct Ev as [Ev Hp]. rewrite Ev. simpl. repeat split.
    + intros [msg E]. inversion E; subst. destruct Hp.
    + intros (r' & w' & E & Hs). inversion E; subst. done.
    + intros [msg E]. inversion E; subst. destruct Hp.
    + intros (r' & w' & w2' & h' & E & _ & E2 & Eh & _ & Hc').
      inversion E; subst. rewrite Ew in E2. inversion E2; subst.
      inversion Eh; subst. congruence.
    + intros [v E]. discriminate E.
    + intros (r' & w' & w2' & E & _ & E2 & [Ht' | (h' & Eh & Hc')]).
      * simpl in Ht, Ht'. congruence.
      * inversion E; subst. rewrite Ew in E2. inversion E2; subst.
        inversion Eh; subst. congruence.
    + intros v E. discriminate E.
    + intros e' E. inversion E; subst. right; right; exact Hp.
Qed.

End DownloadFacts.

(** ** Properties of get_model_file *)

Section GetModelFileFacts.
Context `{OS} `{Net}.
Variable AVAILABLE_MODELS : gmap string (string * string).

Lemma download_overwrite_raises (w : world) url path sha1_hash e :
  fst (download url path true sha1_hash w) = Raise e ->
  (exists msg, e = RuntimeError msg) \/ (exists msg, e = UserWarning msg)
  \/ propagated e.
Proof.
  intros E.
  assert (fetch_decided (download_dest url path (w_fs w)) true sha1_hash w)
    as Hd by (by left).
  by apply (download_fetch_raises w url path true sha1_hash e Hd).
Qed.

Lemma get_model_file_unfold (w : world) (model_dir : string) :
  get_model_file AVAILABLE_MODELS model_dir w
  = match makedirs (dirname (expanduser model_dir)) true (w_fs w) with
    | (Some err, f1) => (Raise (OSError err), set_fs w f1)
    | (None, f1) =>
        if path_exists (expanduser model_dir +:+ ".zip") f1
        then unpack model_dir (set_fs w f1)
        else
          match AVAILABLE_MODELS !! basename (expanduser model_dir) with
          | None =>
              (Raise (NotImplementedError
                        (basename (expanduser model_dir)
                         +:+ " is not an available downloaded model")),
               set_fs w f1)
          | Some (_, url) =>
              match download url (Some (expanduser model_dir +:+ ".zip"))
                      true None (set_fs w f1) with
              | (Raise e, w2) => (Raise e, w2)
              | (Ok _, w2) => unpack model_dir w2
              end
          end
    end.
Proof.
  unfold get_model_file, unpack.
  rewrite bind_unfold. unfold act at 1.
  destruct (makedirs _ true (w_fs w)) as [[err|] f1]; [done|].
  rewrite bind_unfold. unfold query at 1. cbv beta iota. simpl w_fs.
  destruct (path_exists _ f1); cbv beta iota delta [negb].
  - rewrite bind_unfold. unfold ret at 1. cbv beta iota.
    rewrite bind_unfold. unfold extract_zip. simpl w_fs.
    destruct (extractall _ _ f1) as [[ze|] f3]; try done.
    rewrite bind_unfold. unfold act. simpl w_fs.
    by destruct (remove _ f3) as [[e|] f4].
  - rewrite bind_unfold.
    destruct (AVAILABLE_MODELS !! _) as [[v0 url]|]; [|done].
    rewrite bind_unfold.
    destruct (download url _ true None _) as [[dest|e] w2]; [|done].
    unfold ret at 1. cbv beta iota.
    rewrite bind_unfold. unfold extract_zip.
    destruct (extractall _ _ (w_fs w2)) as [[ze|] f3]; try done.
    rewrite bind_unfold. unfold act. simpl w_fs.
    by destruct (remove _ f3) as [[e|] f4].
Qed.

(** What lines 224-228 do with an archive that is in place. *)
Lemma unpack_cases (model_dir : string) (w2 : world) :
  match extractall (expanduser model_dir +:+ ".zip")
          (dirname (expanduser model_dir)) (w_fs w2) with
  | (Some ze, f3) => unpack model_dir w2 = (Raise (zip_exn ze), set_fs w2 f3)
  | (None, f3) =>
      match remove (expanduser model_dir +:+ ".zip") f3 with
      | (Some err, f4) =>
          unpack model_dir w2 = (Raise (OSError err), set_fs w2 f4)
      | (None, f4) =>
          unpack model_dir w2 = (Ok (expanduser model_dir), set_fs w2 f4)
      end
  end.
Proof.
  unfold unpack.
  destruct (extractall _ _ (w_fs w2)) as [[ze|] f3]; [done|].
  by destruct (remove _ f3) as [[err|] f4].
Qed.

Lemma unpack_not_implemented (model_dir : string) (w2 : world) (msg : string) :
  fst (unpack model_dir w2) = Raise (NotImplementedError msg)
  <-> fst (extractall (expanduser model_dir +:+ ".zip")
             (dirname (expanduser model_dir)) (w_fs w2))
      = Some (ZipNotImplemented msg).
Proof.
  pose proof (unpack_cases model_dir w2) as Hu.
  destruct (extractall _ _ (w_fs w2)) as [[ze|] f3]; cbn [fst].
  - rewrite Hu. cbn [fst]. split.
    + intros E. by destruct ze; inversion E.
    + intros E. by inversion E.
  - destruct (remove _ f3) as [[err|] f4]; rewrite Hu; split; discriminate.
Qed.

Lemma unpack_returns (model_dir : string) (w2 w' : world) (v : string) :
  unpack model_dir w2 = (Ok v, w') ->
  v = expanduser model_dir
  /\ exists f3,
       extractall (expanduser model_dir +:+ ".zip")
         (dirname (expanduser model_dir)) (w_fs w2) = (None, f3)
       /\ remove (expanduser model_dir +:+ ".zip") f3 = (None, w_fs w')
       /\ w' = set_fs w2 (w_fs w').
Proof.
  pose proof (unpack_cases model_dir w2) as Hu.
  destruct (extractall _ _ (w_fs w2)) as [[ze|] f3] eqn:Ex.
  { rewrite Hu. discriminate. }
  destruct (remove _ f3) as [[err|] f4] eqn:Er; rewrite Hu; [discriminate|].
  intros E. inversion E; subst. split; [done|]. by exists f3.
Qed.

(** The exceptions get_model_file lets through, with the step they come
    from: [os.makedirs], [download], [zipfile] and [os.remove]. *)
Definition passed_on (model_dir : string) (w : world) (e : exn) : Prop :=
  (exists err,
     fst (makedirs (dirname (expanduser model_dir)) true (w_fs w)) = Some err
     /\ e = OSError err)
  \/ (exists f1 v url,
        makedirs (dirname (expanduser model_dir)) true (w_fs w) = (None, f1)
        /\ path_exists (expanduser model_dir +:+ ".zip") f1 = false
        /\ AVAILABLE_MODELS !! basename (expanduser model_dir) = Some (v, url)
        /\ fst (download url (Some (expanduser model_dir +:+ ".zip")) true
                  None (set_fs w f1)) = Raise e)
  \/ (exists w2 ze,
        archive_in_place AVAILABLE_MODELS model_dir w w2
        /\ fst (extractall (expanduser model_dir +:+ ".zip")
                  (dirname (expanduser model_dir)) (w_fs w2)) = Some ze
        /\ e = zip_exn ze)
  \/ (exists w2 f3 err,
        archive_in_place AVAILABLE_MODELS model_dir w w2
        /\ extractall (expanduser model_dir +:+ ".zip")
             (dirname (expanduser model_dir)) (w_fs w2) = (None, f3)
        /\ fst (remove (expanduser model_dir +:+ ".zip") f3) = Some err
        /\ e = OSError err).

Lemma unpack_raises (model_dir : string) (w w2 : world) (e : exn) :
  archive_in_place AVAILABLE_MODELS model_dir w w2 ->
  fst (unpack model_dir w2) = Raise e ->
  passed_on model_dir w e.
Proof.
  intros Hin. pose proof (unpack_cases model_dir w2) as Hu.
  destruct (extractall _ _ (w_fs w2)) as [[ze|] f3] eqn:Ex.
  - rewrite Hu. cbn [fst]. intros [= <-]. right. right. left.
    exists w2, ze. by rewrite Ex.
  - destruct (remove _ f3) as [[err|] f4] eqn:Er; rewrite Hu; cbn [fst];
      [|discriminate].
    intros [= <-]. right. right. right. exists w2, f3, err. by rewrite Er.
Qed.

(** C5, as the code has it.  NotImplementedError is raised exactly when the
    parent directory of the expanded [model_dir] could be made and either
    no archive [model_dir + '.zip'] is there and the base name is not a
    key of AVAILABLE_MODELS (the message names the model), or the archive,
    found in place or just downloaded, is one that [zipfile] refuses with
    NotImplementedError (the message is zipfile's).  When get_model_file
    returns, the archive has been extracted into that parent directory and
    removed, and the value is the expanded [model_dir].  Every other
    exception is passed on unchanged from [os.makedirs], [download],
    [zipfile] or [os.remove]. *)
Theorem get_model_file_outcome (w : world) (model_dir : string) :
  (forall msg,
     fst (get_model_file AVAILABLE_MODELS model_dir w)
     = Raise (NotImplementedError msg)
     <-> exists f1,
           makedirs (dirname (expanduser model_dir)) true (w_fs w) = (None, f1)
           /\ ((path_exists (expanduser model_dir +:+ ".zip") f1 = false
                /\ AVAILABLE_MODELS !! basename (expanduser model_dir) = None
                /\ msg = basename (expanduser model_dir)
                         +:+ " is not an available downloaded model")
               \/ exists w2,
                    archive_in_place AVAILABLE_MODELS model_dir w w2
                    /\ fst (extractall (expanduser model_dir +:+ ".zip")
                              (dirname (expanduser model_dir)) (w_fs w2))
                       = Some (ZipNotImplemented msg)))
  /\ (forall v w',
        get_model_file AVAILABLE_MODELS model_dir w = (Ok v, w') ->
        v = expanduser model_dir
        /\ exists w2 f3,
             archive_in_place AVAILABLE_MODELS model_dir w w2
             /\ extractall (expanduser model_dir +:+ ".zip")
                  (dirname (expanduser model_dir)) (w_fs w2) = (None, f3)
             /\ remove (expanduser model_dir +:+ ".zip") f3 = (None, w_fs w')
             /\ w' = set_fs w2 (w_fs w'))
  /\ (forall e,
        fst (get_model_file AVAILABLE_MODELS model_dir w) = Raise e ->
        (exists f1,
           makedirs (dirname (expanduser model_dir)) true (w_fs w) = (None, f1)
           /\ path_exists (expanduser model_dir +:+ ".zip") f1 = false
           /\ AVAILABLE_MODELS !! basename (expanduser model_dir) = None
           /\ e = NotImplementedError
                    (basename (expanduser model_dir)
                     +:+ " is not an available downloaded model"))
        \/ passed_on model_dir w e).
Proof.
  rewrite get_model_file_unfold.
  set (p := expanduser model_dir). set (zip := p +:+ ".zip").
  destruct (makedirs (dirname p) true (w_fs w)) as [[err|] f1] eqn:Em.
  { (* the directory cannot be made *)
    split; [|split].
    - intros msg. split; [discriminate|]. intros (f & E & _). discriminate E.
    - intros v w' E. discriminate E.
    - intros e [= <-]. right. left. exists err. fold p. by rewrite Em. }
  destruct (path_exists zip f1) eqn:Ez.
  - (* the archive is there *)
    assert (archive_in_place AVAILABLE_MODELS model_dir w (set_fs w f1))
      as Hin.
    { exists f1. split; [done|]. by left. }
    split; [|split].
    + intros msg. rewrite unpack_not_implemented. split.
      * intros Ex. exists f1. split; [done|]. right. by exists (set_fs w f1).
      * intros (f & E & [(Ez' & _)|(w2 & Hin2 & Ex)]).
        { inversion E; subst. fold p zip in Ez'. congruence. }
        destruct Hin2 as (f' & E' & [[_ ->]|[Ez' _]]).
        -- fold p in E'. rewrite Em in E'. by inversion E'; subst.
        -- fold p in E'. rewrite Em in E'. inversion E'; subst.
           fold p zip in Ez'. congruence.
    + intros v w' E. destruct (unpack_returns _ _ _ _ E) as (-> & f3 & Ex & Er & Ew).
      split; [done|]. by exists (set_fs w f1), f3.
    + intros e E. right. by apply (unpack_raises model_dir w (set_fs w f1)).
  - (* no archive: look the model up *)
    destruct (AVAILABLE_MODELS !! basename p) as [[v0 url]|] eqn:Ea.
    + destruct (download url (Some zip) true None (set_fs w f1))
        as [[dest|e] w2] eqn:Ed.
      * assert (archive_in_place AVAILABLE_MODELS model_dir w w2) as Hin.
        { exists f1. split; [done|]. right. split; [done|].
          by exists v0, url, dest. }
        split; [|split].
        -- intros msg. rewrite unpack_not_implemented. split.
           ++ intros Ex. exists f1. split; [done|]. right. by exists w2.
           ++ intros (f & E & [(_ & Ea' & _)|(w2' & Hin2 & Ex)]).
              { fold p in Ea'. congruence. }
              destruct Hin2 as (f' & E' & [[Ez' _]|(_ & v & u & d & Ea' & Ed')]).
              ** fold p in E'. rewrite Em in E'. inversion E'; subst.
                 fold p zip in Ez'. congruence.
              ** fold p in E', Ea', Ed'. rewrite Em in E'.
                 inversion E'; subst f'. rewrite Ea in Ea'.
                 inversion Ea'; subst. fold zip in Ed'.
                 rewrite Ed in Ed'. by inversion Ed'; subst.
        -- intros v w' E.
           destruct (unpack_returns _ _ _ _ E) as (-> & f3 & Ex & Er & Ew).
           split; [done|]. by exists w2, f3.
        -- intros e E. right. by apply (unpack_raises model_dir w w2).
      * (* the download failed: never with NotImplementedError *)
        assert (fst (download url (Some zip) true None (set_fs w f1)) = Raise e)
          as Ee by (by rewrite Ed).
        pose proof (download_overwrite_raises _ _ _ _ _ Ee) as Hde.
        split; [|split].
        -- intros msg. cbn [fst]. split.
           ++ intros [= ->].
              destruct Hde as [[m Em']|[[m Em']|Hp]]; try discriminate.
              destruct Hp.
           ++ intros (f & E & [(_ & Ea' & _)|(w2' & Hin2 & Ex)]).
              { fold p in Ea'. congruence. }
              destruct Hin2 as (f' & E' & [[Ez' _]|(_ & v & u & d & Ea' & Ed')]).
              ** fold p in E'. rewrite Em in E'. inversion E'; subst.
                 fold p zip in Ez'. congruence.
              ** fold p in E', Ea', Ed'. rewrite Em in E'.
                 inversion E'; subst f'. rewrite Ea in Ea'.
                 inversion Ea'; subst. fold zip in Ed'.
                 rewrite Ed in Ed'. discriminate Ed'.
        -- intros v w' E. discriminate E.
        -- intros e' [= <-]. right. right. left. exists f1, v0, url.
           fold p zip. by rewrite Ed.
    + split; [|split].
      * intros msg. cbn [fst]. split.
        -- intros [= <-]. exists f1. split; [done|]. by left.
        -- intros (f & E & [(_ & _ & ->)|(w2' & Hin2 & Ex)]); [done|].
           destruct Hin2 as (f' & E' & [[Ez' _]|(_ & v & u & d & Ea' & _)]).
           ++ fold p in E'. rewrite Em in E'. inversion E'; subst.
              fold p zip in Ez'. congruence.
           ++ fold p in Ea'. congruence.
      * intros v w' E. discriminate E.
      * intros e [= <-]. left. by exists f1.
Qed.

End GetModelFileFacts.

(** ** download and get_model_file on the example world *)

Abbreviation demo_download := (@download Demo.os Demo.web).
Abbreviation demo_get_model_file :=
  (@get_model_file Demo.os Demo.web Demo.models).

(** A first download writes the body and returns the destination. *)
Example download_into_directory :
  let r := demo_download "http://host/abc.bin" (Some "/data/models") false
             (Some "a9993e364706816aba3e25717850c26c9cd0d89d") Demo.w0 in
  fst r = Ok "/data/models/abc.bin"
  /\ @open_rb Demo.os "/data/models/abc.bin" (w_fs (snd r))
     = inr (bytes_of_string "abc")
  /\ w_requests (snd r) = ["http://host/abc.bin"]
  /\ w_stdout (snd r)
     = ["Downloading /data/models/abc.bin from http://host/abc.bin..."].
Proof. vm_compute. done. Qed.

(** C2 at a concrete input: the file is there and carries the expected
    hash. *)
Lemma download_cached_witness :
  demo_download "http://host/abc.bin" (Some "/data") false
    (Some "a9993e364706816aba3e25717850c26c9cd0d89d") Demo.w0
  = (Ok (@download_dest Demo.os "http://host/abc.bin" (Some "/data")
           (w_fs Demo.w0)), Demo.w0).
Proof.
  apply (@download_cached Demo.os Demo.web Demo.w0).
  split.
  - vm_compute. reflexivity.
  - right. eexists. split; [reflexivity|]. vm_compute. reflexivity.
Defined.

(** C3 at a concrete input: the destination does not exist yet. *)
Lemma download_fetch_outcome_witness :
  @fetch_decided Demo.os Demo.web
    (@download_dest Demo.os "http://host/abc.bin" (Some "/data/new.bin")
       (w_fs Demo.w0)) false None Demo.w0
  /\ (forall v,
        fst (demo_download "http://host/abc.bin" (Some "/data/new.bin")
               false None Demo.w0) = Ok v ->
        v = @download_dest Demo.os "http://host/abc.bin"
              (Some "/data/new.bin") (w_fs Demo.w0)).
Proof.
  assert (@fetch_decided Demo.os Demo.web
            (@download_dest Demo.os "http://host/abc.bin"
               (Some "/data/new.bin") (w_fs Demo.w0)) false None Demo.w0)
    as Hd.
  { right. left. vm_compute. reflexivity. }
  split; [exact Hd|].
  exact (proj1 (proj2 (proj2 (proj2
    (@download_fetch_outcome Demo.os Demo.web Demo.w0 "http://host/abc.bin"
       (Some "/data/new.bin") false None Hd))))).
Defined.

(** C3 fails as stated: the server answers 200, no hash is expected, and
    download still raises, because the destination is a directory. *)
Lemma download_raises_besides_the_two :
  @fetch_decided Demo.os Demo.web
    (@download_dest Demo.os "http://host/" (Some "/data") (w_fs Demo.w0))
    true None Demo.w0
  /\ (exists r, fst (@http_get Demo.web "http://host/" (w_net Demo.w0)) = inr r
               /\ status_code r = 200)
  /\ Py.truthy None = false
  /\ fst (demo_download "http://host/" (Some "/data") true None Demo.w0)
     = Raise (OSError IsADirectoryError).
Proof.
  split; [by left|]. split.
  - eexists. split; [vm_compute; reflexivity|]. reflexivity.
  - split; [reflexivity|]. vm_compute. reflexivity.
Qed.

(** get_model_file with the archive in place: it is unpacked and removed,
    and the value is the expanded path. *)
Example get_model_file_expands_user :
  let r := demo_get_model_file "~/db" Demo.w0 in
  fst r = Ok "/home/u/db"
  /\ @path_exists Demo.os "/home/u/db.zip" (w_fs Demo.w0) = true
  /\ @path_exists Demo.os "/home/u/db.zip" (w_fs (snd r)) = false
  /\ w_requests (snd r) = [].
Proof. vm_compute. done. Qed.

(** get_model_file without the archive: it is downloaded first. *)
Example get_model_file_downloads :
  let r := demo_get_model_file "/data/db" Demo.w0 in
  fst r = Ok "/data/db"
  /\ w_requests (snd r) = ["http://host/db.zip"]
  /\ @path_exists Demo.os "/data/db.zip" (w_fs (snd r)) = false.
Proof. vm_compute. done. Qed.

(** C5 fails as stated: no archive, no such model, and yet the error is
    not NotImplementedError, because the parent of [model_dir] is a
    regular file. *)
Lemma get_model_file_other_error :
  @path_exists Demo.os "/data/abc.bin/m.zip" (w_fs Demo.w0) = false
  /\ Demo.models !! @basename Demo.os "/data/abc.bin/m" = None
  /\ fst (demo_get_model_file "/data/abc.bin/m" Demo.w0)
     = Raise (OSError FileExistsError).
Proof. vm_compute. done. Qed.

(** The archive is there, and NotImplementedError is raised all the same,
    by zipfile. *)
Example get_model_file_unsupported_archive :
  @path_exists Scenario.strict_os "/data/models/db.zip" (w_fs Scenario.w2)
  = true
  /\ fst (@get_model_file Scenario.strict_os Demo.web Demo.models
            "/data/models/db" Scenario.w2)
     = Raise (NotImplementedError "That compression method is not supported").
Proof. vm_compute. done. Qed.

(** [int] on header values: white space of ISO-8859-1 around the number,
    underscores between digits, nothing else. *)
Example int_of_header :
  PyInt.int (String "160" "5") = Some 5
  /\ PyInt.int ("5" +:+ String "133" "") = Some 5
  /\ PyInt.int (String "028" "5") = None
  /\ PyInt.int " -1_0 " = Some (-10)
  /\ PyInt.int "+ 5" = None
  /\ PyInt.int "3 bytes" = None
  /\ PyInt.int "" = None.
Proof. vm_compute. done. Qed.

(** ** Properties of read_charset *)

Lemma repeated_line_NoDup (l : list string) : repeated_line l <-> ~ NoDup l.
Proof.
  split.
  - intros (i & j & c & Hne & Hi & Hj) Hnd.
    apply Hne. eapply NoDup_lookup; eassumption.
  - induction l as [|x r IH]; intros Hn.
    + destruct Hn. constructor.
    + destruct (decide (x ∈ r)) as [Hin|Hnin].
      * apply list_elem_of_lookup in Hin as [j Hj].
        exists 0%nat, (S j), x. done.
      * destruct IH as (i & j & c & Hne & Hi & Hj).
        { intros Hnd. apply Hn. by constructor. }
        exists (S i), (S j), c. split; [lia|]. done.
Qed.

Lemma inv_dict_from_dom (l : list string) : forall idx (d : gmap string nat),
  dom (inv_dict_from idx l d) = list_to_set l ∪ dom d.
Proof.
  induction l as [|c r IH]; intros idx d; cbn [inv_dict_from].
  - by rewrite list_to_set_nil, (left_id_L ∅ (∪)).
  - rewrite IH, dom_insert_L, list_to_set_cons.
    rewrite (comm_L (∪) {[c]} (list_to_set r)). by rewrite (assoc_L (∪)).
Qed.

Lemma size_list_to_set_le (l : list string) :
  (size (list_to_set l : gset string) <= length l)%nat.
Proof.
  induction l as [|x r IH].
  - rewrite list_to_set_nil, size_empty. done.
  - rewrite list_to_set_cons. cbn [length].
    destruct (decide (x ∈ r)) as [Hin|Hnin].
    + rewrite (subseteq_union_1_L {[x]} (list_to_set r)); [lia|].
      apply singleton_subseteq_l. by apply elem_of_list_to_set.
    + rewrite size_union, size_singleton; [lia|].
      apply disjoint_singleton_l. by rewrite elem_of_list_to_set.
Qed.
Lemma size_list_to_set_NoDup (l : list string) :
  size (list_to_set l : gset string) = length l <-> NoDup l.
Proof.
  split; [|apply size_list_to_set].
  induction l as [|x r IH]; intros Hs; [constructor|].
  rewrite list_to_set_cons in Hs. cbn [length] in Hs.
  destruct (decide (x ∈ r)) as [Hin|Hnin].
  - rewrite (subseteq_union_1_L {[x]} (list_to_set r)) in Hs.
    + pose proof (size_list_to_set_le r). lia.
    + apply singleton_subseteq_l. by apply elem_of_list_to_set.
  - rewrite size_union, size_singleton in Hs.
    + constructor; [done|]. apply IH. lia.
    + apply disjoint_singleton_l. by rewrite elem_of_list_to_set.
Qed.

(** The dict has as many keys as the list has distinct lines. *)
Lemma inv_dict_size (l : list string) :
  size (inv_dict l) = length l <-> NoDup l.
Proof.
  rewrite <- size_list_to_set_NoDup, <- size_dom.
  unfold inv_dict. rewrite inv_dict_from_dom, dom_empty_L, (right_id_L ∅ (∪)).
  done.
Qed.

Lemma inv_dict_from_skip (l : list string) : forall idx d c,
  c ∉ l -> inv_dict_from idx l d !! c = d !! c.
Proof.
  induction l as [|x r IH]; intros idx d c Hc; simpl; [done|].
  apply not_elem_of_cons in Hc as [Hne Hc].
  rewrite IH by done. by rewrite lookup_insert_ne.
Qed.

Lemma inv_dict_from_lookup (l : list string) : forall idx d j c,
  NoDup l -> l !! j = Some c ->
  inv_dict_from idx l d !! c = Some (idx + j)%nat.
Proof.
  induction l as [|x r IH]; intros idx d j c Hnd Hj; [done|].
  apply NoDup_cons in Hnd as [Hx Hnd]. destruct j as [|j]; simpl in *.
  - inversion Hj; subst. rewrite inv_dict_from_skip by done.
    rewrite lookup_insert_eq. f_equal. lia.
  - rewrite (IH _ _ j c) by done. f_equal. lia.
Qed.

Lemma append_cons (x : ascii) (a b : string) :
  String x a +:+ b = String x (a +:+ b).
Proof. reflexivity. Qed.

Lemma append_snoc (a b : string) (c : ascii) :
  (a +:+ String c "") +:+ b = a +:+ String c b.
Proof.
  induction a as [|x a IHa]; [reflexivity|].
  rewrite !append_cons. by rewrite IHa.
Qed.

Lemma append_empty (a : string) : a +:+ "" = a.
Proof.
  induction a as [|x a IHa]; [reflexivity|].
  rewrite append_cons. by rewrite IHa.
Qed.

(** The lines are the file cut after each newline. *)
Lemma lines_from_concat (s : string) : forall cur,
  fold_right String.append "" (lines_from cur s) = cur +:+ s.
Proof.
  induction s as [|c r IH]; intros cur; cbn [lines_from].
  - destruct (String.eqb_spec cur ""); subst; cbn [fold_right]; [done|].
    by rewrite !append_empty.
  - destruct (Ascii.eqb_spec c newline); subst.
    + cbn [fold_right]. rewrite IH. apply append_snoc.
    + rewrite IH. apply append_snoc.
Qed.

Lemma file_lines_concat (text : string) :
  fold_right String.append "" (file_lines text) = text.
Proof. apply lines_from_concat. Qed.

Example read_charset_three_lines :
  match fst (@read_charset Demo.os Demo.web "/data/charset.txt" Demo.w0) with
  | Ok (alphabet, d) =>
      alphabet = ["a"; "b"; "c"]
      /\ (d !! "a", d !! "b", d !! "c", d !! "d")
         = (Some 0%nat, Some 1%nat, Some 2%nat, None)
  | Raise _ => False
  end.
Proof. vm_compute. done. Qed.

Example read_charset_repeated :
  fst (@read_charset Demo.os Demo.web "/data/twice.txt" Demo.w0)
  = Raise ValueError.
Proof. vm_compute. reflexivity. Qed.

(** ** Properties of normalize_img_array and restore_img *)

Lemma traverse_map {A B} (f : A -> res B) (g : A -> B) (l : list A) :
  Forall (fun x => f x = Ok (g x)) l -> traverse f l = Ok (map g l).
Proof.
  induction 1 as [|x r Hx _ IH]; simpl; [done|]. by rewrite Hx, IH.
Qed.

Lemma lookup_map {A B} (f : A -> B) (l : list A) (i : nat) :
  map f l !! i = f <$> l !! i.
Proof.
  revert i. induction l as [|x r IH]; intros [|i]; simpl; done.
Qed.

Lemma entry_map {A B} (f : list A -> list B) (a : ndarray A) (i j c : nat) :
  entry (map (map f) a) i j c
  = match a !! i with
    | Some row => match row !! j with
                  | Some pixel => f pixel !! c
                  | None => None
                  end
    | None => None
    end.
Proof.
  unfold entry. rewrite lookup_map.
  destruct (a !! i) as [row|]; simpl; [|done].
  rewrite lookup_map. by destruct (row !! j).
Qed.

Lemma uint8_values_spec (x : Z) : 0 <= x <= 255 -> In x uint8_values.
Proof.
  intros Hx. unfold uint8_values. apply in_map_iff.
  exists (Z.to_nat x). split; [lia|]. apply in_seq. lia.
Qed.




Lemma normalize_rgb (img : ndarray Z) :
  rgb_uint8 img ->
  normalize_img_array img = Ok (map (map normalize_pixel) img).
Proof.
  intros Hrgb. unfold normalize_img_array, broadcast_mean, map_entries.
  rewrite (traverse_map _ (map (fun px : list spec_float =>
             imap (fun c x => isub_mean x (nth c RGB_MEAN S754_nan)) px))).
  - f_equal. rewrite !map_map. apply map_ext_Forall.
    eapply Forall_impl; [exact Hrgb|]. intros row Hrow. cbv beta in *.
    rewrite !map_map. apply map_ext_Forall.
    eapply Forall_impl; [exact Hrow|]. intros px [Hlen _]. cbv beta.
    destruct px as [|r [|g [|b [|? ?]]]]; try discriminate Hlen.
    reflexivity.
  - apply Forall_map. eapply Forall_impl; [exact Hrgb|].
    intros row Hrow. cbv beta in *. apply traverse_map.
    apply Forall_map. eapply Forall_impl; [exact Hrow|].
    intros px [Hlen _]. cbv beta.
    destruct px as [|r [|g [|b [|? ?]]]]; try discriminate Hlen.
    reflexivity.
Qed.




(** What the pair does to each entry. *)
Lemma restore_normalized_rgb (img : ndarray Z) :
  rgb_uint8 img ->
  restore_normalized img
  = Ok (map (map (fun px => restore_pixel (normalize_pixel px))) img).
Proof.
  intros Hrgb. unfold restore_normalized. rewrite (normalize_rgb _ Hrgb).
  unfold restore_img, broadcast_mean, map_entries.
  rewrite (traverse_map _ (map (fun px : list spec_float =>
             imap (fun c x => IEEE.add64 (IEEE.f64_of_f32 x)
                                (nth c RGB_MEAN S754_nan)) px))).
  - f_equal. rewrite !map_map. apply map_ext_Forall.
    eapply Forall_impl; [exact Hrgb|]. intros row Hrow. cbv beta in *.
    rewrite !map_map. apply map_ext_Forall.
    eapply Forall_impl; [exact Hrow|]. intros px [Hlen _]. cbv beta.
    destruct px as [|r [|g [|b [|? ?]]]]; try discriminate Hlen.
    reflexivity.
  - rewrite !map_map. apply Forall_map. eapply Forall_impl; [exact Hrgb|].
    intros row Hrow. cbv beta in *. apply traverse_map.
    rewrite !map_map. apply Forall_map. eapply Forall_impl; [exact Hrow|].
    intros px [Hlen _]. cbv beta.
    destruct px as [|r [|g [|b [|? ?]]]]; try discriminate Hlen.
    reflexivity.
Qed.

(** All 768 entries come back as they were or one lower, and 0 comes back
    as 0; 567 of them come back one lower. *)
Lemma all_entries_within_one :
  forallb (fun c =>
    forallb (fun x => let x' := restore_entry c (normalize_entry c x) in
                      ((x' =? x) || (x' =? x - 1))
                      && ((0 <? x) || (x' =? 0))) uint8_values)
    [0; 1; 2]%nat = true.
Proof. vm_compute. reflexivity. Qed.

Lemma lost_counts :
  (length (lost 0), length (lost 1), length (lost 2)) = (163, 170, 234)%nat.
Proof. vm_compute. reflexivity. Qed.

Lemma entry_within_one (c : nat) (x : Z) :
  (c < 3)%nat -> 0 <= x <= 255 ->
  (restore_entry c (normalize_entry c x) = x
   \/ restore_entry c (normalize_entry c x) = x - 1)
  /\ 0 <= restore_entry c (normalize_entry c x).
Proof.
  intros Hc Hx. pose proof all_entries_within_one as Ha.
  rewrite forallb_forall in Ha.
  assert (In c [0; 1; 2]%nat) as Hin.
  { destruct c as [|[|[|c]]]; simpl; auto. lia. }
  specialize (Ha c Hin). rewrite forallb_forall in Ha.
  specialize (Ha x (uint8_values_spec x Hx)). cbv zeta in Ha.
  apply andb_prop in Ha as [H1 H2].
  apply orb_prop in H1. apply orb_prop in H2.
  rewrite !Z.eqb_eq in H1. rewrite Z.ltb_lt, Z.eqb_eq in H2. lia.
Qed.

(** C6, as the code has it: on an RGB image of 8-bit values the round trip
    returns an array of the same shape in which every entry is the entry
    of the image or one less, never negative.  It is not the identity: the
    sum [x * 255 + RGB_MEAN] can land just below the integer and the cast
    to uint8 drops the fraction. *)
Theorem restore_normalized_close (img : ndarray Z) :
  rgb_uint8 img ->
  exists out : ndarray Z,
    restore_normalized img = Ok out
    /\ forall i j c : nat,
         match entry img i j c with
         | Some x => exists x', entry out i j c = Some x'
                                /\ (x' = x \/ x' = x - 1) /\ 0 <= x'
         | None => entry out i j c = None
         end.
Proof.
  intros Hrgb.
  exists (map (map (fun px => restore_pixel (normalize_pixel px))) img).
  split; [by apply restore_normalized_rgb|]. intros i j c.
  rewrite entry_map. unfold entry, restore_pixel, normalize_pixel.
  destruct (img !! i) as [row|] eqn:Hi; [|done].
  destruct (row !! j) as [px|] eqn:Hj; [|done].
  rewrite list_lookup_imap, list_lookup_imap.
  destruct (px !! c) as [x|] eqn:Hx; [|done]. simpl.
  exists (restore_entry c (normalize_entry c x)). split; [done|].
  unfold rgb_uint8 in Hrgb. rewrite Forall_lookup in Hrgb.
  specialize (Hrgb _ _ Hi). rewrite Forall_lookup in Hrgb.
  destruct (Hrgb _ _ Hj) as [Hlen Hpx]. rewrite Forall_lookup in Hpx.
  specialize (Hpx _ _ Hx).
  apply entry_within_one; [|done].
  apply lookup_lt_Some in Hx. lia.
Qed.

(** C6 at a concrete input. *)
Lemma restore_normalized_close_witness :
  exists out : ndarray Z,
    restore_normalized [[[0; 128; 255]; [255; 7; 0]]] = Ok out
    /\ forall i j c : nat,
         match entry [[[0; 128; 255]; [255; 7; 0]]] i j c with
         | Some x => exists x', entry out i j c = Some x'
                                /\ (x' = x \/ x' = x - 1) /\ 0 <= x'
         | None => entry out i j c = None
         end.
Proof.
  apply (restore_normalized_close [[[0; 128; 255]; [255; 7; 0]]]).
  repeat constructor; lia.
Defined.

(** C6 fails as stated: the value 1 comes back as 0 in every channel,
    because the float64 sum is 0.99999740... *)
Lemma restore_img_loses_one :
  normalize_img_array [[[1; 1; 1]]]
    = Ok [[[normalize_entry 0 1; normalize_entry 1 1; normalize_entry 2 1]]]
  /\ restore_img
       [[[normalize_entry 0 1; normalize_entry 1 1; normalize_entry 2 1]]]
     = Ok [[[0; 0; 0]]]
  /\ (let sum := IEEE.to_Q
                   (IEEE.add64
                      (IEEE.f64_of_f32
                         (IEEE.mul32 (normalize_entry 0 1) (IEEE.f32_of_Z 255)))
                      (nth 0%nat RGB_MEAN S754_nan)) in
      (999997 # 1000000 < sum)%Q /\ (sum < 999998 # 1000000)%Q).
Proof. repeat split; vm_compute; reflexivity. Qed.

(** ** Properties of imread *)

Section ImreadFacts.
Context `{OS} `{Net}.
Variable cv2_imread : string -> fs -> option (ndarray Z).

Lemma imread_load_cases (img_fp : string) (w : world) :
  match cv2_imread img_fp (w_fs w) with
  | None => imread_load cv2_imread img_fp w = (Raise AttributeError, w)
  | Some a =>
      imread_load cv2_imread img_fp w
      = (Ok (PyArray (F32 (map_entries IEEE.f32_of_Z a))), w)
  end.
Proof.
  unfold imread_load. rewrite bind_unfold. unfold query, lift.
  by destruct (cv2_imread img_fp (w_fs w)).
Qed.

(** C8: when [cv2.imread] gives [None], imread raises AttributeError at
    [.astype] and the world is as before; whatever line 285 leaves in [im]
    is an array, never [None]; and imread is the same function for any two
    behaviours of the PIL decoder, which it therefore never calls. *)
Theorem imread_pil_unreachable :
  (forall pil img_fp (w : world),
     cv2_imread img_fp (w_fs w) = None ->
     imread cv2_imread pil img_fp w = (Raise AttributeError, w))
  /\ (forall img_fp (w w' : world) im,
        imread_load cv2_imread img_fp w = (Ok im, w') -> im <> PyNone)
  /\ (forall pil pil' img_fp (w : world),
        imread cv2_imread pil img_fp w = imread cv2_imread pil' img_fp w).
Proof.
  split; [|split].
  - intros pil img_fp w Hnone. unfold imread. rewrite bind_unfold.
    pose proof (imread_load_cases img_fp w) as Hl. rewrite Hnone in Hl.
    by rewrite Hl.
  - intros img_fp w w' im Hl.
    pose proof (imread_load_cases img_fp w) as Hc.
    destruct (cv2_imread img_fp (w_fs w)); rewrite Hc in Hl;
      inversion Hl; done.
  - intros pil pil' img_fp w. unfold imread. rewrite !bind_unfold.
    pose proof (imread_load_cases img_fp w) as Hc.
    destruct (cv2_imread img_fp (w_fs w)); rewrite Hc; reflexivity.
Qed.

End ImreadFacts.

(** A decoder that reads nothing, and one that knows a single 1 x 2
    image in BGR order. *)
Example imread_unreadable :
  fst (@imread Demo.os Demo.web (fun _ _ => None)
         (fun _ _ => Ok [[[1; 2; 3]]]) "/data/abc.bin" Demo.w0)
  = Raise AttributeError.
Proof. reflexivity. Qed.

Example imread_bgr_to_chw :
  fst (@imread Demo.os Demo.web
         (fun _ _ => Some [[[1; 2; 3]; [4; 5; 6]]])
         (fun _ _ => Raise ValueError) "/data/abc.bin" Demo.w0)
  = Ok (F32 (map_entries IEEE.f32_of_Z [[[3; 6]]; [[2; 5]]; [[1; 4]]])).
Proof. vm_compute. reflexivity. Qed.

(** ** Properties of load_model_params *)

Lemma after_first_dot_model (k' : string) :
  after_first_dot ("model." +:+ k') = Ok k'.
Proof. reflexivity. Qed.

Lemma startswith_model (k : string) :
  Py.startswith "model." k = true <-> exists k', k = "model." +:+ k'.
Proof.
  split.
  - intros Hp.
    do 6 (destruct k as [|? k]; [discriminate Hp|];
          cbn [Py.startswith] in Hp; apply andb_prop in Hp as [Hc Hp];
          apply Ascii.eqb_eq in Hc; subst).
    by exists k.
  - intros [k' ->]. reflexivity.
Qed.

Lemma model_prefix_inj (a b : string) :
  "model." +:+ a = "model." +:+ b -> a = b.
Proof. intros E. by inversion E. Qed.

Section LoadModelParamsFacts.
Context `{OS}.
Variable tensor : Type.
Variable module : Type.
Variable torch_load :
  string -> string -> fs -> res (gmap string (gmap string tensor)).
Variable load_state_dict :
  module -> gmap string tensor -> option string * module.

Lemma all_model_keys_forallb (state_dict : gmap string tensor) :
  forallb (fun param_name => Py.startswith "model." param_name)
          (map fst (map_to_list state_dict)) = true
  <-> all_model_keys state_dict.
Proof.
  rewrite forallb_forall. unfold all_model_keys. split.
  - intros Hall k [v Hk]. apply Hall. apply in_map_iff.
    exists (k, v). split; [done|].
    apply list_elem_of_In. by apply elem_of_map_to_list.
  - intros Hall k Hin. apply in_map_iff in Hin as [[k0 v] [<- Hin]].
    apply Hall. exists v.
    apply list_elem_of_In in Hin. by apply elem_of_map_to_list in Hin.
Qed.

(** The loop, on items with distinct keys that all carry the prefix:
    each item lands under its key without the prefix. *)
Lemma strip_first_field_lookup (items : list (string * tensor)) :
  forall d0 : gmap string tensor,
    Forall (fun kv => Py.startswith "model." kv.1 = true) items ->
    NoDup items.*1 ->
    exists d',
      strip_first_field tensor items d0 = Ok d'
      /\ forall k',
           d' !! k'
           = match (list_to_map items : gmap string tensor)
                   !! ("model." +:+ k') with
             | Some v => Some v
             | None => d0 !! k'
             end.
Proof.
  induction items as [|[k v] r IH]; intros d0 Hall Hnd.
  - exists d0. split; [done|]. intros k'.
    by rewrite list_to_map_nil, lookup_empty.
  - apply Forall_cons in Hall as [Hk Hall].
    apply NoDup_cons in Hnd as [Hnotin Hnd].
    apply startswith_model in Hk as [k0 Hk0]. simpl in Hk0. subst k.
    destruct (IH (<[k0 := v]> d0) Hall Hnd) as (d' & Hd' & Hlook).
    exists d'. split.
    + cbn [strip_first_field]. by rewrite after_first_dot_model.
    + intros k'. rewrite Hlook, list_to_map_cons.
      destruct (decide (k' = k0)) as [->|Hne].
      * rewrite lookup_insert_eq.
        rewrite (not_elem_of_list_to_map_1 r ("model." +:+ k0)) by done.
        by rewrite lookup_insert_eq.
      * rewrite (lookup_insert_ne _ ("model." +:+ k0) ("model." +:+ k'))
          by (intros E; apply model_prefix_inj in E; congruence).
        by rewrite (lookup_insert_ne d0 k0 k') by congruence.
Qed.

(** C4: the dict handed to [load_state_dict] is the checkpoint's state
    dict when some key lacks the prefix ['model.']; when all keys have it,
    every key is replaced by what follows its first dot, which is the key
    without the prefix, and the new key holds the tensor the old one held.
    [load_state_dict] is called on the module given, which is updated in
    place, and the function returns that same module. *)
Theorem load_model_params_dict (f : fs) (h : heap module) (model : nat)
    (param_fp device : string) (checkpoint : gmap string (gmap string tensor))
    (state_dict : gmap string tensor) :
  torch_load param_fp device f = Ok checkpoint ->
  checkpoint !! "state_dict" = Some state_dict ->
  exists loaded : gmap string tensor,
    converted_state_dict tensor checkpoint = Ok loaded
    /\ (all_model_keys state_dict ->
        (forall k v, state_dict !! k = Some v ->
           exists k', after_first_dot k = Ok k' /\ k = "model." +:+ k'
                      /\ loaded !! k' = Some v)
        /\ (forall k', loaded !! k' = state_dict !! ("model." +:+ k')))
    /\ (~ all_model_keys state_dict -> loaded = state_dict)
    /\ load_model_params tensor module torch_load load_state_dict
         model param_fp device f h
       = (match fst (load_state_dict (h model) loaded) with
          | None => Ok model
          | Some msg => Raise (RuntimeError msg)
          end,
          fun i => if Nat.eqb i model
                   then snd (load_state_dict (h model) loaded)
                   else h i).
Proof.
  intros Hload Hsd.
  assert (exists loaded, converted_state_dict tensor checkpoint = Ok loaded
            /\ (all_model_keys state_dict ->
                forall k', loaded !! k' = state_dict !! ("model." +:+ k'))
            /\ (~ all_model_keys state_dict -> loaded = state_dict))
    as (loaded & Hconv & Hyes & Hno).
  { unfold converted_state_dict. rewrite Hsd.
    destruct (forallb _ _) eqn:Hall.
    - apply all_model_keys_forallb in Hall as Hkeys.
      destruct (strip_first_field_lookup (map_to_list state_dict) ∅)
        as (d' & Hd' & Hlook).
      + apply Forall_forall. intros [k v] Hin.
        apply elem_of_map_to_list in Hin. apply Hkeys. by exists v.
      + apply NoDup_fst_map_to_list.
      + exists d'. split; [done|]. split; [|done].
        intros _ k'. rewrite Hlook, list_to_map_to_list, lookup_empty.
        by destruct (state_dict !! _).
    - exists state_dict. split; [done|]. split; [|done].
      intros Hkeys. apply all_model_keys_forallb in Hkeys. congruence. }
  exists loaded. split; [done|]. split; [|split; [done|]].
  - intros Hkeys. split; [|by apply Hyes].
    intros k v Hk.
    destruct (proj1 (startswith_model k)) as [k' ->]; [apply Hkeys; eauto|].
    exists k'. split; [apply after_first_dot_model|]. split; [done|].
    by rewrite Hyes.
  - unfold load_model_params. rewrite Hload, Hconv.
    by destruct (load_state_dict (h model) loaded) as [[msg|] m'].
Qed.

End LoadModelParamsFacts.

(** C4 at a concrete input: tensors are integers, a module is the dict it
    holds, and loading replaces that dict. *)
Lemma load_model_params_dict_witness :
  exists loaded : gmap string Z,
    converted_state_dict Z Demo.checkpoint = Ok loaded
    /\ forall k', loaded !! k' = Demo.state_dict !! ("model." +:+ k').
Proof.
  assert (Demo.checkpoint !! "state_dict" = Some Demo.state_dict) as Hsd
    by apply lookup_singleton_eq.
  destruct (@load_model_params_dict Demo.os Z (gmap string Z)
              (fun _ _ _ => Ok Demo.checkpoint) (fun _ sd => (None, sd))
              Demo.tree0 (fun _ => ∅) 0%nat "/data/abc.bin" "cpu"
              Demo.checkpoint Demo.state_dict eq_refl Hsd)
    as (loaded & Hconv & Hyes & _).
  exists loaded. split; [exact Hconv|].
  apply Hyes. apply all_model_keys_forallb. vm_compute. reflexivity.
Defined.

Example load_model_params_strips_prefix :
  match converted_state_dict Z Demo.checkpoint with
  | Ok loaded => (loaded !! "a.w", loaded !! "b", loaded !! "model.b")
                 = (Some 1, Some 2, None)
  | Raise _ => False
  end.
Proof. vm_compute. reflexivity. Qed.

Example load_model_params_keeps_other_keys :
  match converted_state_dict Z
          {[ "state_dict" := {[ "model.a" := 1; "head.b" := 2 ]} ]} with
  | Ok loaded => (loaded !! "model.a", loaded !! "head.b", loaded !! "a")
                 = (Some 1, Some 2, None)
  | Raise _ => False
  end.
Proof. vm_compute. reflexivity. Qed.

(** ** Properties of set_logger *)

Section SetLoggerFacts.
Context `{OS} `{Net}.

Lemma set_logger_unfold (w : world) log_file log_level log_file_level :
  set_logger log_file log_level log_file_level w
  = if log_file_given log_file
    then match open_log_file log_file (w_fs w) with
         | (Some e, f) =>
             (Raise (OSError e),
              set_fs (set_logger_state w (console_only log_level)) f)
         | (None, f) =>
             (Ok (console_and_file log_file log_level log_file_level),
              set_fs (set_logger_state w
                        (console_and_file log_file log_level log_file_level))
                     f)
         end
    else (Ok (console_only log_level),
          set_logger_state w (console_only log_level)).
Proof.
  destruct w as [f n rq out lg].
  unfold set_logger, open_log_file, console_and_file, console_only.
  unfold add_handler.
  unfold bind, get_logger, put_logger, query, act, ret,
    set_logger_state, set_fs. simpl.
  destruct (log_file_given log_file); [|reflexivity]. simpl.
  destruct (path_exists _ f); simpl.
  - destruct (open_a _ f) as [[e|] f2]; reflexivity.
  - destruct (makedirs _ false f) as [[e|] f1]; [reflexivity|]. simpl.
    destruct (open_a _ f1) as [[e|] f2]; reflexivity.
Qed.

(** C10: every call sets the level of the root logger to [log_level] and
    leaves it with exactly one console handler, first in the list.  When
    [log_file] is None or the empty string the call returns and that is
    the only handler.  When [log_file] is a non-empty string or a Path,
    a call that returns has two handlers, the second one a FileHandler on
    the absolute path of the file at [log_file_level]; so the returned
    logger has exactly one handler when [log_file] is absent and exactly
    two when it is given.  The only way not to return is an OSError from
    making the directory of the log file or from opening the file, and
    then the console handler is the only one installed. *)
Theorem set_logger_handlers (w : world) (log_file : log_file_arg)
    (log_level log_file_level : Z) :
  (l_level (w_logger (snd (set_logger log_file log_level log_file_level w)))
   = log_level
   /\ exists rest,
        l_handlers
          (w_logger (snd (set_logger log_file log_level log_file_level w)))
        = {| h_kind := StreamHandler; h_level := 0; h_format := Some fmt |}
          :: rest
        /\ Forall (fun h => h_kind h <> StreamHandler) rest)
  /\ (log_file = LogNone \/ log_file = LogStr "" ->
      set_logger log_file log_level log_file_level w
      = (Ok {| l_level := log_level;
               l_handlers :=
                 [{| h_kind := StreamHandler; h_level := 0;
                     h_format := Some fmt |}] |},
         set_logger_state w
           {| l_level := log_level;
              l_handlers :=
                [{| h_kind := StreamHandler; h_level := 0;
                    h_format := Some fmt |}] |}))
  /\ (forall name L w',
        (log_file = LogStr name /\ name <> "") \/ log_file = LogPath name ->
        set_logger log_file log_level log_file_level w = (Ok L, w') ->
        L = w_logger w'
        /\ L = {| l_level := log_level;
                  l_handlers :=
                    [{| h_kind := StreamHandler; h_level := 0;
                        h_format := Some fmt |};
                     {| h_kind := FileHandler (abspath name);
                        h_level := log_file_level;
                        h_format := Some fmt |}] |})
  /\ (forall L w',
        set_logger log_file log_level log_file_level w = (Ok L, w') ->
        (length (l_handlers L) = 1%nat
         <-> log_file = LogNone \/ log_file = LogStr "")
        /\ (length (l_handlers L) = 2%nat
            <-> exists name,
                  (log_file = LogStr name /\ name <> "")
                  \/ log_file = LogPath name))
  /\ (forall e,
        fst (set_logger log_file log_level log_file_level w) = Raise e ->
        l_handlers
          (w_logger (snd (set_logger log_file log_level log_file_level w)))
        = [{| h_kind := StreamHandler; h_level := 0; h_format := Some fmt |}]
        /\ exists name err,
             ((log_file = LogStr name /\ name <> "")
              \/ log_file = LogPath name)
             /\ e = OSError err
             /\ ((path_exists (path_parent name) (w_fs w) = false
                  /\ fst (makedirs (path_parent name) false (w_fs w))
                     = Some err)
                 \/ exists f1,
                      (if path_exists (path_parent name) (w_fs w)
                       then f1 = w_fs w
                       else makedirs (path_parent name) false (w_fs w)
                            = (None, f1))
                      /\ fst (open_a name f1) = Some err)).
Proof.
  rewrite set_logger_unfold.
  assert (forall name,
            (log_file = LogStr name /\ name <> "") \/ log_file = LogPath name ->
            log_file_given log_file = true /\ log_file_name log_file = name)
    as Hgiven.
  { intros name [[-> Hne] | ->]; [|done]. split; [|done].
    cbn [log_file_given]. by destruct (String.eqb_spec name ""). }
  assert (log_file = LogNone \/ log_file = LogStr "" ->
          log_file_given log_file = false) as Habsent.
  { by intros [-> | ->]. }
  assert ((log_file = LogNone \/ log_file = LogStr "")
          \/ exists name, (log_file = LogStr name /\ name <> "")
                          \/ log_file = LogPath name) as Hcases.
  { destruct log_file as [|s|p]; [left; by left| |right; exists p; by right].
    destruct (String.eqb_spec s "") as [->|Hne]; [left; by right|].
    right. exists s. by left. }
  destruct Hcases as [Hno|[name Hyes]].
  - (* log_file absent *)
    rewrite (Habsent Hno). cbn [fst snd]. unfold console_only, console_handler,
      NOTSET. cbn [w_logger set_logger_state l_level l_handlers].
    split; [split; [done|by exists []]|].
    split; [done|]. split.
    { intros n L w' Hn. destruct (Hgiven n Hn) as [Hg _].
      rewrite (Habsent Hno) in Hg. discriminate Hg. }
    split.
    + intros L w' [= <- <-]. cbn [l_handlers length]. split; [done|].
      split; [discriminate|]. intros [n Hn]. destruct (Hgiven n Hn) as [Hg _].
      rewrite (Habsent Hno) in Hg. discriminate Hg.
    + intros e E. discriminate E.
  - (* log_file given *)
    destruct (Hgiven name Hyes) as [Hg Hname]. rewrite Hg.
    assert (~ (log_file = LogNone \/ log_file = LogStr "")) as Hnot.
    { intros Hno. rewrite (Habsent Hno) in Hg. discriminate Hg. }
    unfold open_log_file. rewrite Hname.
    unfold console_and_file, console_only, console_handler, file_handler,
      NOTSET. rewrite Hname.
    destruct (path_exists (path_parent name) (w_fs w)) eqn:Hp.
    + destruct (open_a name (w_fs w)) as [[err|] f] eqn:Ho;
        cbn [fst snd w_logger set_logger_state set_fs l_level l_handlers].
      * split; [split; [done|by exists []]|]. split; [done|].
        split; [intros n L w' _ E; discriminate E|].
        split; [intros L w' E; discriminate E|].
        intros e [= <-]. split; [done|]. exists name, err.
        split; [done|]. split; [done|]. right. exists (w_fs w).
        split; [by rewrite Hp|]. by rewrite Ho.
      * split.
        { split; [done|]. eexists. split; [reflexivity|].
          by repeat constructor. }
        split; [done|]. split.
        { intros n L w' Hn [= <- <-].
          destruct (Hgiven n Hn) as [_ Hn']. rewrite Hname in Hn'. subst n.
          done. }
        split; [|intros e E; discriminate E].
        intros L w' [= <- <-]. cbn [l_handlers length]. split.
        -- split; [discriminate|done].
        -- split; [|done]. intros _. by exists name.
    + destruct (makedirs (path_parent name) false (w_fs w)) as [[err|] f1]
        eqn:Hm.
      * cbn [fst snd w_logger set_logger_state set_fs l_level l_handlers].
        split; [split; [done|by exists []]|]. split; [done|].
        split; [intros n L w' _ E; discriminate E|].
        split; [intros L w' E; discriminate E|].
        intros e [= <-]. split; [done|]. exists name, err.
        split; [done|]. split; [done|]. left. by rewrite Hp, Hm.
      * destruct (open_a name f1) as [[err|] f] eqn:Ho;
          cbn [fst snd w_logger set_logger_state set_fs l_level l_handlers].
        -- split; [split; [done|by exists []]|]. split; [done|].
           split; [intros n L w' _ E; discriminate E|].
           split; [intros L w' E; discriminate E|].
           intros e [= <-]. split; [done|]. exists name, err.
           split; [done|]. split; [done|]. right. exists f1.
           split; [by rewrite Hp|]. by rewrite Ho.
        -- split.
           { split; [done|]. eexists. split; [reflexivity|].
             by repeat constructor. }
           split; [done|]. split.
           { intros n L w' Hn [= <- <-].
             destruct (Hgiven n Hn) as [_ Hn']. rewrite Hname in Hn'.
             subst n. done. }
           split; [|intros e E; discriminate E].
           intros L w' [= <- <-]. cbn [l_handlers length]. split.
           ++ split; [discriminate|done].
           ++ split; [|done]. intros _. by exists name.
Qed.

End SetLoggerFacts.

(** C10 at a concrete input: a relative log file in a directory that is
    made for it. *)
Lemma set_logger_handlers_witness :
  fst (@set_logger Demo.os Demo.web (LogStr "logs/run.log") 20 10 Demo.w0)
  = Ok {| l_level := 20;
          l_handlers :=
            [{| h_kind := StreamHandler; h_level := 0;
                h_format := Some fmt |};
             {| h_kind := FileHandler "/work/logs/run.log"; h_level := 10;
                h_format := Some fmt |}] |}.
Proof.
  destruct (@set_logger_handlers Demo.os Demo.web Demo.w0
              (LogStr "logs/run.log") 20 10) as (_ & _ & Hgiven & _ & _).
  destruct (@set_logger Demo.os Demo.web (LogStr "logs/run.log") 20 10
              Demo.w0) as [[L|e] w'] eqn:E.
  - destruct (Hgiven "logs/run.log" L w') as [_ ->]; [by left|done|].
    reflexivity.
  - exfalso. apply (f_equal fst) in E. vm_compute in E. discriminate E.
Defined.

(** set_logger on the example world: the handler the logger had is gone,
    the log file is created in a directory made for it. *)
Example set_logger_with_file :
  let w := @set_logger_state Demo.os Demo.web Demo.w0
             {| l_level := 30;
                l_handlers := [{| h_kind := StreamHandler; h_level := 10;
                                  h_format := None |}] |} in
  let r := @set_logger Demo.os Demo.web (LogStr "logs/run.log") INFO 10 w in
  fst r
  = Ok {| l_level := 20;
          l_handlers :=
            [console_handler;
             {| h_kind := FileHandler "/work/logs/run.log"; h_level := 10;
                h_format := Some fmt |}] |}
  /\ @open_rb Demo.os "/work/logs/run.log" (w_fs (snd r)) = inr []
  /\ w_logger (snd r) = match fst r with Ok L => L | Raise _ => w_logger w end.
Proof. vm_compute. done. Qed.

Example set_logger_without_file :
  fst (@set_logger Demo.os Demo.web (LogStr "") INFO NOTSET Demo.w0)
  = Ok {| l_level := 20; l_handlers := [console_handler] |}
  /\ fst (@set_logger Demo.os Demo.web LogNone INFO NOTSET Demo.w0)
     = Ok {| l_level := 20; l_handlers := [console_handler] |}.
Proof. vm_compute. done. Qed.

(** A log file below a regular file: the call raises, with the console
    handler already installed. *)
Example set_logger_raises :
  let r := @set_logger Demo.os Demo.web (LogStr "/data/abc.bin/run.log")
             INFO NOTSET Demo.w0 in
  fst r = Raise (OSError NotADirectoryError)
  /\ l_handlers (w_logger (snd r)) = [console_handler].
Proof. vm_compute. done. Qed.

(** ** What download and get_model_file do to the request log and the
    console *)

Section TrafficFacts.
Context `{OS} `{Net}.

(** A computation that neither sends a request nor prints. *)
Definition quiet {A} (m : M A) : Prop :=
  forall w, w_requests (snd (m w)) = w_requests w
            /\ w_stdout (snd (m w)) = w_stdout w.

Lemma quiet_ret {A} (a : A) : quiet (ret a).
Proof. by intros w. Qed.

Lemma quiet_raise {A} (e : exn) : quiet (raise (A := A) e).
Proof. by intros w. Qed.

Lemma quiet_query {A} (q : fs -> A) : quiet (query q).
Proof. by intros w. Qed.

Lemma quiet_act (a : fs -> option os_error * fs) : quiet (act a).
Proof.
  intros w. unfold act. by destruct (a (w_fs w)) as [[e|] f].
Qed.

Lemma quiet_bind {A B} (m : M A) (k : A -> M B) :
  quiet m -> (forall a, quiet (k a)) -> quiet (bind m k).
Proof.
  intros Hm Hk w. rewrite bind_unfold. specialize (Hm w).
  destruct (m w) as [[a|e] w1]; simpl in *; [|done].
  destruct Hm as [Hr0 Hs0]. destruct (Hk a w1) as [Hr Hs].
  split; congruence.
Qed.

Lemma quiet_check_sha1 filename sha1_hash :
  quiet (check_sha1 filename sha1_hash).
Proof. intros w. by rewrite check_sha1_frame. Qed.

Lemma quiet_write_chunks fname skip cs : quiet (write_chunks fname skip cs).
Proof.
  induction cs as [|c r IH]; cbn [write_chunks]; [apply quiet_ret|].
  apply quiet_bind; [|done].
  destruct (skip && is_empty c); [apply quiet_ret|apply quiet_act].
Qed.

Lemma quiet_download_save fname r : quiet (download_save fname r).
Proof.
  unfold download_save. apply quiet_bind; [apply quiet_act|]. intros _.
  assert (forall skip, quiet (write_chunks fname skip (chunks r) ;;
                              end_of_stream r)) as Hs.
  { intros skip. apply quiet_bind; [apply quiet_write_chunks|]. intros _.
    unfold end_of_stream.
    destruct (stream_error r); [apply quiet_raise|apply quiet_ret]. }
  destruct (content_length r) as [s|]; [|done].
  destruct (PyInt.int s) as [n|]; [|apply quiet_raise].
  destruct (PyInt.too_large_for_float n); [apply quiet_raise|done].
Qed.

Lemma quiet_download_verify fname sha1_hash :
  quiet (download_verify fname sha1_hash).
Proof.
  unfold download_verify. destruct sha1_hash as [h|]; [|apply quiet_ret].
  destruct (Py.truthy (Some h)); [|apply quiet_ret].
  apply quiet_bind; [apply quiet_check_sha1|]. intros ok.
  destruct (negb ok); [apply quiet_raise|apply quiet_ret].
Qed.

Lemma quiet_download_needed fname overwrite sha1_hash :
  quiet (download_needed fname overwrite sha1_hash).
Proof.
  unfold download_needed. destruct overwrite; [apply quiet_ret|].
  apply quiet_bind; [apply quiet_query|]. intros present.
  destruct (negb present); [apply quiet_ret|].
  destruct sha1_hash as [h|]; [|apply quiet_ret].
  destruct (Py.truthy (Some h)); [|apply quiet_ret].
  apply quiet_bind; [apply quiet_check_sha1|]. intros ok. apply quiet_ret.
Qed.

(** The line download prints before the request. *)
Definition announcement (fname url : string) : string :=
  "Downloading " +:+ fname +:+ " from " +:+ url +:+ "...".

(** What a run has sent and printed: nothing, or one request to [url]
    after one announcement. *)
Definition at_most_one_request (url : string) (w w' : world) : Prop :=
  (w_requests w' = w_requests w /\ w_stdout w' = w_stdout w)
  \/ (w_requests w' = w_requests w ++ [url]
      /\ exists fname, w_stdout w' = w_stdout w ++ [announcement fname url]).

Lemma download_request_traffic url fname (w : world) :
  match fst (download_request url fname w) with
  | Ok _ =>
      w_requests (snd (download_request url fname w)) = w_requests w ++ [url]
      /\ w_stdout (snd (download_request url fname w))
         = w_stdout w ++ [announcement fname url]
  | Raise _ => True
  end
  /\ at_most_one_request url w (snd (download_request url fname w)).
Proof.
  remember (download_request url fname w) as out eqn:E.
  unfold download_request in E. rewrite bind_unfold in E.
  unfold query at 1 in E. cbv beta iota in E. rewrite bind_unfold in E.
  set (prep := if negb _ then act _ else ret tt) in E.
  assert (quiet prep) as Hq.
  { unfold prep. destruct (negb _); [apply quiet_act|apply quiet_ret]. }
  specialize (Hq w). destruct (prep w) as [[[]|e] w1]; simpl in Hq.
  2:{ subst out. simpl. split; [done|]. by left. }
  destruct Hq as [Hr Hs].
  rewrite bind_unfold in E. unfold print at 1 in E. cbv beta iota in E.
  unfold requests_get in E. cbn [w_net w_requests w_stdout w_fs w_logger] in E.
  unfold at_most_one_request.
  destruct (http_get url (w_net w1)) as [[err|r] n]; subst out; simpl;
    rewrite Hr, Hs; (split; [done|]); right; split; try done;
    by exists fname.
Qed.

Lemma download_io (w : world) (url : string) (path : option string)
    (overwrite : bool) (sha1_hash : option string) :
  at_most_one_request url w (snd (download url path overwrite sha1_hash w)).
Proof.
  unfold download. rewrite bind_unfold. unfold query at 1. cbv beta iota.
  set (fname := download_dest url path (w_fs w)).
  rewrite bind_unfold.
  pose proof (quiet_download_needed fname overwrite sha1_hash w) as Hn.
  destruct (download_needed fname overwrite sha1_hash w) as [[needed|e] w0];
    simpl in Hn; [|by left].
  destruct Hn as [Hr0 Hs0].
  rewrite bind_unfold. destruct needed; [|by left].
  unfold download_fetch. rewrite bind_unfold.
  destruct (download_request_traffic url fname w0) as [Hok Hany].
  destruct (download_request url fname w0) as [[r|e] w1]; simpl in *.
  2:{ unfold at_most_one_request in *. rewrite <- Hr0, <- Hs0. exact Hany. }
  destruct Hok as [Hr1 Hs1].
  assert (forall (m : M unit), quiet m ->
            at_most_one_request url w
              (snd (let (r0, w') := m w1 in
                    match r0 with
                    | Ok _ => ret fname w'
                    | Raise e => (Raise e, w')
                    end))) as Hrest.
  { intros m Hm. specialize (Hm w1).
    destruct (m w1) as [[[]|e] w2]; simpl in *; destruct Hm as [Hr2 Hs2];
      right; (split; [congruence|]); exists fname; congruence. }
  destruct (negb (status_code r =? 200)).
  - apply (Hrest (raise (RuntimeError ("Failed downloading url " +:+ url)))).
    apply quiet_raise.
  - apply (Hrest (download_save fname r ;; download_verify fname sha1_hash)).
    apply quiet_bind; [apply quiet_download_save|].
    intros _. apply quiet_download_verify.
Qed.

Lemma download_unfold (w : world) url path overwrite sha1_hash :
  download url path overwrite sha1_hash w
  = match download_needed (download_dest url path (w_fs w)) overwrite
            sha1_hash w with
    | (Raise e, w0) => (Raise e, w0)
    | (Ok false, w0) => (Ok (download_dest url path (w_fs w)), w0)
    | (Ok true, w0) =>
        match download_fetch url (download_dest url path (w_fs w))
                sha1_hash w0 with
        | (Raise e, w') => (Raise e, w')
        | (Ok _, w') => (Ok (download_dest url path (w_fs w)), w')
        end
    end.
Proof.
  unfold download. rewrite bind_unfold. unfold query at 1. cbv beta iota.
  rewrite bind_unfold.
  destruct (download_needed _ overwrite sha1_hash w) as [[[|]|e] w0];
    try done.
  all: rewrite bind_unfold;
    by destruct (download_fetch _ _ sha1_hash w0) as [[[]|e] w'].
Qed.

Lemma download_fetch_stages url fname sha1_hash (w : world) :
  download_fetch url fname sha1_hash w
  = match download_request url fname w with
    | (Raise e, w1) => (Raise e, w1)
    | (Ok r, w1) =>
        if negb (status_code r =? 200)
        then (Raise (RuntimeError ("Failed downloading url " +:+ url)), w1)
        else match download_save fname r w1 with
             | (Raise e, w2) => (Raise e, w2)
             | (Ok _, w2) => download_verify fname sha1_hash w2
             end
    end.
Proof.
  unfold download_fetch. rewrite bind_unfold.
  destruct (download_request url fname w) as [[r|e] w1]; [|done].
  destruct (negb (status_code r =? 200)); [done|].
  rewrite bind_unfold. by destruct (download_save fname r w1) as [[[]|e] w2].
Qed.

Lemma download_needed_inv fname overwrite sha1_hash (w w0 : world) b :
  download_needed fname overwrite sha1_hash w = (Ok b, w0) ->
  w0 = w
  /\ (b = false ->
      overwrite = false /\ path_exists fname (w_fs w) = true
      /\ forall h, sha1_hash = Some h -> Py.truthy sha1_hash = true ->
                   fst (check_sha1 fname h w) = Ok true).
Proof.
  unfold download_needed. destruct overwrite.
  { intros E. inversion E. done. }
  rewrite bind_unfold. unfold query at 1. cbv beta iota.
  destruct (path_exists fname (w_fs w)) eqn:Hex; cbv beta iota delta [negb].
  2:{ intros E. inversion E. done. }
  destruct sha1_hash as [h|].
  2:{ intros E. inversion E. split; [done|]. intros _.
      repeat split; try done. }
  destruct (Py.truthy (Some h)) eqn:Ht.
  2:{ intros E. inversion E. split; [done|]. intros _.
      repeat split; try done. }
  rewrite bind_unfold, check_sha1_pair.
  destruct (fst (check_sha1 fname h w)) as [ok|e] eqn:Hc; [|discriminate].
  intros E. inversion E; subst. split; [done|].
  intros Hb. destruct ok; [|discriminate Hb].
  repeat split; try done. intros h' Eh _. by inversion Eh; subst.
Qed.

Lemma download_request_files url fname (w w1 : world) r :
  download_request url fname w = (Ok r, w1) ->
  w_fs w1
  = (if path_exists (dirname (abspath (expanduser fname))) (w_fs w)
     then w_fs w
     else snd (makedirs (dirname (abspath (expanduser fname))) false (w_fs w)))
  /\ w_requests w1 = w_requests w ++ [url].
Proof.
  unfold download_request. rewrite bind_unfold.
  unfold query at 1. cbv beta iota. rewrite bind_unfold.
  destruct (path_exists _ (w_fs w)); cbv beta iota delta [negb].
  - unfold ret at 1. rewrite bind_unfold. unfold print at 1. cbv beta iota.
    unfold requests_get. cbn [w_net w_requests w_stdout w_fs w_logger].
    destruct (http_get url (w_net w)) as [[err|r'] n]; intros E;
      inversion E; subst. done.
  - unfold act at 1.
    destruct (makedirs _ false (w_fs w)) as [[e|] f1]; [discriminate|].
    rewrite bind_unfold. unfold print at 1. cbv beta iota.
    unfold requests_get. cbn [w_net w_requests w_stdout w_fs w_logger set_fs].
    destruct (http_get url (w_net w)) as [[err|r'] n]; intros E;
      inversion E; subst. done.
Qed.

(** Whenever download returns and a non-empty hash was expected, the file
    at the returned path passes check_sha1 in the world download leaves
    behind, whether it was fetched or found in place. *)
Theorem download_returns_verified (w : world) (url : string)
    (path : option string) (overwrite : bool) (h v : string) :
  Py.truthy (Some h) = true ->
  fst (download url path overwrite (Some h) w) = Ok v ->
  v = download_dest url path (w_fs w)
  /\ fst (check_sha1 v h (snd (download url path overwrite (Some h) w)))
     = Ok true.
Proof.
  intros Ht. rewrite download_unfold.
  set (fname := download_dest url path (w_fs w)).
  destruct (download_needed fname overwrite (Some h) w) as [[needed|e] w0]
    eqn:En; [|discriminate].
  destruct (download_needed_inv _ _ _ _ _ _ En) as [-> Hkeep].
  destruct needed.
  - rewrite download_fetch_stages.
    destruct (download_request url fname w) as [[r|e] w1]; [|discriminate].
    destruct (negb (status_code r =? 200)); [discriminate|].
    destruct (download_save fname r w1) as [[[]|e] w2]; [|discriminate].
    destruct (download_verify_cases fname (Some h) w2)
      as [[Hf _] | (h' & Eh & _ & Ev)]; [congruence|].
    inversion Eh; subst h'.
    destruct (fst (check_sha1 fname h w2)) as [[|]|e] eqn:Hc.
    + rewrite Ev. simpl. intros E. inversion E. done.
    + rewrite Ev. discriminate.
    + destruct Ev as [Ev _]. rewrite Ev. discriminate.
  - simpl. intros E. inversion E; subst v. split; [done|].
    by apply Hkeep.
Qed.

(** When the server answers with a status other than 200, download raises
    before it opens the destination: one request has been sent, the message
    names the URL, and the file system is as it was, up to the directory
    of the destination that [os.makedirs] may have created. *)
Theorem download_runtime_error_keeps_files (w : world) (url : string)
    (path : option string) (overwrite : bool) (sha1_hash : option string)
    (msg : string) :
  fst (download url path overwrite sha1_hash w) = Raise (RuntimeError msg) ->
  msg = "Failed downloading url " +:+ url
  /\ w_requests (snd (download url path overwrite sha1_hash w))
     = w_requests w ++ [url]
  /\ w_fs (snd (download url path overwrite sha1_hash w))
     = (let dir := dirname (abspath (expanduser
                     (download_dest url path (w_fs w)))) in
        if path_exists dir (w_fs w) then w_fs w
        else snd (makedirs dir false (w_fs w))).
Proof.
  rewrite download_unfold. cbv zeta.
  set (fname := download_dest url path (w_fs w)).
  destruct (download_needed fname overwrite sha1_hash w) as [[needed|e] w0]
    eqn:En.
  2:{ (* check_sha1 on the file in place failed *)
    simpl. intros E. inversion E; subst e. exfalso.
    unfold download_needed in En. destruct overwrite; [discriminate|].
    rewrite bind_unfold in En. unfold query at 1 in En. cbv beta iota in En.
    destruct (negb _); [discriminate|].
    destruct sha1_hash as [h|]; [|discriminate].
    destruct (Py.truthy (Some h)); [|discriminate].
    rewrite bind_unfold, check_sha1_pair in En.
    destruct (fst (check_sha1 fname h w)) as [ok|e] eqn:Hc; [discriminate|].
    inversion En; subst. by apply check_sha1_raises in Hc. }
  destruct (download_needed_inv _ _ _ _ _ _ En) as [-> _].
  destruct needed; [|discriminate].
  rewrite download_fetch_stages.
  destruct (download_request url fname w) as [[r|e] w1] eqn:Er.
  2:{ simpl. intros E. inversion E; subst e.
      by apply download_request_raises in Er. }
  destruct (download_request_files _ _ _ _ _ Er) as [Hfs Hrq].
  destruct (negb (status_code r =? 200)).
  { simpl. intros E. inversion E. done. }
  destruct (download_save fname r w1) as [[[]|e] w2] eqn:Ew.
  2:{ simpl. intros E. inversion E; subst e.
      by apply download_save_raises in Ew. }
  destruct (download_verify_cases fname sha1_hash w2)
    as [[_ Ev] | (h & -> & _ & Ev)].
  { rewrite Ev. discriminate. }
  destruct (fst (check_sha1 fname h w2)) as [[|]|e] eqn:Hc.
  - rewrite Ev. discriminate.
  - rewrite Ev. discriminate.
  - destruct Ev as [Ev Hp]. rewrite Ev. simpl. intros E.
    inversion E; subst e. destruct Hp.
Qed.




End TrafficFacts.

Section ModelFileTraffic.
Context `{OS} `{Net}.
Variable AVAILABLE_MODELS : gmap string (string * string).

Lemma unpack_quiet model_dir (w2 : world) :
  w_requests (snd (unpack model_dir w2)) = w_requests w2
  /\ w_stdout (snd (unpack model_dir w2)) = w_stdout w2.
Proof.
  unfold unpack.
  destruct (extractall _ _ (w_fs w2)) as [[ze|] f3]; try done.
  by destruct (remove _ f3) as [[e|] f4].
Qed.

(** get_model_file goes to the network only for an archive that is not
    there, and then with a single request to the URL registered for the
    model: with the archive in place, an unknown model or a parent
    directory that cannot be made it sends and prints nothing. *)
Theorem get_model_file_traffic (w : world) (model_dir : string) :
  ((fst (makedirs (dirname (expanduser model_dir)) true (w_fs w)) <> None
    \/ path_exists (expanduser model_dir +:+ ".zip")
         (snd (makedirs (dirname (expanduser model_dir)) true (w_fs w)))
       = true
    \/ AVAILABLE_MODELS !! basename (expanduser model_dir) = None) ->
   w_requests (snd (get_model_file AVAILABLE_MODELS model_dir w))
   = w_requests w
   /\ w_stdout (snd (get_model_file AVAILABLE_MODELS model_dir w))
      = w_stdout w)
  /\ (forall v url,
        AVAILABLE_MODELS !! basename (expanduser model_dir) = Some (v, url) ->
        at_most_one_request url w
          (snd (get_model_file AVAILABLE_MODELS model_dir w))).
Proof.
  rewrite get_model_file_unfold.
  destruct (makedirs _ true (w_fs w)) as [[err|] f1]; simpl.
  { split; [done|]. intros v url _. by left. }
  destruct (path_exists _ f1).
  { destruct (unpack_quiet model_dir (set_fs w f1)) as [Hr Hs].
    split; [done|]. intros v url _. by left. }
  destruct (AVAILABLE_MODELS !! _) as [[v0 url0]|]; simpl.
  2:{ split; [done|]. intros v url E. discriminate E. }
  split.
  { intros [Hf|[Hf|Hf]]; [done|discriminate Hf|discriminate Hf]. }
  intros v url E. inversion E; subst v0 url0.
  pose proof (download_io (set_fs w f1) url
                (Some (expanduser model_dir +:+ ".zip")) true None) as Hio.
  destruct (download url _ true None (set_fs w f1)) as [[dest|e] w2];
    simpl in Hio; [|exact Hio].
  destruct (unpack_quiet model_dir w2) as [Hr Hs].
  unfold at_most_one_request in *. rewrite Hr, Hs. exact Hio.
Qed.

End ModelFileTraffic.

(** ** The POSIX instance obeys the laws *)

Module PosixLaws.
Import Posix.

Lemma lookup_insert_same k n t : lookup_node k (insert_node k n t) = Some n.
Proof.
  induction t as [|[k' n'] r IH]; simpl.
  - by destruct (decide (k = k)).
  - destruct (decide (k' = k)) as [->|Hne]; simpl.
    + by destruct (decide (k = k)).
    + by destruct (decide (k' = k)).
Qed.

Lemma lookup_insert_other k k' n t :
  k' <> k -> lookup_node k' (insert_node k n t) = lookup_node k' t.
Proof.
  intros Hne. induction t as [|[k0 n0] r IH]; simpl.
  - destruct (decide (k = k')); [congruence|done].
  - destruct (decide (k0 = k)) as [->|H0]; simpl.
    + destruct (decide (k = k')); [congruence|done].
    + destruct (decide (k0 = k')); [done|apply IH].
Qed.

(** Writing a regular file where one is, or where its parent directory
    is, makes the walk end at the new file. *)
Lemma stat_from_insert_file t c (rest : list string) : forall pre,
  rest <> [] ->
  ((exists b, stat_from t pre rest = inr (File b))
   \/ (stat_from t pre rest = inl FileNotFoundError
       /\ stat_from t pre (removelast rest) = inr Dir)) ->
  stat_from (insert_node (pre ++ rest) (File c) t) pre rest = inr (File c).
Proof.
  induction rest as [|x [|y r] IH]; intros pre Hne Hst; [done| |].
  - cbn [stat_from]. by rewrite lookup_insert_same.
  - cbn [stat_from].
    rewrite lookup_insert_other.
    2:{ intros E. apply (f_equal length) in E. rewrite !length_app in E.
        simpl in E. lia. }
    replace (pre ++ x :: y :: r) with ((pre ++ [x]) ++ y :: r)
      by (by rewrite <- app_assoc).
    cbn [stat_from] in Hst.
    destruct (lookup_node (pre ++ [x]) t) as [[b0|]|] eqn:Hl.
    + destruct Hst as [[b Hb]|[Hf Hd]]; [discriminate Hb|discriminate Hf].
    + apply IH; [done|]. destruct Hst as [[b Hb]|[Hf Hd]].
      * left. by exists b.
      * right. split; [done|].
        change (removelast (x :: y :: r)) with (x :: removelast (y :: r))
          in Hd.
        cbn [stat_from] in Hd. by rewrite Hl in Hd.
    + destruct Hst as [[b Hb]|[Hf Hd]]; [discriminate Hb|].
      change (removelast (x :: y :: r)) with (x :: removelast (y :: r)) in Hd.
      cbn [stat_from] in Hd. rewrite Hl in Hd. discriminate Hd.
Qed.

Lemma put_then_read e p content upd t t' :
  put e p content upd t = (None, t') ->
  exists new,
    posix_open_rb e p t' = inr new
    /\ match posix_open_rb e p t with
       | inr old => new = upd old
       | inl _ => content = Some new
       end.
Proof.
  unfold put, posix_open_rb, stat.
  destruct (key e p) as [k|] eqn:Hk; [|discriminate].
  destruct (stat_from t [] k) as [err|[b|]] eqn:Hs; [| |discriminate].
  - destruct err; try discriminate.
    destruct (stat_from t [] (removelast k)) as [err'|[b'|]] eqn:Hp;
      try discriminate.
    destruct content as [c|]; [|discriminate].
    destruct (ends_with_slash p) eqn:Hsl; [discriminate|].
    intros E. inversion E; subst t'. exists c.
    assert (k <> []) as Hne by (intros ->; discriminate Hs).
    pose proof (stat_from_insert_file t c k [] Hne) as Hi.
    simpl in Hi. rewrite Hi by (right; done). done.
  - destruct (ends_with_slash p) eqn:Hsl; [discriminate|].
    intros E. inversion E; subst t'. exists (upd b).
    assert (k <> []) as Hne by (intros ->; discriminate Hs).
    pose proof (stat_from_insert_file t (upd b) k [] Hne) as Hi.
    simpl in Hi. rewrite Hi by (left; by exists b). done.
Qed.

Lemma laws (e : env) : @OSLaws (Posix.os e).
Proof.
  split.
  - intros p f f' Hw. cbn in *. unfold posix_open_wb in Hw.
    destruct (put_then_read _ _ _ _ _ _ Hw) as (new & Hr & Hold).
    rewrite Hr. f_equal.
    destruct (posix_open_rb e p f); [by inversion Hold|done].
  - intros p data f f' content Hr Hw. cbn in *. unfold posix_write in Hw.
    destruct (put_then_read _ _ _ _ _ _ Hw) as (new & Hr' & Hold).
    rewrite Hr in Hold. by rewrite Hr', Hold.
  - intros p f f' Ha. cbn in *. unfold posix_open_a in Ha.
    destruct (put_then_read _ _ _ _ _ _ Ha) as (new & Hr & Hold).
    rewrite Hr. f_equal.
    destruct (posix_open_rb e p f); [by inversion Hold|done].
Qed.

End PosixLaws.

(** ** What download leaves in the file *)

Section CheckSha1Value.
Context `{OS} `{Net}.

Lemma check_sha1_accepts filename sha1_hash content (w : world) :
  open_rb filename (w_fs w) = inr content ->
  (fst (check_sha1 filename sha1_hash w) = Ok true
   <-> String.prefix sha1_hash (sha1_hex content) = true
       \/ String.prefix (sha1_hex content) sha1_hash = true)
  /\ exists b, fst (check_sha1 filename sha1_hash w) = Ok b.
Proof.
  intros Hopen. unfold check_sha1. rewrite Hopen. cbn [fst].
  rewrite read_loop_whole. split; [|by eexists].
  rewrite <- slice_min_eqb. split.
  - intros E. by inversion E.
  - intros E. by rewrite E.
Qed.

End CheckSha1Value.

Section ContentFacts.
Context `{OS} `{Net} `{!OSLaws}.

Lemma write_chunks_content fname skip cs : forall (w w' : world) content,
  open_rb fname (w_fs w) = inr content ->
  write_chunks fname skip cs w = (Ok tt, w') ->
  open_rb fname (w_fs w') = inr (content ++ concat cs).
Proof.
  induction cs as [|c r IH]; intros w w' content Hr; cbn [write_chunks].
  - intros E. inversion E; subst. by rewrite app_nil_r.
  - rewrite bind_unfold. destruct (skip && is_empty c) eqn:Hsk.
    + unfold ret at 1. cbv beta iota. intros Hw.
      apply andb_prop in Hsk as [_ Hc]. destruct c; [|discriminate Hc].
      simpl. by apply (IH w).
    + unfold act at 1.
      destruct (write fname c (w_fs w)) as [[e|] f1] eqn:Hw1; [discriminate|].
      intros Hw. simpl. rewrite app_assoc.
      apply (IH (set_fs w f1)); [|done]. simpl.
      by apply (write_appends fname c (w_fs w)).
Qed.

Lemma download_save_content fname r (w w' : world) :
  download_save fname r w = (Ok tt, w') ->
  open_rb fname (w_fs w') = inr (concat (chunks r)).
Proof.
  unfold download_save. rewrite bind_unfold. unfold act at 1.
  destruct (open_wb fname (w_fs w)) as [[e|] f1] eqn:Ho; [discriminate|].
  assert (forall skip,
            (write_chunks fname skip (chunks r) ;; end_of_stream r)
              (set_fs w f1) = (Ok tt, w') ->
            open_rb fname (w_fs w') = inr (concat (chunks r))) as Hloop.
  { intros skip. rewrite bind_unfold.
    destruct (write_chunks fname skip (chunks r) (set_fs w f1))
      as [[[]|e] w2] eqn:Hw; [|discriminate].
    unfold end_of_stream. destruct (stream_error r); [discriminate|].
    intros E. inversion E; subst w2.
    apply (write_chunks_content _ _ _ _ _ [] ) in Hw; [done|].
    simpl. by apply (open_wb_empty fname (w_fs w)). }
  destruct (content_length r) as [s|]; [|apply Hloop].
  destruct (PyInt.int s) as [n|]; [|discriminate].
  destruct (PyInt.too_large_for_float n); [discriminate|apply Hloop].
Qed.

(** When download fetches and returns, the destination holds exactly the
    bytes of the response, chunk after chunk, and when a hash was expected
    the digest of those bytes and the hash agree (one starts the
    other). *)
Theorem download_stores_body (w : world) (url : string)
    (path : option string) (overwrite : bool) (sha1_hash : option string)
    (v : string) :
  fetch_decided (download_dest url path (w_fs w)) overwrite sha1_hash w ->
  fst (download url path overwrite sha1_hash w) = Ok v ->
  exists r w1,
    download_request url v w = (Ok r, w1)
    /\ open_rb v (w_fs (snd (download url path overwrite sha1_hash w)))
       = inr (concat (chunks r))
    /\ forall h, sha1_hash = Some h -> Py.truthy sha1_hash = true ->
         String.prefix h (sha1_hex (concat (chunks r))) = true
         \/ String.prefix (sha1_hex (concat (chunks r))) h = true.
Proof.
  intros Hd. rewrite (download_fetch_unfold _ _ _ _ _ Hd).
  set (fname := download_dest url path (w_fs w)).
  destruct (download_request url fname w) as [[r|e] w1] eqn:Er;
    [|discriminate].
  destruct (negb (status_code r =? 200)); [discriminate|].
  destruct (download_save fname r w1) as [[[]|e] w2] eqn:Ew; [|discriminate].
  pose proof (download_save_content _ _ _ _ Ew) as Hbody.
  destruct (download_verify_cases fname sha1_hash w2)
    as [[Ht Ev] | (h & -> & Ht & Ev)].
  - rewrite Ev. simpl. intros E. inversion E; subst v.
    exists r, w1. repeat split; try done. intros h _ Ht'. congruence.
  - destruct (fst (check_sha1 fname h w2)) as [[|]|e] eqn:Hc.
    + rewrite Ev. simpl. intros E. inversion E; subst v.
      exists r, w1. repeat split; try done.
      intros h' Eh _. inversion Eh; subst h'.
      by apply (check_sha1_accepts fname h _ w2 Hbody).
    + rewrite Ev. discriminate.
    + destruct Ev as [Ev _]. rewrite Ev. discriminate.
Qed.


End ContentFacts.

(** ** The download properties on the example worlds *)

Abbreviation scenario_download := (@download Demo.os Scenario.web).

Lemma download_returns_verified_witness :
  "/data/abc.bin" = @download_dest Demo.os "http://host/abc.bin"
                      (Some "/data") (w_fs Scenario.w0)
  /\ fst (@check_sha1 Demo.os Scenario.web "/data/abc.bin"
            "a9993e364706816aba3e25717850c26c9cd0d89d"
            (snd (scenario_download "http://host/abc.bin" (Some "/data") true
                    (Some "a9993e364706816aba3e25717850c26c9cd0d89d")
                    Scenario.w0)))
     = Ok true.
Proof.
  apply (@download_returns_verified Demo.os Scenario.web Scenario.w0).
  - reflexivity.
  - vm_compute. reflexivity.
Defined.

Lemma download_runtime_error_keeps_files_witness :
  "Failed downloading url http://host/gone.zip"
  = "Failed downloading url " +:+ "http://host/gone.zip"
  /\ w_requests (snd (scenario_download "http://host/gone.zip"
                        (Some "/data/abc.bin") true None Scenario.w0))
     = w_requests Scenario.w0 ++ ["http://host/gone.zip"]
  /\ w_fs (snd (scenario_download "http://host/gone.zip"
                  (Some "/data/abc.bin") true None Scenario.w0))
     = (let dir := @dirname Demo.os (@abspath Demo.os (@expanduser Demo.os
                     (@download_dest Demo.os "http://host/gone.zip"
                        (Some "/data/abc.bin") (w_fs Scenario.w0)))) in
        if @path_exists Demo.os dir (w_fs Scenario.w0)
        then w_fs Scenario.w0
        else snd (@makedirs Demo.os dir false (w_fs Scenario.w0))).
Proof.
  apply (@download_runtime_error_keeps_files Demo.os Scenario.web Scenario.w0
           "http://host/gone.zip" (Some "/data/abc.bin") true None).
  vm_compute. reflexivity.
Defined.

Lemma download_stores_body_witness :
  exists r w1,
    @download_request Demo.os Scenario.web "http://host/nolen.bin"
      "/data/new.bin" Scenario.w0 = (Ok r, w1)
    /\ @open_rb Demo.os "/data/new.bin"
         (w_fs (snd (scenario_download "http://host/nolen.bin"
                       (Some "/data/new.bin") false (Some "a9993e")
                       Scenario.w0)))
       = inr (concat (chunks r))
    /\ forall h, Some "a9993e" = Some h -> Py.truthy (Some "a9993e") = true ->
         String.prefix h (sha1_hex (concat (chunks r))) = true
         \/ String.prefix (sha1_hex (concat (chunks r))) h = true.
Proof.
  apply (@download_stores_body Demo.os Scenario.web (PosixLaws.laws Demo.env)
           Scenario.w0 "http://host/nolen.bin" (Some "/data/new.bin") false
           (Some "a9993e") "/data/new.bin").
  - right. left. vm_compute. reflexivity.
  - vm_compute. reflexivity.
Defined.

Example download_skips_empty_chunks :
  @open_rb Demo.os "/data/new.bin"
    (w_fs (snd (scenario_download "http://host/nolen.bin"
                  (Some "/data/new.bin") false None Scenario.w0)))
  = inr (bytes_of_string "abc")
  /\ @open_rb Demo.os "/data/new.bin"
       (w_fs (snd (scenario_download "http://host/abc.bin"
                     (Some "/data/new.bin") false None Scenario.w0)))
     = inr (bytes_of_string "abc").
Proof. vm_compute. done. Qed.


(** ** More on check_sha1: which expected hashes pass *)

Definition hex_chars : list ascii :=
  list_ascii_of_string "0123456789abcdef".

Lemma hex_digit_in (z : Z) : In (SHA1.hex_digit z) hex_chars.
Proof.
  unfold SHA1.hex_digit.
  assert (0 <= z mod 16 < 16) as Hz by (apply Z.mod_pos_bound; lia).
  assert (Z.to_nat (z mod 16) < 16)%nat as Hn by lia.
  fold hex_chars. apply nth_In. exact Hn.
Qed.

Lemma list_ascii_app (a b : string) :
  list_ascii_of_string (a +:+ b)
  = list_ascii_of_string a ++ list_ascii_of_string b.
Proof.
  induction a as [|c a IH]; [reflexivity|].
  rewrite append_cons. simpl. by rewrite IH.
Qed.

Lemma hex32_chars (w : Z) :
  Forall (fun c => In c hex_chars) (list_ascii_of_string (SHA1.hex32 w)).
Proof.
  unfold SHA1.hex32. rewrite list_ascii_of_string_of_list_ascii.
  apply Forall_map. apply Forall_forall. intros i _. apply hex_digit_in.
Qed.

(** The digest is written with the digits 0-9 and a-f only. *)
Lemma sha1_hex_chars (content : list byte) :
  Forall (fun c => In c hex_chars) (list_ascii_of_string (sha1_hex content)).
Proof.
  unfold sha1_hex, SHA1.hex. rewrite !list_ascii_app.
  repeat (apply Forall_app; split); apply hex32_chars.
Qed.

Lemma get_list_ascii (s : string) (i : nat) :
  String.get i s = list_ascii_of_string s !! i.
Proof.
  revert i. induction s as [|c s IH]; intros [|i]; simpl; try done.
Qed.

Lemma prefix_get (p s : string) (i : nat) (c : ascii) :
  String.prefix p s = true -> String.get i p = Some c ->
  String.get i s = Some c.
Proof.
  revert s i. induction p as [|a p IH]; intros s i Hp Hg; [done|].
  destruct s as [|b s]; simpl in Hp; [discriminate|].
  destruct (ascii_dec a b) as [->|]; [|discriminate].
  destruct i as [|i]; simpl in *; [done|]. by apply IH.
Qed.

Lemma prefix_substring (n : nat) (s : string) :
  String.prefix (substring 0 n s) s = true.
Proof.
  revert n. induction s as [|c s IH]; intros [|n]; simpl; try done.
  destruct (ascii_dec c c); [apply IH|done].
Qed.

Lemma prefix_append (s t : string) : String.prefix s (s +:+ t) = true.
Proof.
  induction s as [|c s IH]; [by destruct t|].
  rewrite append_cons. simpl. by destruct (ascii_dec c c).
Qed.

Section CheckSha1Edges.
Context `{OS} `{Net}.

(** On a readable file check_sha1 accepts every truncation of the digest,
    the empty string included, and every string that starts with the
    digest, whatever follows it. *)
Theorem check_sha1_accepts_truncated_and_extended (w : world)
    (filename : string) (content : list byte) :
  open_rb filename (w_fs w) = inr content ->
  (forall n : nat,
     fst (check_sha1 filename (substring 0 n (sha1_hex content)) w) = Ok true)
  /\ fst (check_sha1 filename "" w) = Ok true
  /\ (forall junk : string,
        fst (check_sha1 filename (sha1_hex content +:+ junk) w) = Ok true).
Proof.
  intros Hopen. repeat split.
  - intros n. apply (check_sha1_accepts filename _ content w Hopen).
    left. apply prefix_substring.
  - apply (check_sha1_accepts filename _ content w Hopen). by left.
  - intros junk. apply (check_sha1_accepts filename _ content w Hopen).
    right. apply prefix_append.
Qed.

(** check_sha1 is case-sensitive: an expected hash it accepts is written,
    on its first 40 characters, with the digits 0-9 and the lower-case
    letters a-f. *)
Theorem check_sha1_lower_case_only (w : world) (filename sha1_hash : string)
    (content : list byte) :
  open_rb filename (w_fs w) = inr content ->
  fst (check_sha1 filename sha1_hash w) = Ok true ->
  forall (i : nat) (c : ascii),
    (i < 40)%nat -> String.get i sha1_hash = Some c -> In c hex_chars.
Proof.
  intros Hopen Hok i c Hi Hg.
  apply (check_sha1_accepts filename _ content w Hopen) in Hok.
  pose proof (sha1_hex_chars content) as Hall.
  rewrite Forall_forall in Hall. apply Hall.
  apply list_elem_of_lookup. exists i.
  rewrite <- get_list_ascii.
  destruct Hok as [Hp|Hp].
  - by apply (prefix_get sha1_hash).
  - destruct (String.get i (sha1_hex content)) as [c'|] eqn:Hd.
    + pose proof (prefix_get _ _ _ _ Hp Hd) as Hg'. congruence.
    + exfalso. rewrite get_list_ascii in Hd.
      apply lookup_ge_None in Hd.
      assert (length (list_ascii_of_string (sha1_hex content)) = 40%nat)
        as Hlen.
      { rewrite <- (sha1_hex_length content).
        generalize (sha1_hex content). intros s.
        induction s as [|a s IH]; simpl; [done|]. by rewrite IH. }
      lia.
Qed.

End CheckSha1Edges.

Lemma check_sha1_accepts_truncated_and_extended_witness :
  fst (@check_sha1 Demo.os Demo.web "/data/abc.bin" "" Demo.w0) = Ok true.
Proof.
  assert (@open_rb Demo.os "/data/abc.bin" (w_fs Demo.w0)
          = inr (bytes_of_string "abc")) as Hopen by reflexivity.
  exact (proj1 (proj2 (@check_sha1_accepts_truncated_and_extended
                         Demo.os Demo.web Demo.w0 "/data/abc.bin"
                         (bytes_of_string "abc") Hopen))).
Defined.

Lemma check_sha1_lower_case_only_witness :
  String.get 5 "a9993e" = Some "e"%char /\ In "e"%char hex_chars.
Proof.
  split; [reflexivity|].
  apply (@check_sha1_lower_case_only Demo.os Demo.web Demo.w0
           "/data/abc.bin" "a9993e" (bytes_of_string "abc") eq_refl eq_refl
           5%nat "e"%char); [lia|reflexivity].
Defined.

Example check_sha1_rejects_upper_case :
  fst (@check_sha1 Demo.os Demo.web "/data/abc.bin"
         "A9993E364706816ABA3E25717850C26C9CD0D89D" Demo.w0) = Ok false.
Proof. vm_compute. reflexivity. Qed.

(** ** More on read_charset: the list against the text of the file *)

(** Each entry followed by a newline, one after the other. *)
Definition unlines (alphabet : list string) : string :=
  fold_right (fun a rest => a +:+ String newline rest) "" alphabet.

Definition no_newline (s : string) : Prop :=
  newline ∉ list_ascii_of_string s.

Fixpoint ends_with_newline (s : string) : bool :=
  match s with
  | EmptyString => false
  | String c EmptyString => Ascii.eqb c newline
  | String _ r => ends_with_newline r
  end.

Lemma append_assoc (a b c : string) : (a +:+ b) +:+ c = a +:+ (b +:+ c).
Proof.
  induction a as [|x a IH]; [done|]. rewrite !append_cons. by rewrite IH.
Qed.

Lemma no_newline_snoc (cur : string) (c : ascii) :
  no_newline cur -> c <> newline -> no_newline (cur +:+ String c "").
Proof.
  unfold no_newline. rewrite list_ascii_app. cbn [list_ascii_of_string].
  intros Hc Hne Hin. apply elem_of_app in Hin as [Hin|Hin]; [done|].
  apply list_elem_of_singleton in Hin. congruence.
Qed.

Lemma drop_newlines_id (cs : list ascii) :
  head cs <> Some newline -> drop_newlines cs = cs.
Proof.
  destruct cs as [|c r]; [done|]. simpl. intros Hh.
  destruct (Ascii.eqb_spec c newline); [congruence|done].
Qed.

Lemma rstrip_newline_clean (s : string) :
  no_newline s -> rstrip_newline s = s.
Proof.
  unfold no_newline, rstrip_newline. intros Hs.
  rewrite drop_newlines_id.
  - by rewrite rev_involutive, string_of_list_ascii_of_string.
  - intros Hh. apply Hs.
    destruct (rev (list_ascii_of_string s)) as [|c r] eqn:E; [done|].
    simpl in Hh. inversion Hh; subst.
    rewrite <- (rev_involutive (list_ascii_of_string s)), E.
    cbn [rev]. apply elem_of_app. right. by apply list_elem_of_singleton.
Qed.

Lemma rstrip_newline_snoc (s : string) :
  rstrip_newline (s +:+ String newline "") = rstrip_newline s.
Proof.
  unfold rstrip_newline. rewrite list_ascii_app. cbn [list_ascii_of_string].
  rewrite rev_app_distr. cbn [rev app drop_newlines].
  by rewrite Ascii.eqb_refl.
Qed.

(** The stripped lines hold no newline, and put one after the other, each
    with its newline, they give the text read so far, with the newline the
    last line may lack. *)
Lemma lines_from_unlines (s : string) : forall cur,
  no_newline cur ->
  Forall no_newline (map rstrip_newline (lines_from cur s))
  /\ (unlines (map rstrip_newline (lines_from cur s)) = cur +:+ s
      \/ unlines (map rstrip_newline (lines_from cur s))
         = (cur +:+ s) +:+ String newline "").
Proof.
  induction s as [|c r IH]; intros cur Hcur; cbn [lines_from].
  - destruct (String.eqb_spec cur "") as [->|Hne]; cbn [map unlines fold_right].
    + split; [constructor|]. by left.
    + rewrite (rstrip_newline_clean _ Hcur). split; [by repeat constructor|].
      right. by rewrite append_empty.
  - destruct (Ascii.eqb_spec c newline) as [->|Hne].
    + cbn [map unlines fold_right]. rewrite rstrip_newline_snoc.
      rewrite (rstrip_newline_clean _ Hcur).
      destruct (IH "") as [Hall Hjoin].
      { unfold no_newline. simpl. apply not_elem_of_nil. }
      split; [by constructor|].
      change (foldr _ _ ?l) with (unlines l).
      change ("" +:+ r) with r in Hjoin.
      destruct Hjoin as [Hj|Hj]; rewrite Hj; [by left|right].
      rewrite append_assoc. reflexivity.
    + destruct (IH (cur +:+ String c "")) as [Hall Hjoin].
      { by apply no_newline_snoc. }
      split; [done|]. rewrite append_snoc in Hjoin. done.
Qed.

Lemma ends_with_newline_app (a r : string) :
  r <> "" -> ends_with_newline (a +:+ r) = ends_with_newline r.
Proof.
  intros Hr. induction a as [|c a IH]; [done|].
  rewrite append_cons. cbn [ends_with_newline]. rewrite IH.
  destruct (a +:+ r) eqn:E; [|done]. by destruct a, r.
Qed.

(** A final newline after a last line that is not empty adds no line. *)
Lemma lines_from_final_newline (s : string) : forall cur,
  cur +:+ s <> "" -> ends_with_newline (cur +:+ s) = false ->
  map rstrip_newline (lines_from cur (s +:+ String newline ""))
  = map rstrip_newline (lines_from cur s).
Proof.
  induction s as [|c r IH]; intros cur Hne Hend.
  - rewrite append_empty in Hne. simpl.
    destruct (String.eqb_spec cur ""); [done|].
    simpl. by rewrite rstrip_newline_snoc.
  - rewrite append_cons. cbn [lines_from].
    destruct (Ascii.eqb_spec c newline) as [->|Hc].
    + cbn [map]. f_equal.
      rewrite ends_with_newline_app in Hend by done.
      apply IH; change ("" +:+ r) with r.
      * intros ->. simpl in Hend. discriminate Hend.
      * by destruct r.
    + apply IH; by rewrite append_snoc.
Qed.

Section ReadCharsetText.
Context `{OS} `{Net}.


(** Whether the last line of the file ends with a newline makes no
    difference to what read_charset returns or raises. *)
Theorem read_charset_final_newline (w1 w2 : world) (fp1 fp2 text : string) :
  open_text fp1 (w_fs w1) = inr text ->
  open_text fp2 (w_fs w2) = inr (text +:+ String newline "") ->
  text <> "" -> ends_with_newline text = false ->
  fst (read_charset fp1 w1) = fst (read_charset fp2 w2).
Proof.
  intros H1 H2 Hne Hend. unfold read_charset. rewrite H1, H2.
  unfold file_lines. rewrite (lines_from_final_newline text "" Hne Hend).
  by destruct (negb _).
Qed.

End ReadCharsetText.


Lemma read_charset_final_newline_witness :
  fst (@read_charset Demo.os Demo.web "/data/charset.txt" Demo.w0)
  = fst (@read_charset Demo.os Demo.web "/data/charset_nl.txt" Scenario.w1).
Proof.
  apply (@read_charset_final_newline Demo.os Demo.web Demo.w0 Scenario.w1
           "/data/charset.txt" "/data/charset_nl.txt"
           ("a" +:+ String "010" ("b" +:+ String "010" "c"))).
  - reflexivity.
  - reflexivity.
  - discriminate.
  - reflexivity.
Defined.

(** ** read_charset: the outcome *)

(** The text with the newline its last line may lack. *)
Definition closed_text (text : string) : string :=
  if String.eqb text "" || ends_with_newline text then text
  else text +:+ String newline "".

(** [lines] are the lines of [text] without their newline: none holds a
    newline, and each followed by a newline they spell the text. *)
Definition stripped_lines (text : string) (lines : list string) : Prop :=
  Forall no_newline lines /\ unlines lines = closed_text text.

Lemma no_newline_ends (s : string) :
  no_newline s -> ends_with_newline s = false.
Proof.
  unfold no_newline. induction s as [|c [|c' r] IH]; [done| |].
  - intros Hn. cbn [ends_with_newline]. apply Ascii.eqb_neq. intros ->.
    apply Hn. simpl. apply list_elem_of_here.
  - intros Hn. change (ends_with_newline (String c (String c' r)))
      with (ends_with_newline (String c' r)).
    apply IH. intros Hin. apply Hn.
    change (list_ascii_of_string (String c (String c' r)))
      with (c :: list_ascii_of_string (String c' r)).
    by apply list_elem_of_further.
Qed.

Lemma closed_text_after_newline (a r : string) :
  closed_text (a +:+ String newline r) = a +:+ String newline (closed_text r).
Proof.
  unfold closed_text.
  assert ((a +:+ String newline r =? "")%string = false) as ->.
  { apply String.eqb_neq. by destruct a. }
  cbn [orb]. rewrite ends_with_newline_app by done.
  destruct r as [|c r]; [reflexivity|].
  change (ends_with_newline (String newline (String c r)))
    with (ends_with_newline (String c r)).
  cbn [String.eqb orb].
  destruct (ends_with_newline (String c r)); [done|].
  rewrite append_assoc. reflexivity.
Qed.

Lemma lines_from_closed (s : string) : forall cur,
  no_newline cur ->
  unlines (map rstrip_newline (lines_from cur s)) = closed_text (cur +:+ s).
Proof.
  induction s as [|c r IH]; intros cur Hcur; cbn [lines_from].
  - rewrite append_empty. unfold closed_text.
    destruct (String.eqb_spec cur "") as [->|Hne]; [done|].
    cbn [map unlines fold_right orb].
    rewrite (rstrip_newline_clean _ Hcur), (no_newline_ends _ Hcur). done.
  - destruct (Ascii.eqb_spec c newline) as [->|Hne].
    + cbn [map]. rewrite rstrip_newline_snoc, (rstrip_newline_clean _ Hcur).
      change (unlines (cur :: ?l)) with (cur +:+ String newline (unlines l)).
      rewrite (IH ""); [|unfold no_newline; simpl; apply not_elem_of_nil].
      change ("" +:+ r) with r. by rewrite closed_text_after_newline.
    + rewrite (IH (cur +:+ String c "")) by (by apply no_newline_snoc).
      by rewrite append_snoc.
Qed.

Lemma newline_split (a b x y : string) :
  no_newline a -> no_newline b ->
  a +:+ String newline x = b +:+ String newline y -> a = b /\ x = y.
Proof.
  unfold no_newline. revert b. induction a as [|c a IH]; intros b Ha Hb E.
  - destruct b as [|d b]; [by inversion E|].
    rewrite append_cons in E. inversion E; subst.
    destruct Hb. simpl. apply list_elem_of_here.
  - destruct b as [|d b].
    + rewrite append_cons in E. inversion E; subst.
      destruct Ha. simpl. apply list_elem_of_here.
    + rewrite !append_cons in E. inversion E; subst.
      destruct (IH b) as [-> ->]; [| |done|done].
      * intros Hin. apply Ha. simpl. by apply list_elem_of_further.
      * intros Hin. apply Hb. simpl. by apply list_elem_of_further.
Qed.

(** The lines of a text are determined by the text. *)
Lemma unlines_inj (l : list string) : forall l',
  Forall no_newline l -> Forall no_newline l' ->
  unlines l = unlines l' -> l = l'.
Proof.
  induction l as [|a l IH]; intros [|b l'] Hl Hl' E; [done| | |].
  - cbn [unlines fold_right] in E. by destruct b.
  - cbn [unlines fold_right] in E. by destruct a.
  - inversion Hl as [|? ? Ha Hl0]; subst.
    inversion Hl' as [|? ? Hb Hl0']; subst.
    change (a +:+ String newline (unlines l)
            = b +:+ String newline (unlines l')) in E.
    destruct (newline_split a b _ _ Ha Hb E) as [-> E'].
    f_equal. by apply IH.
Qed.

Section ReadCharsetFacts.
Context `{OS} `{Net}.

(** C9: on a charset file that opens and decodes, the lines of the file
    without their trailing newline form one list, fixed by the text alone;
    read_charset raises ValueError exactly when two of them are equal;
    otherwise it returns that list, in file order, together with a dict
    that maps the line at each index to that index and has no other key.
    The world is left as it was. *)
Theorem read_charset_outcome (w : world) (charset_fp text : string) :
  open_text charset_fp (w_fs w) = inr text ->
  exists lines : list string,
    stripped_lines text lines
    /\ (forall l, stripped_lines text l -> l = lines)
    /\ (fst (read_charset charset_fp w) = Raise ValueError
        <-> repeated_line lines)
    /\ (~ repeated_line lines ->
        exists d : gmap string nat,
          read_charset charset_fp w = (Ok (lines, d), w)
          /\ (forall i c, lines !! i = Some c <-> d !! c = Some i)
          /\ size d = length lines).
Proof.
  intros Hopen.
  set (alphabet := map rstrip_newline (file_lines text)).
  assert (no_newline "") as Hempty.
  { unfold no_newline. simpl. apply not_elem_of_nil. }
  assert (stripped_lines text alphabet) as Hs.
  { split; [apply (lines_from_unlines text "" Hempty)|].
    apply (lines_from_closed text "" Hempty). }
  exists alphabet. split; [exact Hs|]. split.
  { intros l [Hl El]. destruct Hs as [Ha Ea].
    apply unlines_inj; [done|done|congruence]. }
  unfold read_charset. rewrite Hopen. fold alphabet.
  rewrite repeated_line_NoDup.
  destruct (Nat.eqb_spec (length alphabet) (size (inv_dict alphabet)))
    as [Heq|Hne]; simpl.
  - assert (NoDup alphabet) as Hnd by (by apply inv_dict_size).
    split; [split; [discriminate|done]|].
    intros _. exists (inv_dict alphabet). split; [done|]. split; [|done].
    assert (forall i c, alphabet !! i = Some c ->
                        inv_dict alphabet !! c = Some i) as Hfwd.
    { intros i c Hi. unfold inv_dict.
      by rewrite (inv_dict_from_lookup _ 0%nat ∅ i c Hnd Hi). }
    intros i c. split; [apply Hfwd|].
    intros Hc. assert (c ∈ alphabet) as Hin.
    { assert (c ∈ dom (inv_dict alphabet)) as Hd
        by (apply elem_of_dom; eauto).
      unfold inv_dict in Hd.
      rewrite inv_dict_from_dom, dom_empty_L, (right_id_L ∅ (∪)) in Hd.
      by apply elem_of_list_to_set in Hd. }
    apply list_elem_of_lookup in Hin as [j Hj].
    pose proof (Hfwd _ _ Hj) as Hc'. congruence.
  - assert (~ NoDup alphabet) as Hnd.
    { intros Hnd. apply inv_dict_size in Hnd. lia. }
    split; [done|]. intros Hnn. by destruct Hnn.
Qed.

End ReadCharsetFacts.

(** C9 at a concrete input: three different lines, the last one without
    newline. *)
Lemma read_charset_outcome_witness :
  exists d : gmap string nat,
    @read_charset Demo.os Demo.web "/data/charset.txt" Demo.w0
    = (Ok (["a"; "b"; "c"], d), Demo.w0)
    /\ d !! "a" = Some 0%nat /\ d !! "b" = Some 1%nat
    /\ d !! "c" = Some 2%nat /\ size d = 3%nat.
Proof.
  destruct (@read_charset_outcome Demo.os Demo.web Demo.w0 "/data/charset.txt"
              ("a" +:+ String "010" ("b" +:+ String "010" "c")) eq_refl)
    as (lines & _ & Huniq & _ & Hok).
  assert (lines = ["a"; "b"; "c"]) as ->.
  { symmetry. apply Huniq. split; [|reflexivity].
    repeat constructor; unfold no_newline; simpl; intros Hin;
      apply list_elem_of_singleton in Hin; discriminate Hin. }
  destruct Hok as (d & Hd & Hlook & Hsize).
  { rewrite repeated_line_NoDup. intros Hn. apply Hn.
    exact (bool_decide_unpack (NoDup ["a"; "b"; "c"]) I). }
  exists d. split; [exact Hd|].
  repeat split; [apply (Hlook 0%nat)|apply (Hlook 1%nat)|apply (Hlook 2%nat)
                 |exact Hsize]; reflexivity.
Defined.

(** ** More on normalize_img_array and restore_img: shapes and order *)

Definition three_channels {A} (img : ndarray A) : Prop :=
  Forall (Forall (fun pixel : list A => length pixel = 3%nat)) img.


(** The shape of an array: per row, the number of channels of each
    pixel. *)
Definition shape {A} (img : ndarray A) : list (list nat) :=
  map (map (@length A)) img.





Lemma three_channels_map_entries {A B} (f : A -> B) (img : ndarray A) :
  three_channels (map_entries f img) <-> three_channels img.
Proof.
  unfold three_channels, map_entries. rewrite Forall_map.
  apply Forall_proper; [|done]. intros row. rewrite Forall_map.
  apply Forall_proper; [|done]. intros px. by rewrite length_map.
Qed.




Example normalize_grey_image :
  normalize_img_array [[[7]; [9]]] = Raise ValueError
  /\ normalize_img_array [[[1; 2; 3; 255]]] = Raise ValueError.
Proof. repeat split. Qed.

(** *** Order *)

Definition below (c : nat) (x : Z) : bool :=
  negb (Qle_bool (IEEE.to_Q (normalize_entry c (x + 1)))
                 (IEEE.to_Q (normalize_entry c x))).

(** Each 8-bit value normalises below the next one, in every channel. *)
Lemma all_entries_below_next :
  forallb (fun c => forallb (below c) (removelast uint8_values)) [0; 1; 2]%nat
  = true.
Proof. vm_compute. reflexivity. Qed.

Lemma entry_below_next (c : nat) (x : Z) :
  (c < 3)%nat -> 0 <= x < 255 ->
  (IEEE.to_Q (normalize_entry c x)
   < IEEE.to_Q (normalize_entry c (x + 1)))%Q.
Proof.
  intros Hc Hx. pose proof all_entries_below_next as Ha.
  rewrite forallb_forall in Ha.
  assert (In c [0; 1; 2]%nat) as Hin.
  { destruct c as [|[|[|c]]]; simpl; auto. lia. }
  specialize (Ha c Hin). rewrite forallb_forall in Ha.
  assert (In x (removelast uint8_values)) as Hx'.
  { unfold uint8_values.
    replace (seq 0 256) with (seq 0 255 ++ [255%nat]) by reflexivity.
    rewrite map_app. cbn [map]. rewrite removelast_last.
    apply in_map_iff. exists (Z.to_nat x). split; [lia|].
    apply in_seq. lia. }
  specialize (Ha x Hx'). unfold below in Ha.
  apply negb_true_iff in Ha. apply Qnot_le_lt. intros Hle.
  apply Qle_bool_iff in Hle. congruence.
Qed.

Lemma entry_increasing (c : nat) (x y : Z) :
  (c < 3)%nat -> 0 <= x -> x < y -> y <= 255 ->
  (IEEE.to_Q (normalize_entry c x) < IEEE.to_Q (normalize_entry c y))%Q.
Proof.
  intros Hc Hx Hxy Hy.
  assert (exists n : nat, y = x + 1 + Z.of_nat n) as [n ->].
  { exists (Z.to_nat (y - x - 1)). lia. }
  clear Hxy. induction n as [|n IH].
  - rewrite Z.add_0_r. apply entry_below_next; [done|lia].
  - eapply Qlt_trans; [apply IH; lia|].
    replace (x + 1 + Z.of_nat (S n)) with (x + 1 + Z.of_nat n + 1) by lia.
    apply entry_below_next; [done|lia].
Qed.

Lemma entry_injective (c : nat) (x y : Z) :
  (c < 3)%nat -> 0 <= x <= 255 -> 0 <= y <= 255 ->
  normalize_entry c x = normalize_entry c y -> x = y.
Proof.
  intros Hc Hx Hy Heq.
  destruct (Z.lt_trichotomy x y) as [Hlt|[->|Hlt]]; [|done|].
  - pose proof (entry_increasing c x y Hc ltac:(lia) Hlt ltac:(lia)) as Hq.
    rewrite Heq in Hq. by apply Qlt_irrefl in Hq.
  - pose proof (entry_increasing c y x Hc ltac:(lia) Hlt ltac:(lia)) as Hq.
    rewrite Heq in Hq. by apply Qlt_irrefl in Hq.
Qed.

Lemma normalize_pixel_injective (p q : list Z) :
  length p = 3%nat /\ Forall (fun x => 0 <= x <= 255) p ->
  length q = 3%nat /\ Forall (fun x => 0 <= x <= 255) q ->
  normalize_pixel p = normalize_pixel q -> p = q.
Proof.
  intros [Hlp Hp] [Hlq Hq] Heq.
  destruct p as [|r [|g [|b [|? ?]]]]; try discriminate Hlp.
  destruct q as [|r' [|g' [|b' [|? ?]]]]; try discriminate Hlq.
  unfold normalize_pixel in Heq. cbn [imap] in Heq.
  injection Heq as H0 H1 H2.
  inversion Hp as [|? ? Hr Hp1]; subst. inversion Hp1 as [|? ? Hg Hp2]; subst.
  inversion Hp2 as [|? ? Hb _]; subst.
  inversion Hq as [|? ? Hr' Hq1]; subst.
  inversion Hq1 as [|? ? Hg' Hq2]; subst.
  inversion Hq2 as [|? ? Hb' _]; subst.
  f_equal; [|f_equal; [|f_equal]].
  - apply (entry_injective 0%nat); [lia|done|done|done].
  - apply (entry_injective 1%nat); [lia|done|done|done].
  - apply (entry_injective 2%nat); [lia|done|done|done].
Qed.

Lemma map_injective_on {A B} (f : A -> B) (P : A -> Prop) (l k : list A) :
  (forall x y, P x -> P y -> f x = f y -> x = y) ->
  Forall P l -> Forall P k -> map f l = map f k -> l = k.
Proof.
  intros Hf Hl. revert k. induction Hl as [|x l Hx Hl IH]; intros k Hk Heq.
  - by destruct k.
  - destruct k as [|y k]; [done|]. inversion Hk; subst.
    cbn [map] in Heq. injection Heq as Hxy Hrest.
    f_equal; [by apply Hf|by apply IH].
Qed.

(** Normalisation loses nothing on 8-bit RGB images: two of them with the
    same normalised array are the same image. *)
Theorem normalize_img_array_injective (a b : ndarray Z) :
  rgb_uint8 a -> rgb_uint8 b ->
  normalize_img_array a = normalize_img_array b -> a = b.
Proof.
  intros Ha Hb. rewrite (normalize_rgb a Ha), (normalize_rgb b Hb).
  intros [= Heq]. revert Heq.
  apply (map_injective_on _ _ a b
           (fun r1 r2 H1 H2 =>
              map_injective_on normalize_pixel _ r1 r2
                normalize_pixel_injective H1 H2) Ha Hb).
Qed.

(** Normalisation keeps the order of the values of a channel: of two
    entries of the same channel of an 8-bit RGB image, anywhere in the
    image, the one with the smaller value has the smaller normalised
    value. *)
Theorem normalize_img_array_increasing (img : ndarray Z)
    (out : ndarray spec_float) (i j i' j' c : nat) (x y : Z)
    (fx fy : spec_float) :
  rgb_uint8 img -> normalize_img_array img = Ok out ->
  entry img i j c = Some x -> entry img i' j' c = Some y ->
  entry out i j c = Some fx -> entry out i' j' c = Some fy ->
  x < y -> (IEEE.to_Q fx < IEEE.to_Q fy)%Q.
Proof.
  intros Hrgb Hn Hx Hy Hfx Hfy Hxy.
  rewrite (normalize_rgb img Hrgb) in Hn. injection Hn as <-.
  assert (forall i j x, entry img i j c = Some x ->
            (c < 3)%nat /\ 0 <= x <= 255
            /\ entry (map (map normalize_pixel) img) i j c
               = Some (normalize_entry c x)) as Hent.
  { clear -Hrgb. intros i j x Hx. rewrite entry_map. unfold entry in *.
    destruct (img !! i) as [row|] eqn:Hi; [|done].
    destruct (row !! j) as [px|] eqn:Hj; [|done].
    unfold rgb_uint8 in Hrgb. rewrite Forall_lookup in Hrgb.
    specialize (Hrgb _ _ Hi). rewrite Forall_lookup in Hrgb.
    destruct (Hrgb _ _ Hj) as [Hlen Hpx]. rewrite Forall_lookup in Hpx.
    split; [apply lookup_lt_Some in Hx; lia|].
    split; [by apply (Hpx c)|].
    unfold normalize_pixel. by rewrite list_lookup_imap, Hx. }
  destruct (Hent _ _ _ Hx) as (Hc & Hrx & Hox).
  destruct (Hent _ _ _ Hy) as (_ & Hry & Hoy).
  rewrite Hox in Hfx. rewrite Hoy in Hfy.
  injection Hfx as <-. injection Hfy as <-.
  apply entry_increasing; lia.
Qed.

Lemma normalize_img_array_injective_witness :
  [[[0; 128; 255]]] = [[[0; 128; 255]]].
Proof.
  apply (normalize_img_array_injective [[[0; 128; 255]]] [[[0; 128; 255]]]).
  - repeat constructor; lia.
  - repeat constructor; lia.
  - reflexivity.
Defined.

Lemma normalize_img_array_increasing_witness :
  (IEEE.to_Q (normalize_entry 1 7) < IEEE.to_Q (normalize_entry 1 128))%Q.
Proof.
  apply (normalize_img_array_increasing [[[0; 128; 255]; [255; 7; 0]]]
           [[normalize_pixel [0; 128; 255]; normalize_pixel [255; 7; 0]]]
           0 1 0 0 1 7 128).
  - repeat constructor; lia.
  - reflexivity.
  - reflexivity.
  - reflexivity.
  - reflexivity.
  - reflexivity.
  - lia.
Defined.

(** ** The layout imread returns, and what imsave hands to the encoder *)

Lemma swap_three {A} (a : ndarray A) :
  three_channels a ->
  traverse (traverse swap_channels) a = Ok (map (map (@rev A)) a).
Proof.
  intros H3. apply traverse_map.
  eapply Forall_impl; [exact H3|]. intros row Hrow. cbv beta in *.
  apply traverse_map. eapply Forall_impl; [exact Hrow|].
  intros px Hlen. cbv beta.
  by destruct px as [|x0 [|x1 [|x2 [|? ?]]]].
Qed.

Lemma channel_three {A} (d : A) (c : nat) (a : ndarray A) :
  (c < 3)%nat -> three_channels a ->
  channel c a = Ok (map (map (fun px => nth c px d)) a).
Proof.
  intros Hc H3. unfold channel. apply traverse_map.
  eapply Forall_impl; [exact H3|]. intros row Hrow. cbv beta in *.
  apply traverse_map. eapply Forall_impl; [exact Hrow|].
  intros px Hlen. cbv beta.
  destruct px as [|x0 [|x1 [|x2 [|? ?]]]]; try discriminate Hlen.
  by destruct c as [|[|[|c]]]; [| | |lia].
Qed.

Section ImreadLayout.
Context `{OS} `{Net}.
Variable cv2_imread : string -> fs -> option (ndarray Z).
Variable pil_open_rgb : string -> fs -> res (ndarray Z).

(** On a file OpenCV decodes, to the H x W x 3 array [a] in BGR order,
    imread returns a float32 array of three planes, red first: entry
    [c][i][j] of the result is the float32 of entry [i][j][2 - c] of [a].
    The world is left as it was. *)
Theorem imread_layout (img_fp : string) (w : world) (a : ndarray Z) :
  cv2_imread img_fp (w_fs w) = Some a -> three_channels a ->
  exists out : ndarray spec_float,
    imread cv2_imread pil_open_rgb img_fp w = (Ok (F32 out), w)
    /\ length out = 3%nat
    /\ Forall (fun plane => map (@length spec_float) plane
                            = map (@length (list Z)) a) out
    /\ forall c i j : nat, (c < 3)%nat ->
         entry out c i j = IEEE.f32_of_Z <$> entry a i j (2 - c).
Proof.
  intros Hread H3.
  set (a1 := map_entries IEEE.f32_of_Z a).
  set (a2 := map (map (@rev spec_float)) a1).
  assert (three_channels a1) as H31 by (by apply three_channels_map_entries).
  assert (three_channels a2) as H32.
  { unfold a2, three_channels. rewrite Forall_map.
    eapply Forall_impl; [exact H31|]. intros row Hrow. cbv beta in *.
    rewrite Forall_map. eapply Forall_impl; [exact Hrow|].
    intros px Hpx. cbv beta. by rewrite length_rev. }
  set (plane c := map (map (fun px : list spec_float => nth c px S754_nan)) a2).
  exists [plane 0%nat; plane 1%nat; plane 2%nat]. split; [|split; [|split]].
  - unfold imread. rewrite bind_unfold.
    pose proof (imread_load_cases cv2_imread img_fp w) as Hl.
    rewrite Hread in Hl. rewrite Hl. fold a1.
    rewrite bind_unfold. cbn [imread_convert]. unfold lift.
    cbn [cvtColor_BGR2RGB]. rewrite (swap_three a1 H31). fold a2.
    cbn [transpose_201 traverse].
    rewrite !(channel_three S754_nan) by (done || lia). done.
  - done.
  - repeat constructor; unfold plane, a2, a1, map_entries;
      rewrite !map_map; apply map_ext; intros row;
      by rewrite !length_map.
  - intros c i j Hc.
    unfold entry at 1.
    assert ([plane 0%nat; plane 1%nat; plane 2%nat] !! c = Some (plane c))
      as -> by (by destruct c as [|[|[|c]]]; [| | |lia]).
    unfold plane, a2, a1, map_entries, entry. rewrite !lookup_map.
    destruct (a !! i) as [row|] eqn:Hi; [|done]. cbn [fmap option_fmap option_map].
    rewrite !lookup_map.
    destruct (row !! j) as [px|] eqn:Hj; [|done]. cbn [fmap option_fmap option_map].
    unfold three_channels in H3. rewrite Forall_lookup in H3.
    specialize (H3 _ _ Hi). rewrite Forall_lookup in H3.
    specialize (H3 _ _ Hj). cbv beta in H3.
    destruct px as [|x0 [|x1 [|x2 [|? ?]]]]; try discriminate H3.
    by destruct c as [|[|[|c]]]; [| | |lia].
Qed.

End ImreadLayout.

Lemma imread_layout_witness :
  exists out : ndarray spec_float,
    @imread Demo.os Demo.web (fun _ _ => Some [[[1; 2; 3]; [4; 5; 6]]])
      (fun _ _ => Raise ValueError) "/data/abc.bin" Demo.w0
    = (Ok (F32 out), Demo.w0)
    /\ length out = 3%nat
    /\ Forall (fun plane => map (@length spec_float) plane
                            = map (@length (list Z)) [[[1; 2; 3]; [4; 5; 6]]])
         out
    /\ forall c i j : nat, (c < 3)%nat ->
         entry out c i j
         = IEEE.f32_of_Z <$> entry [[[1; 2; 3]; [4; 5; 6]]] i j (2 - c).
Proof.
  apply (@imread_layout Demo.os Demo.web
           (fun _ _ => Some [[[1; 2; 3]; [4; 5; 6]]])
           (fun _ _ => Raise ValueError) "/data/abc.bin" Demo.w0).
  - reflexivity.
  - repeat constructor.
Defined.

Section ImsaveFacts.
Context `{OS} `{Net}.
Variable cv2_imwrite : string -> ndarray Z -> fs -> res bool * fs.

(** imsave once the array [saved] has reached the encoder: the encoder's
    errors are raised, the boolean it returns is dropped. *)
Definition imsave_writes (fp : string) (saved : ndarray Z) (w : world)
  : res unit * world :=
  (match fst (cv2_imwrite fp saved (w_fs w)) with
   | Ok _ => Ok tt
   | Raise e => Raise e
   end,
   set_fs w (snd (cv2_imwrite fp saved (w_fs w)))).

Lemma forallb_three {A} (a : ndarray A) :
  three_channels a ->
  forallb (forallb (fun px : list A => Nat.eqb (length px) 3)) a = true.
Proof.
  intros H3. apply forallb_forall. intros row Hrow.
  apply forallb_forall. intros px Hpx. apply Nat.eqb_eq.
  unfold three_channels in H3. rewrite Forall_forall in H3.
  specialize (H3 row (proj2 (list_elem_of_In _ _) Hrow)).
  rewrite Forall_forall in H3.
  exact (H3 px (proj2 (list_elem_of_In _ _) Hpx)).
Qed.

Lemma imsave_plain (a : ndarray Z) (image : array) (fp : string) (w : world) :
  to_uint8 image = a -> three_channels a ->
  imsave_rgb cv2_imwrite image fp false w
  = imsave_writes fp (map (map (@rev Z)) a) w.
Proof.
  intros Ha H3. unfold imsave_rgb. cbv beta iota.
  rewrite bind_unfold. unfold ret at 1. cbv beta iota. rewrite Ha.
  rewrite bind_unfold. unfold lift, cvtColor_RGB2BGR.
  rewrite (swap_three a H3). rewrite bind_unfold.
  unfold imwrite, imsave_writes.
  by destruct (cv2_imwrite fp _ (w_fs w)) as [[b|e] f].
Qed.

Lemma all_uint8_cast_back :
  forallb (fun x => IEEE.trunc (clip32 (IEEE.f32_of_Z x)) mod 256 =? x)
          uint8_values = true.
Proof. vm_compute. reflexivity. Qed.

Lemma uint8_cast_back (img : ndarray Z) :
  rgb_uint8 img -> to_uint8 (F32 (map_entries IEEE.f32_of_Z img)) = img.
Proof.
  intros Hrgb. cbn [to_uint8]. unfold map_entries.
  rewrite map_map. rewrite <- (map_id img) at 2. apply map_ext_Forall.
  eapply Forall_impl; [exact Hrgb|]. intros row Hrow. cbv beta in *.
  rewrite map_map. rewrite <- (map_id row) at 2. apply map_ext_Forall.
  eapply Forall_impl; [exact Hrow|]. intros px [_ Hpx]. cbv beta.
  rewrite map_map. rewrite <- (map_id px) at 2. apply map_ext_Forall.
  eapply Forall_impl; [exact Hpx|]. intros x Hx. cbv beta.
  pose proof all_uint8_cast_back as Ha. rewrite forallb_forall in Ha.
  apply Z.eqb_eq. apply Ha. by apply uint8_values_spec.
Qed.

Lemma rgb_uint8_three (img : ndarray Z) : rgb_uint8 img -> three_channels img.
Proof.
  intros Hrgb. eapply Forall_impl; [exact Hrgb|]. intros row Hrow.
  eapply Forall_impl; [exact Hrow|]. by intros px [Hlen _].
Qed.

(** With [normalized=False] an 8-bit RGB image reaches the encoder with
    its values unchanged and the first and third channel exchanged,
    whether it is held as uint8 or as float32.  Whatever boolean
    cv2.imwrite returns, imsave returns None: a file that could not be
    written is not reported. *)
Theorem imsave_plain_exact (img : ndarray Z) (fp : string) (w : world) :
  rgb_uint8 img ->
  (exists m, imsave cv2_imwrite (U8 img) fp false = Some m
             /\ m w = imsave_writes fp (map (map (@rev Z)) img) w)
  /\ (exists m,
        imsave cv2_imwrite (F32 (map_entries IEEE.f32_of_Z img)) fp false
        = Some m
        /\ m w = imsave_writes fp (map (map (@rev Z)) img) w)
  /\ (forall b f,
        cv2_imwrite fp (map (map (@rev Z)) img) (w_fs w) = (Ok b, f) ->
        exists m, imsave cv2_imwrite (U8 img) fp false = Some m
                  /\ m w = (Ok tt, set_fs w f)).
Proof.
  intros Hrgb. pose proof (rgb_uint8_three img Hrgb) as H3.
  assert (imsave cv2_imwrite (U8 img) fp false
          = Some (imsave_rgb cv2_imwrite (U8 img) fp false)) as HU.
  { unfold imsave. cbn [has_three_channels]. by rewrite forallb_three. }
  split; [|split].
  - eexists. split; [exact HU|]. by apply (imsave_plain img).
  - eexists. split.
    + unfold imsave. cbn [has_three_channels]. rewrite forallb_three; [done|].
      by apply three_channels_map_entries.
    + apply (imsave_plain img); [by apply uint8_cast_back|done].
  - intros b f Hw. eexists. split; [exact HU|].
    rewrite (imsave_plain img) by done.
    unfold imsave_writes. by rewrite Hw.
Qed.

(** An image normalised by normalize_img_array and saved with the default
    [normalized=True] reaches the encoder in BGR order with every value
    the one of the image or one less, never negative. *)
Theorem imsave_normalized_close (img : ndarray Z) (n : ndarray spec_float)
    (fp : string) (w : world) :
  rgb_uint8 img -> normalize_img_array img = Ok n ->
  exists (m : M unit) (saved : ndarray Z),
    imsave cv2_imwrite (F32 n) fp true = Some m
    /\ m w = imsave_writes fp saved w
    /\ shape saved = shape img
    /\ forall i j c x, (c < 3)%nat -> entry img i j c = Some x ->
         exists x', entry saved i j (2 - c) = Some x'
                    /\ (x' = x \/ x' = x - 1) /\ 0 <= x'.
Proof.
  intros Hrgb Hn.
  set (restored := map (map (fun px => restore_pixel (normalize_pixel px))) img).
  pose proof (rgb_uint8_three img Hrgb) as Himg.
  assert (restore_img n = Ok restored) as Hr.
  { pose proof (restore_normalized_rgb img Hrgb) as Hrn.
    unfold restore_normalized in Hrn. by rewrite Hn in Hrn. }
  assert (three_channels restored) as H3.
  { unfold three_channels, restored. rewrite Forall_map.
    eapply Forall_impl; [exact Himg|]. intros row Hrow. cbv beta in *.
    rewrite Forall_map. eapply Forall_impl; [exact Hrow|].
    intros px Hpx. cbv beta.
    unfold restore_pixel, normalize_pixel. by rewrite !length_imap. }
  assert (three_channels n) as H3n.
  { rewrite (normalize_rgb img Hrgb) in Hn. injection Hn as <-.
    unfold three_channels. rewrite Forall_map.
    eapply Forall_impl; [exact Himg|]. intros row Hrow. cbv beta in *.
    rewrite Forall_map. eapply Forall_impl; [exact Hrow|].
    intros px Hpx. cbv beta. unfold normalize_pixel. by rewrite length_imap. }
  exists (imsave_rgb cv2_imwrite (F32 n) fp true),
         (map (map (@rev Z)) restored).
  split; [|split; [|split]].
  - unfold imsave. cbn [has_three_channels]. by rewrite forallb_three.
  - unfold imsave_rgb. cbv beta iota. rewrite !bind_unfold. unfold lift.
    cbn [restore_img_array]. rewrite Hr. unfold ret at 1. cbv beta iota.
    cbn [to_uint8]. rewrite bind_unfold. unfold cvtColor_RGB2BGR.
    rewrite (swap_three restored H3). rewrite bind_unfold.
    unfold imwrite, imsave_writes.
    by destruct (cv2_imwrite fp _ (w_fs w)) as [[b|e] f].
  - unfold shape, restored. rewrite !map_map. apply map_ext. intros row.
    rewrite !map_map. apply map_ext. intros px.
    unfold restore_pixel, normalize_pixel.
    by rewrite length_rev, !length_imap.
  - intros i j c x Hc Hx. unfold restored. rewrite entry_map.
    unfold entry in Hx. rewrite lookup_map.
    destruct (img !! i) as [row|] eqn:Hi; [|done].
    cbn [fmap option_fmap option_map]. rewrite lookup_map.
    destruct (row !! j) as [px|] eqn:Hj; [|done].
    cbn [fmap option_fmap option_map].
    unfold rgb_uint8 in Hrgb. rewrite Forall_lookup in Hrgb.
    specialize (Hrgb _ _ Hi). rewrite Forall_lookup in Hrgb.
    destruct (Hrgb _ _ Hj) as [Hlen Hpx]. rewrite Forall_lookup in Hpx.
    specialize (Hpx _ _ Hx).
    exists (restore_entry c (normalize_entry c x)).
    split; [|by apply entry_within_one].
    destruct px as [|x0 [|x1 [|x2 [|? ?]]]]; try discriminate Hlen.
    destruct c as [|[|[|c]]]; [| | |lia]; simpl in Hx; by inversion Hx.
Qed.

End ImsaveFacts.

(** An encoder that never writes and says so. *)
Definition no_encoder `{OS} : string -> ndarray Z -> fs -> res bool * fs :=
  fun _ _ f => (Ok false, f).

Lemma imsave_plain_exact_witness :
  exists m,
    @imsave Demo.os Demo.web no_encoder (U8 [[[1; 2; 3]]]) "/data/x.png" false
    = Some m
    /\ m Demo.w0 = (Ok tt, set_fs Demo.w0 Demo.tree0).
Proof.
  destruct (@imsave_plain_exact Demo.os Demo.web no_encoder [[[1; 2; 3]]]
              "/data/x.png" Demo.w0) as (_ & _ & H3).
  - repeat constructor; lia.
  - exact (H3 false Demo.tree0 eq_refl).
Defined.

Lemma imsave_normalized_close_witness :
  exists (m : M unit) (saved : ndarray Z),
    @imsave Demo.os Demo.web no_encoder
      (F32 [[normalize_pixel [1; 128; 255]]]) "/data/x.png" true = Some m
    /\ m Demo.w0
       = @imsave_writes Demo.os Demo.web no_encoder "/data/x.png" saved Demo.w0
    /\ shape saved = shape [[[1; 128; 255]]]
    /\ forall i j c x, (c < 3)%nat ->
         entry [[[1; 128; 255]]] i j c = Some x ->
         exists x', entry saved i j (2 - c) = Some x'
                    /\ (x' = x \/ x' = x - 1) /\ 0 <= x'.
Proof.
  apply (@imsave_normalized_close Demo.os Demo.web no_encoder
           [[[1; 128; 255]]]).
  - repeat constructor; lia.
  - reflexivity.
Defined.

(** A pixel that comes back one lower, in BGR order. *)
Example imsave_normalized_loses_one :
  fst (@imsave_rgb Demo.os Demo.web
         (fun _ saved f => (if decide (saved = [[[0; 0; 0]]])
                            then Ok true else Raise Cv2Error, f))
         (F32 [[normalize_pixel [1; 1; 1]]]) "/data/x.png" true Demo.w0)
  = Ok tt.
Proof. vm_compute. reflexivity. Qed.

(** ** More on load_model_params: failures and what the conversion keeps *)

#[local] Instance model_prefix_Inj : Inj (=) (=) (String.append "model.").
Proof. intros a b. apply model_prefix_inj. Qed.

Lemma size_kmap_model {A} (m : gmap string A) :
  size (kmap (String.append "model.") m : gmap string A) = size m.
Proof.
  induction m as [|k v m Hk _ IH] using map_first_key_ind.
  - by rewrite kmap_empty, !map_size_empty.
  - rewrite kmap_insert, !map_size_insert_None;
      [by rewrite IH|done| |apply model_prefix_Inj].
    rewrite lookup_kmap; [done|apply model_prefix_Inj].
Qed.

Section LoadModelParamsFailures.
Context `{OS}.
Variable tensor : Type.
Variable module : Type.
Variable torch_load :
  string -> string -> fs -> res (gmap string (gmap string tensor)).
Variable load_state_dict :
  module -> gmap string tensor -> option string * module.

Lemma converted_state_dict_cases
    (checkpoint : gmap string (gmap string tensor))
    (state_dict : gmap string tensor) :
  checkpoint !! "state_dict" = Some state_dict ->
  exists loaded,
    converted_state_dict tensor checkpoint = Ok loaded
    /\ (all_model_keys state_dict ->
        forall k', loaded !! k' = state_dict !! ("model." +:+ k'))
    /\ (~ all_model_keys state_dict -> loaded = state_dict).
Proof.
  intros Hsd. unfold converted_state_dict. rewrite Hsd.
  destruct (forallb _ _) eqn:Hall.
  - apply all_model_keys_forallb in Hall as Hkeys.
    destruct (strip_first_field_lookup tensor (map_to_list state_dict) ∅)
      as (d' & Hd' & Hlook).
    + apply Forall_forall. intros [k v] Hin.
      apply elem_of_map_to_list in Hin. apply Hkeys. by exists v.
    + apply NoDup_fst_map_to_list.
    + exists d'. split; [done|]. split; [|done].
      intros _ k'. rewrite Hlook, list_to_map_to_list, lookup_empty.
      by destruct (state_dict !! _).
  - exists state_dict. split; [done|]. split; [|done].
    intros Hkeys. apply all_model_keys_forallb in Hkeys. congruence.
Qed.

Lemma converted_state_dict_size
    (checkpoint : gmap string (gmap string tensor))
    (state_dict loaded : gmap string tensor) :
  checkpoint !! "state_dict" = Some state_dict ->
  converted_state_dict tensor checkpoint = Ok loaded ->
  size loaded = size state_dict.
Proof.
  intros Hsd Hconv.
  destruct (converted_state_dict_cases _ _ Hsd) as (l & Hl & Hyes & Hno).
  rewrite Hl in Hconv. injection Hconv as ->.
  destruct (forallb (fun param_name => Py.startswith "model." param_name)
              (map fst (map_to_list state_dict))) eqn:Hall.
  - apply all_model_keys_forallb in Hall. specialize (Hyes Hall).
    rewrite <- (size_kmap_model loaded). f_equal.
    apply map_eq. intros k.
    destruct (state_dict !! k) as [v|] eqn:Hk.
    + destruct (proj1 (startswith_model k)) as [k' ->]; [apply Hall; eauto|].
      rewrite lookup_kmap; [by rewrite Hyes|apply model_prefix_Inj].
    + apply lookup_kmap_None; [apply model_prefix_Inj|].
      intros k' ->. by rewrite Hyes.
  - rewrite Hno; [done|]. intros Hkeys.
    apply all_model_keys_forallb in Hkeys. congruence.
Qed.

(** How load_model_params fails, and that the conversion drops nothing.
    An error of torch.load is raised as it is and a checkpoint without
    the key ['state_dict'] raises KeyError, in both cases with every
    module left as it was.  Otherwise the dict handed to load_state_dict
    has as many entries as the checkpoint's (stripping the prefix never
    merges two keys), [split('.', maxsplit=1)[1]] never raises IndexError,
    and the call returns the module or raises the RuntimeError of
    load_state_dict. *)
Theorem load_model_params_failures (f : fs) (h : heap module) (model : nat)
    (param_fp device : string) :
  match torch_load param_fp device f with
  | Raise e =>
      load_model_params tensor module torch_load load_state_dict
        model param_fp device f h = (Raise e, h)
  | Ok checkpoint =>
      match checkpoint !! "state_dict" with
      | None =>
          load_model_params tensor module torch_load load_state_dict
            model param_fp device f h = (Raise (KeyError "state_dict"), h)
      | Some state_dict =>
          exists loaded,
            converted_state_dict tensor checkpoint = Ok loaded
            /\ size loaded = size state_dict
            /\ (fst (load_model_params tensor module torch_load
                       load_state_dict model param_fp device f h) = Ok model
                \/ exists msg,
                     fst (load_model_params tensor module torch_load
                            load_state_dict model param_fp device f h)
                     = Raise (RuntimeError msg))
      end
  end.
Proof.
  unfold load_model_params.
  destruct (torch_load param_fp device f) as [checkpoint|e]; [|done].
  destruct (checkpoint !! "state_dict") as [state_dict|] eqn:Hsd.
  - destruct (converted_state_dict_cases _ _ Hsd) as (loaded & Hl & _).
    exists loaded. split; [done|].
    split; [by apply (converted_state_dict_size checkpoint)|].
    rewrite Hl.
    destruct (load_state_dict (h model) loaded) as [[msg|] m']; eauto.
  - unfold converted_state_dict. by rewrite Hsd.
Qed.

End LoadModelParamsFailures.

Example load_model_params_no_state_dict :
  @load_model_params Demo.os Z (gmap string Z)
    (fun _ _ _ => Ok {[ "weights" := Demo.state_dict ]})
    (fun _ sd => (None, sd)) 0%nat "/data/abc.bin" "cpu" Demo.tree0
    (fun _ => ∅)
  = (Raise (KeyError "state_dict"), fun _ => ∅).
Proof. reflexivity. Qed.

Example load_model_params_strips_one_prefix :
  match converted_state_dict Z
          {[ "state_dict" := {[ "model.model.a" := 1; "model.b.c" := 2 ]} ]}
  with
  | Ok loaded => (loaded !! "model.a", loaded !! "b.c", loaded !! "a", size loaded)
                 = (Some 1, Some 2, None, 2%nat)
  | Raise _ => False
  end.
Proof. vm_compute. reflexivity. Qed.

(** ** More on set_logger: the log file *)

Section SetLoggerFile.
Context `{OS} `{Net} `{!OSLaws}.


End SetLoggerFile.


(** ** model_fn_prefix: the epoch field *)

Lemma digit_char_spec (d : Z) :
  0 <= d <= 9 ->
  PyInt.digit (PyFormat.digit_char d) = Some d
  /\ Ascii.eqb (PyFormat.digit_char d) "_"%char = false
  /\ Ascii.eqb (PyFormat.digit_char d) "-"%char = false
  /\ Ascii.eqb (PyFormat.digit_char d) "+"%char = false
  /\ PyInt.is_space (PyFormat.digit_char d) = false.
Proof.
  intros Hd.
  assert (d = 0 \/ d = 1 \/ d = 2 \/ d = 3 \/ d = 4 \/ d = 5 \/ d = 6
          \/ d = 7 \/ d = 8 \/ d = 9) as Hc by lia.
  repeat (destruct Hc as [->|Hc]; [by repeat split|]). subst.
  by repeat split.
Qed.

Lemma decimal_fuel_nonempty (f : nat) (n : Z) :
  (0 < length (PyFormat.decimal_fuel (S f) n))%nat.
Proof.
  cbn [PyFormat.decimal_fuel]. destruct (n <? 10); [simpl; lia|].
  rewrite length_app. simpl. lia.
Qed.

(** Reading the digits back. *)
Lemma digits_decimal_fuel (f : nat) : forall n acc b rest,
  (0 < f)%nat -> 0 <= n < 10 ^ Z.of_nat f ->
  PyInt.digits acc b (PyFormat.decimal_fuel f n ++ rest)
  = PyInt.digits
      (acc * 10 ^ Z.of_nat (length (PyFormat.decimal_fuel f n)) + n)
      true rest.
Proof.
  induction f as [|f IH]; intros n acc b rest Hf Hn; [lia|].
  cbn [PyFormat.decimal_fuel].
  destruct (Z.ltb_spec n 10) as [Hlt|Hge].
  - destruct (digit_char_spec n ltac:(lia)) as (Hd & Hu & _).
    cbn [app length PyInt.digits]. rewrite Hu, Hd. f_equal. lia.
  - assert (0 < f)%nat as Hf'.
    { destruct f; [|lia]. simpl in Hn. lia. }
    assert (0 <= n / 10 < 10 ^ Z.of_nat f) as Hq.
    { split; [apply Z.div_pos; lia|].
      apply Z.div_lt_upper_bound; [lia|].
      rewrite Nat2Z.inj_succ, Z.pow_succ_r in Hn by lia. lia. }
    rewrite <- app_assoc. rewrite (IH _ _ _ _ Hf' Hq).
    assert (0 <= n mod 10 <= 9) as Hm.
    { pose proof (Z.mod_pos_bound n 10 ltac:(lia)). lia. }
    destruct (digit_char_spec _ Hm) as (Hd & Hu & _).
    cbn [app PyInt.digits]. rewrite Hu, Hd. f_equal.
    rewrite length_app. cbn [length].
    rewrite Nat2Z.inj_add, Z.pow_add_r by lia.
    change (10 ^ Z.of_nat 1) with 10.
    pose proof (Z.div_mod n 10 ltac:(lia)). lia.
Qed.

Lemma decimal_fuel_enough (n : Z) :
  0 <= n -> n < 10 ^ Z.of_nat (S (Z.to_nat (Z.log2 n))).
Proof.
  intros Hn. pose proof (Z.log2_nonneg n) as Hl.
  replace (Z.of_nat (S (Z.to_nat (Z.log2 n)))) with (Z.succ (Z.log2 n))
    by lia.
  destruct (Z.eq_dec n 0) as [->|Hne]; [done|].
  destruct (Z.log2_spec n ltac:(lia)) as [_ Hup].
  eapply Z.lt_le_trans; [exact Hup|].
  apply Z.pow_le_mono_l. lia.
Qed.

Lemma digits_decimal (n : Z) (b : bool) :
  0 <= n -> PyInt.digits 0 b (PyFormat.decimal n) = Some n.
Proof.
  intros Hn. unfold PyFormat.decimal.
  rewrite <- (app_nil_r (PyFormat.decimal_fuel _ n)).
  rewrite digits_decimal_fuel; [done|lia|].
  split; [done|by apply decimal_fuel_enough].
Qed.

Lemma digits_zeros (k : nat) (n : Z) (b : bool) :
  0 <= n ->
  PyInt.digits 0 b (repeat PyFormat.zero k ++ PyFormat.decimal n) = Some n.
Proof.
  intros Hn. revert b. induction k as [|k IH]; intros b.
  - by apply digits_decimal.
  - cbn [repeat app PyInt.digits]. apply IH.
Qed.

(** The characters of a field are digits, after a sign at most: none is
    white space. *)
Definition field_char (c : ascii) : Prop :=
  PyInt.is_space c = false /\ Ascii.eqb c "+"%char = false.

Lemma decimal_fuel_chars (f : nat) : forall n,
  0 <= n ->
  Forall (fun c => field_char c /\ Ascii.eqb c "-"%char = false)
         (PyFormat.decimal_fuel f n).
Proof.
  induction f as [|f IH]; intros n Hn; cbn [PyFormat.decimal_fuel];
    [constructor|].
  destruct (Z.ltb_spec n 10) as [Hlt|Hge].
  - destruct (digit_char_spec n ltac:(lia)) as (_ & _ & Hm & Hp & Hs).
    by repeat constructor.
  - apply Forall_app. split; [apply IH, Z.div_pos; lia|].
    assert (0 <= n mod 10 <= 9) as Hm.
    { pose proof (Z.mod_pos_bound n 10 ltac:(lia)). lia. }
    destruct (digit_char_spec _ Hm) as (_ & _ & Hm' & Hp & Hs).
    by repeat constructor.
Qed.

Lemma padded_chars (k : nat) (n : Z) :
  0 <= n ->
  Forall (fun c => field_char c /\ Ascii.eqb c "-"%char = false)
         (repeat PyFormat.zero k ++ PyFormat.decimal n).
Proof.
  intros Hn. apply Forall_app. split.
  - apply Forall_forall. intros c Hc. apply list_elem_of_In in Hc.
    apply repeat_spec in Hc. by subst.
  - by apply decimal_fuel_chars.
Qed.

Lemma lstrip_id (cs : list ascii) :
  Forall (fun c => PyInt.is_space c = false) cs -> PyInt.lstrip cs = cs.
Proof.
  destruct 1 as [|c r Hc _]; [done|]. cbn [PyInt.lstrip]. by rewrite Hc.
Qed.

Lemma strip_id (cs : list ascii) :
  Forall (fun c => PyInt.is_space c = false) cs -> PyInt.strip cs = cs.
Proof.
  intros Hcs. unfold PyInt.strip. rewrite (lstrip_id cs Hcs).
  rewrite lstrip_id; [apply rev_involutive|].
  apply Forall_forall. intros c Hc. rewrite Forall_forall in Hcs.
  apply Hcs. apply list_elem_of_In. apply in_rev.
  by apply list_elem_of_In.
Qed.

(** [int] reads the field back, whatever the epoch. *)
Lemma int_d04 (epoch : Z) : PyInt.int (PyFormat.d04 epoch) = Some epoch.
Proof.
  unfold PyFormat.d04, PyInt.int. cbv zeta.
  destruct (Z.ltb_spec epoch 0) as [Hneg|Hpos].
  - cbn [list_ascii_of_string].
    rewrite list_ascii_of_string_of_list_ascii.
    pose proof (padded_chars (3 - length (PyFormat.decimal (Z.abs epoch)))
                  (Z.abs epoch) ltac:(lia)) as Hchars.
    rewrite strip_id.
    + cbn [Ascii.eqb Bool.eqb]. rewrite digits_zeros by lia.
      simpl. f_equal. lia.
    + constructor; [done|].
      eapply Forall_impl; [exact Hchars|]. by intros c [[Hs _] _].
  - rewrite list_ascii_of_string_of_list_ascii.
    pose proof (padded_chars (4 - length (PyFormat.decimal (Z.abs epoch)))
                  (Z.abs epoch) ltac:(lia)) as Hchars.
    rewrite strip_id.
    2:{ eapply Forall_impl; [exact Hchars|]. by intros c [[Hs _] _]. }
    pose proof (digits_zeros (4 - length (PyFormat.decimal (Z.abs epoch)))
                  (Z.abs epoch) false ltac:(lia)) as Hd.
    destruct (repeat PyFormat.zero _ ++ PyFormat.decimal (Z.abs epoch))
      as [|c r] eqn:E.
    { simpl in Hd. discriminate Hd. }
    inversion Hchars as [|? ? [[_ Hplus] Hminus] _]; subst.
    rewrite Hminus, Hplus, Hd. f_equal. lia.
Qed.

(** The number of digits against the size of the number. *)
Lemma decimal_fuel_length (f : nat) : forall n k,
  (0 < f)%nat -> 0 <= n < 10 ^ Z.of_nat f -> (0 < k)%nat ->
  (length (PyFormat.decimal_fuel f n) <= k)%nat <-> n < 10 ^ Z.of_nat k.
Proof.
  induction f as [|f IH]; intros n k Hf Hn Hk; [lia|].
  cbn [PyFormat.decimal_fuel].
  destruct (Z.ltb_spec n 10) as [Hlt|Hge].
  - cbn [length]. split; [|lia]. intros _.
    eapply Z.lt_le_trans; [exact Hlt|].
    change 10 with (10 ^ 1) at 1. apply Z.pow_le_mono_r; lia.
  - assert (0 < f)%nat as Hf'.
    { destruct f; [|lia]. simpl in Hn. lia. }
    assert (0 <= n / 10 < 10 ^ Z.of_nat f) as Hq.
    { split; [apply Z.div_pos; lia|].
      apply Z.div_lt_upper_bound; [lia|].
      rewrite Nat2Z.inj_succ, Z.pow_succ_r in Hn by lia. lia. }
    rewrite length_app. cbn [length].
    destruct k as [|[|k]]; [lia| |].
    + pose proof (decimal_fuel_nonempty (pred f) (n / 10)) as Hne.
      replace (S (pred f)) with f in Hne by lia.
      change (10 ^ Z.of_nat 1) with 10. lia.
    + specialize (IH (n / 10) (S k) Hf' Hq ltac:(lia)).
      rewrite (Nat2Z.inj_succ (S k)), Z.pow_succ_r by lia.
      pose proof (Z.div_mod n 10 ltac:(lia)) as Hdm.
      pose proof (Z.mod_pos_bound n 10 ltac:(lia)) as Hmb.
      split.
      * intros Hl. assert (n / 10 < 10 ^ Z.of_nat (S k)) by (apply IH; lia).
        lia.
      * intros Hl. assert (n / 10 < 10 ^ Z.of_nat (S k)) as Hlt.
        { apply Z.div_lt_upper_bound; lia. }
        apply IH in Hlt. lia.
Qed.

Lemma decimal_length (n : Z) (k : nat) :
  0 <= n -> (0 < k)%nat ->
  (0 < length (PyFormat.decimal n))%nat
  /\ ((length (PyFormat.decimal n) <= k)%nat <-> n < 10 ^ Z.of_nat k).
Proof.
  intros Hn Hk. split; [apply decimal_fuel_nonempty|].
  apply decimal_fuel_length; [lia| |done].
  split; [done|by apply decimal_fuel_enough].
Qed.

Lemma string_length_of_list (cs : list ascii) :
  String.length (string_of_list_ascii cs) = length cs.
Proof. induction cs as [|c r IH]; simpl; [done|]. by rewrite IH. Qed.

Lemma d04_length (epoch : Z) :
  (4 <= String.length (PyFormat.d04 epoch))%nat
  /\ (String.length (PyFormat.d04 epoch) = 4%nat <-> -999 <= epoch <= 9999).
Proof.
  unfold PyFormat.d04. cbv zeta.
  destruct (Z.ltb_spec epoch 0) as [Hneg|Hpos].
  - cbn [String.length].
    rewrite string_length_of_list, length_app, repeat_length.
    destruct (decimal_length (Z.abs epoch) 3 ltac:(lia) ltac:(lia))
      as [Hne Hlen].
    change (10 ^ Z.of_nat 3) with 1000 in Hlen. lia.
  - rewrite string_length_of_list, length_app, repeat_length.
    destruct (decimal_length (Z.abs epoch) 4 ltac:(lia) ltac:(lia))
      as [Hne Hlen].
    change (10 ^ Z.of_nat 4) with 10000 in Hlen. lia.
Qed.

Lemma append_inv_head (p x y : string) : p +:+ x = p +:+ y -> x = y.
Proof.
  induction p as [|c p IH]; [done|]. rewrite !append_cons.
  intros [= E]. by apply IH.
Qed.

Lemma append_inv_tail (x y s : string) : x +:+ s = y +:+ s -> x = y.
Proof.
  intros E. apply (f_equal list_ascii_of_string) in E.
  rewrite !list_ascii_app in E. apply app_inv_tail in E.
  apply (f_equal string_of_list_ascii) in E.
  by rewrite !string_of_list_ascii_of_string in E.
Qed.

(** The epoch can be read back from the file name: the field between the
    last dash and ['.params'] is what [int] turns into the epoch again,
    for every integer; it has at least four characters, and exactly four
    from -999 to 9999.  So the names of two epochs of the same backbone
    differ. *)
Theorem model_fn_prefix_epoch (MODEL_VERSION backbone : string) :
  (forall epoch : Z,
     exists field : string,
       model_fn_prefix MODEL_VERSION backbone epoch
       = "cnstd-v" +:+ MODEL_VERSION +:+ "-" +:+ backbone +:+ "-"
         +:+ field +:+ ".params"
       /\ PyInt.int field = Some epoch
       /\ (4 <= String.length field)%nat
       /\ (String.length field = 4%nat <-> -999 <= epoch <= 9999))
  /\ (forall e1 e2 : Z,
        model_fn_prefix MODEL_VERSION backbone e1
        = model_fn_prefix MODEL_VERSION backbone e2 -> e1 = e2).
Proof.
  split.
  - intros epoch. exists (PyFormat.d04 epoch). split; [done|].
    split; [apply int_d04|apply d04_length].
  - intros e1 e2 E. unfold model_fn_prefix in E.
    do 5 apply append_inv_head in E. apply append_inv_tail in E.
    pose proof (int_d04 e1) as H1. rewrite E, int_d04 in H1.
    by inversion H1.
Qed.

Example model_fn_prefix_names :
  model_fn_prefix "1.0" "mobilenetv3" 7 = "cnstd-v1.0-mobilenetv3-0007.params"
  /\ model_fn_prefix "1.0" "mobilenetv3" 12345
     = "cnstd-v1.0-mobilenetv3-12345.params"
  /\ model_fn_prefix "1.0" "mobilenetv3" (-5)
     = "cnstd-v1.0-mobilenetv3--005.params".
Proof. vm_compute. done. Qed.

(** ** data_dir *)

Section DataDirFacts.
Context `{OS}.
Variable system : string.
Variable environ : gmap string string.
Variable nt_join : string -> string -> string.

(** data_dir computes its default before it looks at CNOCR_HOME: on
    Windows without APPDATA it raises TypeError whether CNOCR_HOME is set
    or not, and that is its only error.  Otherwise a CNOCR_HOME that is
    set is returned as it is, the empty string included, and without it
    the result is the default directory. *)
Theorem data_dir_outcome :
  (data_dir system environ nt_join = inl TypeError
   <-> system = "Windows" /\ environ !! "APPDATA" = None)
  /\ (forall home, environ !! "CNOCR_HOME" = Some home ->
        ~ (system = "Windows" /\ environ !! "APPDATA" = None) ->
        data_dir system environ nt_join = inr home)
  /\ (environ !! "CNOCR_HOME" = None ->
      data_dir system environ nt_join
      = data_dir_default system environ nt_join)
  /\ (system <> "Windows" ->
      data_dir_default system environ nt_join
      = inr (join (expanduser "~") ".cnstd")).
Proof.
  unfold data_dir, data_dir_default.
  destruct (String.eqb_spec system "Windows") as [->|Hsys].
  - destruct (environ !! "APPDATA") as [appdata|].
    + split; [split; [discriminate|by intros [_ ?]]|].
      split; [by intros home ->|]. split; [by intros ->|done].
    + split; [done|]. split; [|done]. intros home _ Hn. by destruct Hn.
  - split; [split; [discriminate|by intros [? _]]|].
    split; [by intros home ->|]. split; [by intros ->|done].
Qed.

End DataDirFacts.

Example data_dir_windows_without_appdata :
  @data_dir Demo.os "Windows" {[ "CNOCR_HOME" := "/models" ]}
    (fun a b => a +:+ "\" +:+ b)
  = inl TypeError
  /\ @data_dir Demo.os "Linux" {[ "CNOCR_HOME" := "" ]}
       (fun a b => a +:+ "\" +:+ b)
     = inr ""
  /\ @data_dir Demo.os "Linux" ∅ (fun a b => a +:+ "\" +:+ b)
     = inr "/home/u/.cnstd".
Proof. vm_compute. done. Qed.
